(** * open-swe: model resolution, circuit breaker and fallback runner

  A shallow embedding of the resilience layer of the agent back end:

  - [apps/open-swe/src/utils/llms/model-manager.ts]: the per-task model
    resolver, the provider parameter shaping of [initializeModel] and the
    Redis-backed circuit breaker (the file also keeps an earlier
    revision, with the breaker states in a process-local map and a
    resolver that enumerated the other providers; the Redis-backed one
    is embedded here);
  - the fallback runner [FallbackRunnable.invoke] in its two revisions
    (the fail-fast one of [utils/runtime-fallback.ts] and the retrying
    one that also carries [sanitizeHistory]);
  - the history compaction step, which is described by the specification
    only;
  - the monitoring view and the model catalogue of the manager
    ([getCircuitBreakerStatus], [getAllAvailableModels], [loadModel]);
  - the Redis-backed document cache of [utils/redis-state.ts] and
    [processToolCallContent], which reads and fills it;
  - the API bearer tokens of [security/custom.ts];
  - [web/src/lib/url.ts] and the redirect of the GitHub App installation
    callback.

  Conventions.  Timestamps and counters are [Z]; model parameters
  (temperature, token budgets) are [Q]; JavaScript objects used as
  dictionaries are [gmap string _]; [undefined] is [None].  A function
  that mutates the key-value store returns the new store.  [Date.now()]
  is an explicit argument.  A string is the sequence of the bytes of
  its UTF-8 encoding: the sources search and cut strings with ASCII
  patterns, which act on the encoding as they act on the text, and
  [trim] recognises the white space of Unicode by its encoding. *)

From Stdlib Require Import ZArith QArith Qminmax List String Ascii Bool Lia Sorted.
From stdpp Require Import gmap strings.
Import ListNotations.

Open Scope string_scope.
Open Scope Z_scope.

(** ** JavaScript string primitives used by the sources *)

Module JS.

(** [s.startsWith(p)] *)
Definition startsWith (s p : string) : bool := String.prefix p s.

(** [s.includes(sub)] *)
Fixpoint includes (s sub : string) : bool :=
  String.prefix sub s ||
  match s with
  | EmptyString => false
  | String _ rest => includes rest sub
  end.

(** [s.split(sep)] for a one-character separator; the result is never
    empty ([""] splits into [[""]]). *)
Fixpoint split (sep : ascii) (s : string) : list string :=
  match s with
  | EmptyString => [EmptyString]
  | String c rest =>
      if Ascii.eqb c sep then EmptyString :: split sep rest
      else match split sep rest with
           | [] => [String c EmptyString]
           | h :: t => String c h :: t
           end
  end.

(** [parts.join(sep)] *)
Definition join (sep : string) (parts : list string) : string :=
  String.concat sep parts.

Definition upper_ascii (c : ascii) : ascii :=
  let n := nat_of_ascii c in
  if ((97 <=? n) && (n <=? 122))%nat then ascii_of_nat (n - 32) else c.

(** [s.toUpperCase()] on ASCII text *)
Fixpoint toUpperCase (s : string) : string :=
  match s with
  | EmptyString => EmptyString
  | String c rest => String (upper_ascii c) (toUpperCase rest)
  end.

(** [s.replace(a, b)] for one-character strings: first occurrence only *)
Fixpoint replaceFirst (a b : ascii) (s : string) : string :=
  match s with
  | EmptyString => EmptyString
  | String c rest =>
      if Ascii.eqb c a then String b rest else String c (replaceFirst a b rest)
  end.

(** Truthiness of a string, of a number and of an optional value. *)
Definition truthy_string (s : string) : bool :=
  match s with EmptyString => false | _ => true end.

Definition truthy_Z (z : Z) : bool := negb (z =? 0).

Definition truthy_Q (q : Q) : bool := negb (Qeq_bool q 0).

Definition truthy_opt {A} (t : A -> bool) (o : option A) : bool :=
  match o with Some a => t a | None => false end.

(** [a ?? b] *)
Definition nullish {A} (o : option A) (d : A) : A :=
  match o with Some a => a | None => d end.

(** [a > b] on numbers *)
Definition Qgtb (a b : Q) : bool := negb (Qle_bool a b).

(** The properties of [Object.prototype].  Indexing an object literal
    with one of these names finds the inherited property, a function
    (for [__proto__] the prototype itself): a truthy value that is not a
    string. *)
Definition objectPrototypeKeys : list string :=
  ["constructor"; "__defineGetter__"; "__defineSetter__"; "hasOwnProperty";
   "__lookupGetter__"; "__lookupSetter__"; "isPrototypeOf";
   "propertyIsEnumerable"; "toString"; "valueOf"; "__proto__";
   "toLocaleString"].

(** What indexing an object literal of strings finds. *)
Inductive Property :=
| OwnString (value : string)
| Inherited (key : string).

End JS.

(** ** Circuit breaker (model-manager.ts, Redis-backed revision) *)

Module Breaker.

Inductive CircuitState := CLOSED | OPEN.

Record CircuitBreakerState := mkState {
  state : CircuitState;
  failureCount : Z;
  lastFailureTime : Z;
  openedAt : option Z;
}.

Record ModelManagerConfig := mkConfig {
  circuitBreakerFailureThreshold : Z;
  circuitBreakerTimeoutMs : Z;
  fallbackOrder : list string;
}.

Definition PROVIDER_FALLBACK_ORDER : list string :=
  ["openai"; "anthropic"; "google-genai"; "bedrock"].

Definition DEFAULT_MODEL_MANAGER_CONFIG : ModelManagerConfig :=
  {| circuitBreakerFailureThreshold := 2;
     circuitBreakerTimeoutMs := 180000;
     fallbackOrder := PROVIDER_FALLBACK_ORDER |}.

(** The handle returned by [getRedisStore()]: [None] when Redis is
    unavailable, otherwise the JSON documents it holds under their
    keys.  [setJSON]/[getJSON] round-trip a breaker state unchanged (an
    absent [openedAt] is dropped by [JSON.stringify] and stays absent).
    The 24-hour expiry given to [setJSON] is enforced by the server and
    is not part of these operations: an expired key reads as absent. *)
Abbreviation Redis := (option (gmap string CircuitBreakerState)).

Definition CIRCUIT_BREAKER_PREFIX : string := "circuit_breaker:".

Definition getCircuitBreakerKey (modelKey : string) : string :=
  CIRCUIT_BREAKER_PREFIX +:+ modelKey.

Definition saveCircuitState (redis : Redis) (modelKey : string)
           (st : CircuitBreakerState) : Redis :=
  match redis with
  | None => None
  | Some db => Some (<[getCircuitBreakerKey modelKey := st]> db)
  end.

Definition defaultState : CircuitBreakerState :=
  {| state := CLOSED; failureCount := 0; lastFailureTime := 0;
     openedAt := None |}.

Definition getCircuitState (redis : Redis) (modelKey : string)
  : CircuitBreakerState * Redis :=
  match redis with
  | Some db =>
      match db !! getCircuitBreakerKey modelKey with
      | Some st => (st, redis)
      | None => (defaultState, saveCircuitState redis modelKey defaultState)
      end
  | None => (defaultState, None)
  end.

Definition isCircuitClosed (cfg : ModelManagerConfig) (now : Z)
           (redis : Redis) (modelKey : string) : bool * Redis :=
  let '(st, redis1) := getCircuitState redis modelKey in
  match state st with
  | CLOSED => (true, redis1)
  | OPEN =>
      if JS.truthy_opt JS.truthy_Z (openedAt st) then
        let timeElapsed := now - JS.nullish (openedAt st) 0 in
        if timeElapsed >=? circuitBreakerTimeoutMs cfg then
          (true,
           saveCircuitState redis1 modelKey
             {| state := CLOSED; failureCount := 0;
                lastFailureTime := lastFailureTime st;
                openedAt := None |})
        else (false, redis1)
      else (false, redis1)
  end.

Definition recordSuccess (redis : Redis) (modelKey : string) : Redis :=
  let '(circuitState, redis1) := getCircuitState redis modelKey in
  saveCircuitState redis1 modelKey
    {| state := CLOSED; failureCount := 0;
       lastFailureTime := lastFailureTime circuitState;
       openedAt := None |}.

Definition recordFailure (cfg : ModelManagerConfig) (now : Z)
           (redis : Redis) (modelKey : string) : Redis :=
  let '(circuitState, redis1) := getCircuitState redis modelKey in
  let count := failureCount circuitState + 1 in
  let st1 :=
    {| state := state circuitState; failureCount := count;
       lastFailureTime := now; openedAt := openedAt circuitState |} in
  let st2 :=
    if count >=? circuitBreakerFailureThreshold cfg then
      {| state := OPEN; failureCount := count; lastFailureTime := now;
         openedAt := Some now |}
    else st1 in
  saveCircuitState redis1 modelKey st2.

(** What the next reader of the key sees. *)
Definition currentState (redis : Redis) (modelKey : string)
  : CircuitBreakerState :=
  fst (getCircuitState redis modelKey).

(** The state-mutating operations, as a small command language. *)
Inductive Op :=
| RecordFailure (modelKey : string) (now : Z)
| RecordSuccess (modelKey : string)
| IsCircuitClosed (modelKey : string) (now : Z).

Definition runOp (cfg : ModelManagerConfig) (redis : Redis) (op : Op) : Redis :=
  match op with
  | RecordFailure k now => recordFailure cfg now redis k
  | RecordSuccess k => recordSuccess redis k
  | IsCircuitClosed k now => snd (isCircuitClosed cfg now redis k)
  end.

Definition runOps (cfg : ModelManagerConfig) (ops : list Op) (redis : Redis)
  : Redis :=
  fold_left (runOp cfg) ops redis.

(** A run of [recordFailure] calls on one key, at the given times. *)
Definition recordFailures (cfg : ModelManagerConfig) (times : list Z)
           (redis : Redis) (modelKey : string) : Redis :=
  fold_left (fun r now => recordFailure cfg now r modelKey) times redis.

(** [state == OPEN] implies [openedAt] present; [state == CLOSED]
    implies it absent. *)
Definition state_inv (st : CircuitBreakerState) : Prop :=
  (state st = OPEN -> openedAt st <> None) /\
  (state st = CLOSED -> openedAt st = None).

Definition store_inv (redis : Redis) : Prop :=
  forall db k st, redis = Some db -> db !! k = Some st -> state_inv st.

End Breaker.

(** ** Model resolution (model-manager.ts) *)

Module Resolver.

(** [LLMTask], declared in the shared package; only its members are used
    here, their string values are the parameter [taskValue] below. *)
Inductive LLMTask := PLANNER | PROGRAMMER | REVIEWER | ROUTER | SUMMARIZER.

(** [ModelLoadConfig].  [max_completion_tokens] is not in the interface:
    [getBaseConfigForTask] spreads it into the object for gpt-5 names. *)
Record ModelLoadConfig := mkLoad {
  provider : string;
  modelName : string;
  temperature : option Q;
  maxTokens : option Q;
  thinkingModel : option bool;
  thinkingBudgetTokens : option Q;
  max_completion_tokens : option Q;
}.

(** [GraphConfig["configurable"]], seen through its types: string-valued
    and number-valued properties by property name, the display name of
    [langgraph_auth_user] and the [apiKeys] object. *)
Record Configurable := mkConfigurable {
  strings : gmap string string;
  numbers : gmap string Q;
  userLogin : option string;
  apiKeys : option (gmap string string);
}.

Record GraphConfig := mkGraphConfig { configurable : option Configurable }.

(** [config.configurable?.[name]] *)
Definition stringProp (config : GraphConfig) (name : string) : option string :=
  match configurable config with
  | Some c => strings c !! name
  | None => None
  end.

Definition numberProp (config : GraphConfig) (name : string) : option Q :=
  match configurable config with
  | Some c => numbers c !! name
  | None => None
  end.

Definition THINKING_BUDGET_TOKENS : Q := 5000.

Definition modelKey (c : ModelLoadConfig) : string :=
  provider c +:+ ":" +:+ modelName c.

Section Tables.

(** The string value of each [LLMTask] member and the [modelName] column
    of [TASK_TO_CONFIG_DEFAULTS_MAP]; both live in the shared package. *)
Variable taskValue : LLMTask -> string.
Variable TASK_TO_CONFIG_DEFAULTS_MAP : LLMTask -> string.

(** [process.env] *)
Variable env : gmap string string.

(** [`DEFAULT_${task.toUpperCase()}_MODEL`] *)
Definition defaultEnvKey (task : LLMTask) : string :=
  "DEFAULT_" +:+ JS.toUpperCase (taskValue task) +:+ "_MODEL".

Definition getDefaultModelForTask (task : LLMTask) : string :=
  let envKey := defaultEnvKey task in
  let envValue := env !! envKey in
  if JS.truthy_opt JS.truthy_string envValue then JS.nullish envValue ""
  else TASK_TO_CONFIG_DEFAULTS_MAP task.

Definition providerMap (p : string) : option string :=
  if String.eqb p "anthropic" then Some "ANTHROPIC"
  else if String.eqb p "openai" then Some "OPENAI"
  else if String.eqb p "google-genai" then Some "GOOGLE_GENAI"
  else None.

(** [`FALLBACK_${providerEnv}_${task.toUpperCase()}_MODEL`] *)
Definition fallbackEnvKey (p : string) (task : LLMTask) : string :=
  let providerEnv :=
    if JS.truthy_opt JS.truthy_string (providerMap p)
    then JS.nullish (providerMap p) ""
    else JS.replaceFirst "-" "_" (JS.toUpperCase p) in
  "FALLBACK_" +:+ providerEnv +:+ "_" +:+ JS.toUpperCase (taskValue task)
  +:+ "_MODEL".

Definition getModelFromEnv (p : string) (task : LLMTask) (defaultValue : string)
  : string :=
  let envKey := fallbackEnvKey p task in
  let envValue := env !! envKey in
  if JS.truthy_opt JS.truthy_string envValue then JS.nullish envValue ""
  else defaultValue.

Definition hardcodedDefaults (p : string) (task : LLMTask) : option string :=
  if String.eqb p "anthropic" then
    Some match task with
         | PLANNER => "claude-sonnet-4-5-20250929"
         | PROGRAMMER => "claude-sonnet-4-5-20250929"
         | REVIEWER => "claude-sonnet-4-5-20250929"
         | ROUTER => "claude-3-5-haiku-20241022"
         | SUMMARIZER => "claude-sonnet-4-5-20250929"
         end
  else if String.eqb p "google-genai" then
    Some match task with
         | PLANNER => "gemini-2.5-pro"
         | PROGRAMMER => "gemini-2.5-pro"
         | REVIEWER => "gemini-2.5-flash"
         | ROUTER => "gemini-2.5-flash"
         | SUMMARIZER => "gemini-2.5-pro"
         end
  else if String.eqb p "bedrock" then
    Some "anthropic.claude-3-5-haiku-20241022-v1:0"
  else if String.eqb p "openai" then
    Some match task with
         | PLANNER => "gpt-5-codex"
         | PROGRAMMER => "gpt-5-codex"
         | REVIEWER => "gpt-5-codex"
         | ROUTER => "gpt-5-nano"
         | SUMMARIZER => "gpt-5-mini"
         end
  else None.

Definition getDefaultModelForProvider (p : string) (task : LLMTask)
  : option ModelLoadConfig :=
  let hardcodedValue := hardcodedDefaults p task in
  if negb (JS.truthy_opt JS.truthy_string hardcodedValue) then None
  else
    let name := getModelFromEnv p task (JS.nullish hardcodedValue "") in
    Some {| provider := p; modelName := name; temperature := None;
            maxTokens := None; thinkingModel := None;
            thinkingBudgetTokens := None; max_completion_tokens := None |}.

Definition oldToNewMappings (modelStr : string) : option string :=
  if String.eqb modelStr "bedrock:anthropic.claude-haiku-4-5-20251001-v1:0"
     || String.eqb modelStr "bedrock:anthropic.claude-sonnet-4-5-20250929-v1:0"
     || String.eqb modelStr "bedrock:anthropic.claude-opus-4-5-20251101-v1:0"
     || String.eqb modelStr "bedrock:us.anthropic.claude-haiku-4-5-20251001-v1:0"
     || String.eqb modelStr "bedrock:us.anthropic.claude-sonnet-4-5-20250929-v1:0"
     || String.eqb modelStr "bedrock:us.anthropic.claude-opus-4-5-20251101-v1:0"
  then Some "bedrock:anthropic.claude-3-5-haiku-20241022-v1:0"
  else None.

Definition getBaseConfigForTask (config : GraphConfig) (task : LLMTask)
  : ModelLoadConfig :=
  let selectedProvider := stringProp config "modelProvider" in
  let explicitName := stringProp config (taskValue task +:+ "ModelName") in
  let defaultModelName :=
    if JS.truthy_opt JS.truthy_string selectedProvider
       && negb (JS.truthy_opt JS.truthy_string explicitName)
    then
      match getDefaultModelForProvider (JS.nullish selectedProvider "") task
      with
      | Some providerModel =>
          provider providerModel +:+ ":" +:+ modelName providerModel
      | None => getDefaultModelForTask task
      end
    else getDefaultModelForTask task in
  let taskMap (_ : LLMTask) : string * Q :=
    (JS.nullish explicitName defaultModelName,
     JS.nullish (numberProp config (taskValue task +:+ "Temperature")) 0%Q) in
  let taskConfig := taskMap task in
  let modelStr :=
    if JS.includes (fst taskConfig) "bedrock:" then
      JS.nullish (oldToNewMappings (fst taskConfig)) (fst taskConfig)
    else fst taskConfig in
  let parts := JS.split ":" modelStr in
  let modelProvider := hd "" parts in
  let modelNameParts := tl parts in
  let extended :=
    match modelNameParts with
    | p0 :: _ => String.eqb p0 "extended-thinking"
    | [] => false
    end in
  let modelNameParts' :=
    if extended then tl modelNameParts else modelNameParts in
  let name := JS.join ":" modelNameParts' in
  let thinking :=
    if String.eqb modelProvider "openai" && JS.startsWith name "o" then true
    else extended in
  let requested := JS.nullish (numberProp config "maxTokens") 10000%Q in
  if JS.includes name "gpt-5" then
    {| provider := modelProvider; modelName := name;
       temperature := Some 1%Q; maxTokens := None;
       thinkingModel := Some thinking;
       thinkingBudgetTokens := Some THINKING_BUDGET_TOKENS;
       max_completion_tokens := Some requested |}
  else
    {| provider := modelProvider; modelName := name;
       temperature := Some (snd taskConfig); maxTokens := Some requested;
       thinkingModel := Some thinking;
       thinkingBudgetTokens := Some THINKING_BUDGET_TOKENS;
       max_completion_tokens := None |}.

(** [getModelConfigs] of the Redis-backed revision: the base
    configuration is pushed three times, "the SAME model as fallback for
    retries"; the enumeration of the other providers' models, which the
    earlier in-memory revision kept in the same file still performs, is
    commented out, and the [selectedModel] argument is not read. *)
Definition getModelConfigs {ConfigurableModel : Type} (config : GraphConfig)
           (task : LLMTask) (selectedModel : ConfigurableModel)
  : list ModelLoadConfig :=
  let configs : list ModelLoadConfig := [] in
  let baseConfig := getBaseConfigForTask config task in
  let configs := (configs ++ [baseConfig])%list in
  let configs := (configs ++ [baseConfig])%list in
  let configs := (configs ++ [baseConfig])%list in
  configs.

End Tables.

End Resolver.

(** ** Exceptions *)

(** A computation that returns or throws; the thrown value is carried by
    its message ([error instanceof Error ? error.message : String(error)]). *)
Inductive Result (A : Type) :=
| Ok (value : A)
| Throw (message : string).

Arguments Ok {A} value.
Arguments Throw {A} message.

#[global] Instance Result_bind : MBind Result :=
  fun A B (k : A -> Result B) (r : Result A) =>
    match r with
    | Ok a => k a
    | Throw m => Throw m
    end.

(** ** Provider parameter shaping (model-manager.ts, [initializeModel]) *)

Module Init.

Import Resolver.

Definition MAX_RETRIES : Z := 3.

Record Thinking := mkThinking { budget_tokens : option Q }.

(** The [modelOptions] object literal. *)
Record ModelOptions := mkOptions {
  modelProvider : string;
  max_retries : Z;
  apiKey : option string;
  thinking : option Thinking;
  opt_maxTokens : option Q;
  opt_max_completion_tokens : option Q;
  opt_temperature : option Q;
  top_p : option Q;
}.

Inductive BedrockAuth :=
| BearerToken (token : string)
| Credentials (accessKeyId secretAccessKey : string)
| DefaultChain.

(** The client that is constructed, with the arguments it receives. *)
Inductive ProviderCall :=
| BedrockChat (model region : string) (maxTokens temperature : option Q)
              (auth : BedrockAuth)
| ChatAnthropic (modelName : string) (apiKey : option string)
                (maxTokens : option Q) (topP : Q) (thinking : option Thinking)
| InitChatModel (model : string) (options : ModelOptions).

(** The bound on output tokens that reaches the provider. *)
Definition maxOutputTokens (call : ProviderCall) : option Q :=
  match call with
  | BedrockChat _ _ maxTokens _ _ => maxTokens
  | ChatAnthropic _ _ maxTokens _ _ => maxTokens
  | InitChatModel _ options =>
      match opt_max_completion_tokens options with
      | Some n => Some n
      | None => opt_maxTokens options
      end
  end.

(** The white space that [trim] removes is the WhiteSpace and
    LineTerminator code points of ECMAScript: U+0009 to U+000D, U+0020,
    U+00A0, U+1680, U+2000 to U+200A, U+2028, U+2029, U+202F, U+205F,
    U+3000 and U+FEFF.  [space_width s] is the number of bytes that such
    a code point takes at the head of [s], and 0 when [s] starts with
    none. *)
Definition byte_in (lo hi : nat) (c : ascii) : bool :=
  ((lo <=? nat_of_ascii c) && (nat_of_ascii c <=? hi))%nat.

Definition space_width (s : string) : nat :=
  match s with
  | EmptyString => 0%nat
  | String a rest =>
      if byte_in 9 13 a || byte_in 32 32 a then 1%nat
      else
        match rest with
        | EmptyString => 0%nat
        | String b rest' =>
            if byte_in 194 194 a && byte_in 160 160 b then 2%nat
            else
              match rest' with
              | EmptyString => 0%nat
              | String c _ =>
                  if byte_in 225 225 a && byte_in 154 154 b
                     && byte_in 128 128 c
                     || byte_in 226 226 a && byte_in 128 128 b
                        && (byte_in 128 138 c || byte_in 168 169 c
                            || byte_in 175 175 c)
                     || byte_in 226 226 a && byte_in 129 129 b
                        && byte_in 159 159 c
                     || byte_in 227 227 a && byte_in 128 128 b
                        && byte_in 128 128 c
                     || byte_in 239 239 a && byte_in 187 187 b
                        && byte_in 191 191 c
                  then 3%nat else 0%nat
              end
        end
  end.

(** Whether [s], after its first [skip] bytes (the rest of a code point
    already recognised), consists of white space only. *)
Fixpoint blank_from (skip : nat) (s : string) : bool :=
  match s with
  | EmptyString => true
  | String _ rest =>
      match skip with
      | S k => blank_from k rest
      | O =>
          match space_width s with
          | S k => blank_from k rest
          | O => false
          end
      end
  end.

(** [s.trim() === ""] *)
Definition blank (s : string) : bool := blank_from 0 s.

(** [s.trim() !== ""] *)
Definition has_visible_char (s : string) : bool := negb (blank s).

(** [a || b] on optional strings read from the environment *)
Definition or_string (a : option string) (b : string) : string :=
  if JS.truthy_opt JS.truthy_string a then JS.nullish a "" else b.

Definition providerToApiKey (providerName : string)
           (keys : gmap string string) : Result (option string) :=
  if String.eqb providerName "openai" then Ok (keys !! "openaiApiKey")
  else if String.eqb providerName "anthropic"
       then Ok (keys !! "anthropicApiKey")
  else if String.eqb providerName "google-genai"
       then Ok (keys !! "googleApiKey")
  else if String.eqb providerName "bedrock" then Ok (Some "")
  else Throw ("Unknown provider: " +:+ providerName).

Section Environment.

Variable env : gmap string string.

(** From the shared package. *)
Variable isAllowedUser : string -> bool.
Variable decryptSecret : string -> string -> Result string.
Variable API_KEY_REQUIRED_MESSAGE : string.

Definition envApiKeyMap (p : string) : option string :=
  if String.eqb p "openai" then Some (or_string (env !! "OPENAI_API_KEY") "")
  else if String.eqb p "anthropic"
       then Some (or_string (env !! "ANTHROPIC_API_KEY") "")
  else if String.eqb p "google-genai"
       then Some (or_string (env !! "GOOGLE_API_KEY")
                            (or_string (env !! "GEMINI_API_KEY") ""))
  else if String.eqb p "bedrock" then Some ""
  else None.

Definition getUserApiKey (graphConfig : GraphConfig) (p : string)
  : Result (option string) :=
  let login :=
    match configurable graphConfig with
    | Some c => userLogin c
    | None => None
    end in
  let secretsEncryptionKey := env !! "SECRETS_ENCRYPTION_KEY" in
  if negb (JS.truthy_opt JS.truthy_string secretsEncryptionKey) then
    Throw "SECRETS_ENCRYPTION_KEY environment variable is required"
  else if negb (JS.truthy_opt JS.truthy_string login) then
    Throw "User login not found in config"
  else if isAllowedUser (JS.nullish login "") then Ok None
  else
    let envApiKey := envApiKeyMap p in
    if JS.truthy_opt JS.truthy_string envApiKey
       && has_visible_char (JS.nullish envApiKey "")
    then Ok envApiKey
    else
      match
        match configurable graphConfig with
        | Some c => apiKeys c
        | None => None
        end
      with
      | None => Throw API_KEY_REQUIRED_MESSAGE
      | Some keys =>
          let missingProviderKeyMessage :=
            "No API key found for provider: " +:+ p +:+
            ". Please add one in the settings page or set the environment variable ("
            +:+ (if String.eqb p "openai" then "OPENAI_API_KEY"
                 else if String.eqb p "anthropic" then "ANTHROPIC_API_KEY"
                 else "GOOGLE_API_KEY") +:+ ")." in
          providerApiKey ← providerToApiKey p keys;
          if negb (JS.truthy_opt JS.truthy_string providerApiKey) then
            Throw missingProviderKeyMessage
          else
            key ← decryptSecret (JS.nullish providerApiKey "")
                                (JS.nullish secretsEncryptionKey "");
            if negb (JS.truthy_string key) then Throw missingProviderKeyMessage
            else Ok (Some key)
      end.

(** [bedrockModelMappings[name]]: the entry of the object literal, or,
    for a name of [JS.objectPrototypeKeys], the property that the
    literal inherits. *)
Definition bedrockModelMappings (regionPrefix name : string)
  : option JS.Property :=
  if String.eqb name "anthropic.claude-haiku-4-5-20251001-v1:0"
     || String.eqb name "anthropic.claude-sonnet-4-5-20250929-v1:0"
     || String.eqb name "anthropic.claude-opus-4-5-20251101-v1:0"
     || String.eqb name "us.anthropic.claude-haiku-4-5-20251001-v1:0"
     || String.eqb name "us.anthropic.claude-sonnet-4-5-20250929-v1:0"
     || String.eqb name "us.anthropic.claude-opus-4-5-20251101-v1:0"
     || String.eqb name "anthropic.claude-3-5-haiku-20241022-v1:0"
     || String.eqb name "anthropic.claude-3-5-sonnet-20240620-v1:0"
  then Some (JS.OwnString
               (regionPrefix +:+ ".anthropic.claude-3-5-haiku-20241022-v1:0"))
  else if existsb (String.eqb name) JS.objectPrototypeKeys
       then Some (JS.Inherited name)
       else None.

(** [finalMaxTokens] *)
Definition finalMaxTokens (config : ModelLoadConfig) : Q :=
  let requested := JS.nullish (maxTokens config) 10000%Q in
  if JS.includes (modelName config) "claude-3-5-haiku" then
    if JS.Qgtb requested 8192%Q then 8192%Q else requested
  else requested.

(** The [modelOptions] literal, after the clean-up that follows it: for
    Anthropic [top_p = 0] and [temperature] deleted; for the others the
    removal of a [top_p] of -1, which the literal never carries. *)
Definition modelOptionsFor (config : ModelLoadConfig) (key : option string)
  : ModelOptions :=
  let thinkingMaxTokens :=
    if JS.truthy_opt JS.truthy_Q (thinkingBudgetTokens config)
    then Some (JS.nullish (thinkingBudgetTokens config) 0%Q * 4)%Q
    else None in
  let correctedModelName :=
    if String.eqb (modelName config) "claude-sonnet-4-5-20251101"
    then "claude-sonnet-4-5-20250929" else modelName config in
  let isAnthropic := String.eqb (provider config) "anthropic" in
  let isThinking := JS.nullish (thinkingModel config) false in
  let literal :=
    if isThinking && isAnthropic then
      {| modelProvider := provider config; max_retries := MAX_RETRIES;
         apiKey := if JS.truthy_opt JS.truthy_string key then key else None;
         thinking := Some {| budget_tokens := thinkingBudgetTokens config |};
         opt_maxTokens := thinkingMaxTokens;
         opt_max_completion_tokens := None;
         opt_temperature := None; top_p := None |}
    else if JS.includes correctedModelName "gpt-5" then
      {| modelProvider := provider config; max_retries := MAX_RETRIES;
         apiKey := if JS.truthy_opt JS.truthy_string key then key else None;
         thinking := None;
         opt_maxTokens := None;
         opt_max_completion_tokens := Some (finalMaxTokens config);
         opt_temperature := Some 1%Q; top_p := None |}
    else
      {| modelProvider := provider config; max_retries := MAX_RETRIES;
         apiKey := if JS.truthy_opt JS.truthy_string key then key else None;
         thinking := None;
         opt_maxTokens := Some (finalMaxTokens config);
         opt_max_completion_tokens := None;
         opt_temperature :=
           if isAnthropic then None
           else if negb isThinking then temperature config else None;
         top_p := None |} in
  if isAnthropic then
    {| modelProvider := modelProvider literal;
       max_retries := max_retries literal;
       apiKey := apiKey literal; thinking := thinking literal;
       opt_maxTokens := opt_maxTokens literal;
       opt_max_completion_tokens := opt_max_completion_tokens literal;
       opt_temperature := None; top_p := Some 0%Q |}
  else literal.

(** [new BedrockChat(bedrockConfig)] reads the provider off its [model]
    with [split]; when the mapping has handed it an inherited property
    instead of a string, the constructor fails with a [TypeError].
    [BedrockChat_TypeError key] is the message of that error. *)
Variable BedrockChat_TypeError : string -> string.

Definition initializeModel (config : ModelLoadConfig)
           (graphConfig : GraphConfig) : Result ProviderCall :=
  let correctedModelName :=
    if String.eqb (modelName config) "claude-sonnet-4-5-20251101"
    then "claude-sonnet-4-5-20250929" else modelName config in
  key ← getUserApiKey graphConfig (provider config);
  let modelOptions := modelOptionsFor config key in
  if String.eqb (provider config) "bedrock" then
    let region := or_string (env !! "AWS_REGION") "us-east-1" in
    let regionPrefix :=
      if JS.startsWith region "us" then "us" else hd "" (JS.split "-" region) in
    let hasExplicitCredentials :=
      JS.truthy_opt JS.truthy_string (env !! "AWS_ACCESS_KEY_ID")
      && JS.truthy_opt JS.truthy_string (env !! "AWS_SECRET_ACCESS_KEY") in
    let auth :=
      if JS.truthy_opt JS.truthy_string (env !! "AWS_BEARER_TOKEN_BEDROCK")
      then BearerToken (JS.nullish (env !! "AWS_BEARER_TOKEN_BEDROCK") "")
      else if hasExplicitCredentials
           then Credentials (JS.nullish (env !! "AWS_ACCESS_KEY_ID") "")
                            (JS.nullish (env !! "AWS_SECRET_ACCESS_KEY") "")
           else DefaultChain in
    let client finalModelName :=
      BedrockChat finalModelName region (opt_maxTokens modelOptions)
                  (opt_temperature modelOptions) auth in
    match bedrockModelMappings regionPrefix correctedModelName with
    | Some (JS.OwnString mapped) => Ok (client mapped)
    | Some (JS.Inherited key) => Throw (BedrockChat_TypeError key)
    | None =>
        Ok (client
              (if JS.startsWith correctedModelName "anthropic.claude"
                  && negb (JS.startsWith correctedModelName "us.anthropic."
                           || JS.startsWith correctedModelName "eu.anthropic."
                           || JS.startsWith correctedModelName "ap.anthropic.")
               then regionPrefix +:+ "." +:+ correctedModelName
               else correctedModelName))
    end
  else if String.eqb (provider config) "anthropic" then
    Ok (ChatAnthropic correctedModelName
                      (if JS.truthy_opt JS.truthy_string key then key else None)
                      (opt_maxTokens modelOptions) 0%Q
                      (thinking modelOptions))
  else Ok (InitChatModel correctedModelName modelOptions).

End Environment.

End Init.

(** ** Fallback runner ([FallbackRunnable]) *)

Module Runner.

Import Breaker Resolver Init.

Record ToolCall := mkToolCall {
  tc_name : string;
  tc_id : option string;
}.

(** A message as the helpers sniff it: the properties [role], [type],
    [constructor.name], membership in the [ToolMessage] class, the result
    of [_getType()] when that property is a function (it may throw), and
    the payload. *)
Record Message := mkMessage {
  msg_role : option string;
  msg_type : option string;
  msg_constructor : option string;
  msg_instanceof_ToolMessage : bool;
  msg_getType : option (Result string);
  tool_calls : option (list ToolCall);
  tool_call_id : option string;
  msg_name : option string;
  content : string;
}.

(** [BaseLanguageModelInput]: an array of messages, or something else. *)
Inductive Input :=
| Messages (messages : list Message)
| Prompt (text : string).

Definition eq_opt (o : option string) (s : string) : bool :=
  match o with Some x => String.eqb x s | None => false end.

Definition nonEmptyCalls (message : Message) : bool :=
  match tool_calls message with
  | Some (_ :: _) => true
  | _ => false
  end.

Definition isAIMessageLike (message : Message) : bool :=
  if eq_opt (msg_role message) "assistant" || eq_opt (msg_type message) "ai"
  then true
  else if eq_opt (msg_constructor message) "AIMessage" then true
  else if nonEmptyCalls message then true
  else match msg_getType message with
       | Some (Ok t) => String.eqb t "ai"
       | Some (Throw _) => false
       | None => false
       end.

Definition isToolMessageLike (message : Message) : bool :=
  if msg_instanceof_ToolMessage message then true
  else eq_opt (msg_role message) "tool" || eq_opt (msg_type message) "tool".

Definition interruptedNotice : string :=
  "Error: Tool execution interrupted or result missing. Please retry.".

(** [new ToolMessage({ tool_call_id, content, name })] *)
Definition dummyToolResult (toolCall : ToolCall) : Message :=
  {| msg_role := None; msg_type := None;
     msg_constructor := Some "ToolMessage";
     msg_instanceof_ToolMessage := true;
     msg_getType := Some (Ok "tool");
     tool_calls := None;
     tool_call_id := tc_id toolCall;
     msg_name := Some (tc_name toolCall);
     content := interruptedNotice |}.

(** The tool calls of [message] for which the loop body pushes a dummy
    result, given [messages[i + 1]]. *)
Definition danglingToolCalls (message : Message) (nextMessage : option Message)
  : list ToolCall :=
  if isAIMessageLike message && nonEmptyCalls message then
    let missingNextMessage :=
      match nextMessage with None => true | Some _ => false end in
    let nextMessageIsNotTool :=
      match nextMessage with
      | Some next => negb (isToolMessageLike next)
      | None => false
      end in
    if missingNextMessage || nextMessageIsNotTool
    then JS.nullish (tool_calls message) []
    else []
  else [].

(** The loop of [sanitizeHistory] over a segment of the array; [after] is
    the element that follows the segment ([None] at the end of the array,
    where [messages[i + 1]] is [undefined]). *)
Fixpoint sanitizeLoop (messages : list Message) (after : option Message)
  : list Message :=
  match messages with
  | [] => []
  | message :: rest =>
      let nextMessage :=
        match rest with
        | next :: _ => Some next
        | [] => after
        end in
      (message
       :: List.map dummyToolResult (danglingToolCalls message nextMessage))
      ++ sanitizeLoop rest after
  end%list.

Definition sanitizeHistory (input : Input) : Input :=
  match input with
  | Messages messages => Messages (sanitizeLoop messages None)
  | Prompt text => Prompt text
  end.

(** [useProviderMessages] *)
Definition useProviderMessages (initialInput : Input)
           (providerMessages : option (gmap string (list Message)))
           (p : string) : Input :=
  match providerMessages with
  | Some table =>
      if JS.truthy_string p then
        match table !! p with
        | Some messages => Messages messages
        | None => initialInput
        end
      else initialInput
  | None => initialInput
  end.

Definition isAuthError (errorMessage : string) : bool :=
  JS.includes errorMessage "401"
  || JS.includes errorMessage "Incorrect API key"
  || JS.includes errorMessage "API key"
  || JS.includes errorMessage "authentication"
  || JS.includes errorMessage "Invalid API key".

Definition isConfigError (errorMessage : string) : bool :=
  JS.includes errorMessage "cannot be set to"
  || JS.includes errorMessage "invalid_request_error"
  || JS.includes errorMessage "Invalid parameter".

(** What [invoke] raises. *)
Inductive ErrorKind :=
| AuthenticationFailed   (* [new Error("Authentication failed for ...")] *)
| Rethrown               (* [throw error]: the provider's own error *)
| Exhausted              (* [new Error("All fallback models exhausted ...")] *)
| NoPrimaryModel.        (* thrown by [getPrimaryModel] *)

Inductive Outcome (Answer : Type) :=
| Returned (result : Answer)
| Raised (kind : ErrorKind) (message : string).

Arguments Returned {Answer} result.
Arguments Raised {Answer} kind message.

(** An error that is neither an authentication nor a configuration
    error: the loop's "recoverable error (timeout, server error)". *)
Definition isTransient (errorMessage : string) : bool :=
  negb (isAuthError errorMessage) && negb (isConfigError errorMessage).

(** The result of a run: what the caller gets, the store afterwards and
    the attempts made, in order: the loop indices whose [try] block was
    entered, each with its candidate. *)
Record Run (Answer : Type) := mkRun {
  outcome : Outcome Answer;
  redisAfter : Redis;
  attempts : list (nat * ModelLoadConfig);
}.

Arguments mkRun {Answer}.
Arguments outcome {Answer}.
Arguments redisAfter {Answer}.
Arguments attempts {Answer}.

Section Invoke.

Context {Answer ConfigurableModel : Type}.

(** The manager: its configuration, the tables of the resolver and the
    environment. *)
Variable cfg : ModelManagerConfig.
Variable taskValue : LLMTask -> string.
Variable TASK_TO_CONFIG_DEFAULTS_MAP : LLMTask -> string.
Variable env : gmap string string.
Variable isAllowedUser : string -> bool.
Variable decryptSecret : string -> string -> Result string.
Variable API_KEY_REQUIRED_MESSAGE : string.
Variable BedrockChat_TypeError : string -> string.

(** The runnable: constructor arguments and the ambient graph
    configuration returned by [getConfig()]. *)
Variable thisConfig : GraphConfig.
Variable task : LLMTask.
Variable providerMessages : option (gmap string (list Message)).
Variable getPrimaryModel : Result ConfigurableModel.
Variable graphConfig : GraphConfig.

(** The provider: what the [i]-th loop iteration gets back when it calls
    the initialised client on the given input. *)
Variable callProvider : nat -> ProviderCall -> Input -> Result Answer.

(** [Date.now()] as read by the breaker check and by the failure record
    of iteration [i]. *)
Variable nowAtCheck : nat -> Z.
Variable nowAtFailure : nat -> Z.

(** The body of the [try] block. *)
Definition tryBlock (i : nat) (modelConfig : ModelLoadConfig) (input : Input)
  : Result Answer :=
  model ← initializeModel env isAllowedUser decryptSecret
            API_KEY_REQUIRED_MESSAGE
              BedrockChat_TypeError modelConfig graphConfig;
  callProvider i model
    (useProviderMessages input providerMessages (provider modelConfig)).

Definition authenticationMessage (modelConfig : ModelLoadConfig)
           (errorMessage : string) : string :=
  "Authentication failed for " +:+ provider modelConfig +:+
  ". Please verify your API key is correct in Settings. Error: "
  +:+ errorMessage.

Definition exhaustedMessage (lastError : option string) : string :=
  "All fallback models exhausted for task " +:+ taskValue task +:+
  ". Last error: " +:+ JS.nullish lastError "undefined".

(** The outcome of a run that ends with the attempt [second] on
    candidate [c]: its result, the authentication error, or what
    [otherwise] makes of another error. *)
Definition secondAttemptOutcome (c : ModelLoadConfig) (second : Result Answer)
           (otherwise : string -> Outcome Answer) : Outcome Answer :=
  match second with
  | Ok result => Returned result
  | Throw e =>
      if isAuthError e
      then Raised AuthenticationFailed (authenticationMessage c e)
      else otherwise e
  end.

(** The [for] loop of the retrying revision, from index [i] on;
    [remaining] is [modelConfigs.slice(i)] and [total] is
    [modelConfigs.length]. *)
Fixpoint fallbackLoop (total : nat) (input : Input) (i : nat)
         (remaining : list ModelLoadConfig) (redis : Redis)
         (lastError : option string)
         (tried : list (nat * ModelLoadConfig)) : Run Answer :=
  match remaining with
  | [] => mkRun (Raised Exhausted (exhaustedMessage lastError)) redis tried
  | modelConfig :: rest =>
      let key := modelKey modelConfig in
      let '(closed, redis1) := isCircuitClosed cfg (nowAtCheck i) redis key in
      let tried' := tried ++ [(i, modelConfig)] in
      if negb closed
      then fallbackLoop total input (S i) rest redis1 lastError tried
      else
        match tryBlock i modelConfig input with
        | Ok result =>
            mkRun (Returned result) (recordSuccess redis1 key) tried'
        | Throw errorMessage =>
            if isAuthError errorMessage then
              mkRun (Raised AuthenticationFailed
                       (authenticationMessage modelConfig errorMessage))
                    redis1 tried'
            else if negb (isConfigError errorMessage)
                    && (i <? total - 1)%nat then
              fallbackLoop total input (S i) rest
                (recordFailure cfg (nowAtFailure i) redis1 key)
                (Some errorMessage) tried'
            else mkRun (Raised Rethrown errorMessage) redis1 tried'
        end
  end%list.

(** The [for] loop of the fail-fast revision (runtime-fallback.ts). *)
Fixpoint failFastLoop (input : Input) (i : nat)
         (remaining : list ModelLoadConfig) (redis : Redis)
         (lastError : option string)
         (tried : list (nat * ModelLoadConfig)) : Run Answer :=
  match remaining with
  | [] => mkRun (Raised Exhausted (exhaustedMessage lastError)) redis tried
  | modelConfig :: rest =>
      let key := modelKey modelConfig in
      let '(closed, redis1) := isCircuitClosed cfg (nowAtCheck i) redis key in
      let tried' := tried ++ [(i, modelConfig)] in
      if negb closed
      then failFastLoop input (S i) rest redis1 lastError tried
      else
        match tryBlock i modelConfig input with
        | Ok result =>
            mkRun (Returned result) (recordSuccess redis1 key) tried'
        | Throw errorMessage =>
            if isAuthError errorMessage then
              mkRun (Raised AuthenticationFailed
                       (authenticationMessage modelConfig errorMessage))
                    redis1 tried'
            else mkRun (Raised Rethrown errorMessage) redis1 tried'
        end
  end%list.

(** [invoke], retrying revision: the history is sanitised first. *)
Definition invoke (input : Input) (redis : Redis) : Run Answer :=
  let sanitizedInput := sanitizeHistory input in
  match getPrimaryModel with
  | Throw message => mkRun (Raised NoPrimaryModel message) redis []
  | Ok primaryModel =>
      let modelConfigs :=
        getModelConfigs taskValue TASK_TO_CONFIG_DEFAULTS_MAP env
                        thisConfig task primaryModel in
      fallbackLoop (List.length modelConfigs) sanitizedInput 0 modelConfigs
                   redis None []
  end.

(** [invoke], fail-fast revision. *)
Definition invokeFailFast (input : Input) (redis : Redis) : Run Answer :=
  match getPrimaryModel with
  | Throw message => mkRun (Raised NoPrimaryModel message) redis []
  | Ok primaryModel =>
      let modelConfigs :=
        getModelConfigs taskValue TASK_TO_CONFIG_DEFAULTS_MAP env
                        thisConfig task primaryModel in
      failFastLoop input 0 modelConfigs redis None []
  end.

End Invoke.

End Runner.

(** ** History token monitor and compactor *)

Module Compaction.

(** Modelled from the spec: the roles of a conversation entry (section 3,
    ConversationLog).  Missing are the sources of the monitor and of the
    compactor: [utils/tokens.ts] and the [summarize-history] node that
    the documentation names. *)
Inductive Role := System | User | Assistant | Tool.

(** Modelled from the spec: a message entry with its role, content and
    optional tool-call linkage; its index is its position in the log. *)
Record Entry := mkEntry {
  role : Role;
  content : string;
  toolCall : option string;
}.

(** Modelled from the spec: the conversation log, an ordered sequence of
    entries with a running token count and the "last compaction index"
    marker (absent before the first compaction). *)
Record ConversationLog := mkLog {
  entries : list Entry;
  tokenCount : Z;
  lastCompaction : option nat;
}.

(** Modelled from the spec: the default ceiling of 80,000 tokens. *)
Definition MAX_INTERNAL_TOKENS : Z := 80000.

(** Modelled from the spec: the K = 20 most recent entries are never
    eligible for compaction. *)
Definition KEEP_RECENT : nat := 20.

(** Modelled from the spec: the assistant-role notice that history was
    condensed due to space constraints. *)
Definition condensedNotice : Entry :=
  {| role := Assistant;
     content := "Conversation history was condensed due to space constraints.";
     toolCall := None |}.

(** Modelled from the spec: the tool-role entry carrying the summary. *)
Definition summaryEntry (summary : string) : Entry :=
  {| role := Tool; content := summary; toolCall := None |}.

(** Modelled from the spec: the first position strictly after the
    previous compaction marker. *)
Definition spanStart (log : ConversationLog) : nat :=
  match lastCompaction log with
  | Some marker => S marker
  | None => 0%nat
  end.

(** Modelled from the spec: the first position of the last
    [KEEP_RECENT] entries. *)
Definition spanStop (log : ConversationLog) : nat :=
  (List.length (entries log) - KEEP_RECENT)%nat.

(** Modelled from the spec: the contiguous span of entries strictly
    after the marker and strictly before the last [KEEP_RECENT]. *)
Definition eligibleSpan (log : ConversationLog) : list Entry :=
  firstn (spanStop log - spanStart log) (skipn (spanStart log) (entries log)).

(** Modelled from the spec: the last [KEEP_RECENT] entries of a log. *)
Definition recentEntries (log : ConversationLog) : list Entry :=
  skipn (List.length (entries log) - KEEP_RECENT) (entries log).

(** Modelled from the spec: what a call of [monitorAndCompact] yields,
    the log and the spans it sent to the summarizer task. *)
Record Compacted := mkCompacted {
  result : ConversationLog;
  summarizerCalls : list (list Entry);
}.

Section Monitor.

(** The ceiling is configuration; the summarizer task and the token
    estimate of a sequence of entries are collaborators. *)
Variable threshold : Z.
Variable summarize : list Entry -> string.
Variable estimate : list Entry -> Z.

(** Modelled from the spec: [monitorAndCompact] (section 4.4).  Nothing
    happens below the ceiling, nor when the eligible span is empty;
    otherwise the summarizer is called once on the span, the span is
    replaced by the two synthetic entries, the marker moves to the
    second of them and the token count is estimated anew. *)
Definition monitorAndCompact (log : ConversationLog) : Compacted :=
  if tokenCount log <? threshold then mkCompacted log []
  else
    match eligibleSpan log with
    | [] => mkCompacted log []
    | span =>
        let summary := summarize span in
        let entries' :=
          (firstn (spanStart log) (entries log)
           ++ [condensedNotice; summaryEntry summary]
           ++ skipn (spanStart log + List.length span) (entries log))%list in
        mkCompacted
          {| entries := entries';
             tokenCount := estimate entries';
             lastCompaction := Some (S (spanStart log)) |}
          [span]
    end.

End Monitor.

End Compaction.

(** ** Sample inputs *)

Module Samples.

Import Resolver Init Runner.

(** Task names as they appear in the [DEFAULT_<TASK>_MODEL] variables. *)
Definition taskValue (task : LLMTask) : string :=
  match task with
  | PLANNER => "planner"
  | PROGRAMMER => "programmer"
  | REVIEWER => "reviewer"
  | ROUTER => "router"
  | SUMMARIZER => "summarizer"
  end.

(** The default that [documentacion/archivos-modelos-backend.md] lists
    for the planner and the programmer, taken for every task. *)
Definition defaults (task : LLMTask) : string :=
  "anthropic:claude-sonnet-4-5-20250929".

Definition configurableWith (names : gmap string string) (login : string)
  : GraphConfig :=
  {| configurable :=
       Some {| strings := names; numbers := ∅; userLogin := Some login;
               apiKeys := None |} |}.

(** A session that selected Claude 3.5 Haiku with extended thinking for
    the planner. *)
Definition thinkingHaikuSession : GraphConfig :=
  configurableWith
    {["plannerModelName" := "anthropic:extended-thinking:claude-3-5-haiku-latest"]}
    "alice".

Definition plainSession : GraphConfig := configurableWith ∅ "alice".

Definition secretsEnv : gmap string string :=
  {["SECRETS_ENCRYPTION_KEY" := "k"]}.

Definition everyoneAllowed (login : string) : bool := true.

Definition decryptIdentity (secret key : string) : Result string := Ok secret.

(** The [TypeError] of [new BedrockChat] on a [model] that is not a
    string. *)
Definition typeError (key : string) : string :=
  "this.model.split is not a function".

Definition assistantWithCalls (calls : list ToolCall) : Message :=
  {| msg_role := Some "assistant"; msg_type := None; msg_constructor := None;
     msg_instanceof_ToolMessage := false; msg_getType := None;
     tool_calls := Some calls; tool_call_id := None; msg_name := None;
     content := "" |}.

Definition userMessage (text : string) : Message :=
  {| msg_role := Some "user"; msg_type := None; msg_constructor := None;
     msg_instanceof_ToolMessage := false; msg_getType := None;
     tool_calls := None; tool_call_id := None; msg_name := None;
     content := text |}.

(** Providers that always time out, or always reject the credentials. *)
Definition timingOut (i : nat) (call : ProviderCall) (input : Input)
  : Result string := Throw "Request timed out".


(** A clock that advances by five milliseconds between the reads. *)
Definition checkClock (i : nat) : Z := 1000 + 10 * Z.of_nat i.
Definition failureClock (i : nat) : Z := 1005 + 10 * Z.of_nat i.

(** A manager constructed with a threshold of three failures. *)
Definition patientManager : Breaker.ModelManagerConfig :=
  {| Breaker.circuitBreakerFailureThreshold := 3;
     Breaker.circuitBreakerTimeoutMs := 180000;
     Breaker.fallbackOrder := Breaker.PROVIDER_FALLBACK_ORDER |}.

(** [invoke] of the planner's runnable in a session without overrides. *)
Definition plannerInvoke (cfg : Breaker.ModelManagerConfig)
           (provider : nat -> ProviderCall -> Input -> Result string)
  : Input -> option (gmap string Breaker.CircuitBreakerState) -> Run string :=
  invoke cfg taskValue defaults secretsEnv everyoneAllowed decryptIdentity
         "API key required"
           typeError plainSession PLANNER None (Ok tt) plainSession
         provider checkClock failureClock.

Definition plannerInvokeFailFast (cfg : Breaker.ModelManagerConfig)
           (provider : nat -> ProviderCall -> Input -> Result string)
  : Input -> option (gmap string Breaker.CircuitBreakerState) -> Run string :=
  invokeFailFast cfg taskValue defaults secretsEnv everyoneAllowed
         decryptIdentity "API key required"
           typeError plainSession PLANNER None (Ok tt)
         plainSession provider checkClock.

Definition plannerBase : ModelLoadConfig :=
  getBaseConfigForTask taskValue defaults secretsEnv plainSession PLANNER.

(** A log of 120 distinct user entries, 80,001 tokens, never compacted. *)
Definition longLog : Compaction.ConversationLog :=
  {| Compaction.entries :=
       List.map (fun i => Compaction.mkEntry Compaction.User
                            (String (ascii_of_nat i) EmptyString) None)
                (seq 1 120);
     Compaction.tokenCount := 80001;
     Compaction.lastCompaction := None |}.

Definition shellCall : ToolCall := {| tc_name := "shell"; tc_id := Some "call_1" |}.
Definition grepCall : ToolCall := {| tc_name := "grep"; tc_id := Some "call_2" |}.

End Samples.

(** ** Further string primitives *)

Module Text.

(** [s.slice(n)] *)
Fixpoint slice (n : nat) (s : string) : string :=
  match n, s with
  | O, _ => s
  | S n', String _ rest => slice n' rest
  | S _, EmptyString => EmptyString
  end.

(** [s.replace(pattern, replacement)] for a string pattern: the first
    occurrence only; the replacement strings of the sources carry no
    [$] pattern. *)
Fixpoint replace (pattern replacement s : string) : string :=
  if String.prefix pattern s
  then replacement +:+ slice (String.length pattern) s
  else match s with
       | EmptyString => EmptyString
       | String c rest => String c (replace pattern replacement rest)
       end.

(** [s.trimStart()], [s.trimEnd()] and [s.trim()]: the white space of
    [Init.space_width] is removed from the start, from the end and from
    both. *)
Fixpoint trimStart_from (skip : nat) (s : string) : string :=
  match s with
  | EmptyString => EmptyString
  | String _ rest =>
      match skip with
      | S k => trimStart_from k rest
      | O =>
          match Init.space_width s with
          | S k => trimStart_from k rest
          | O => s
          end
      end
  end.

Definition trimStart (s : string) : string := trimStart_from 0 s.

Fixpoint trimEnd (s : string) : string :=
  if Init.blank s then EmptyString
  else match s with
       | EmptyString => EmptyString
       | String c rest => String c (trimEnd rest)
       end.

Definition trim (s : string) : string := trimEnd (trimStart s).

(** [s.endsWith(suffix)] *)
Fixpoint endsWith (s suffix : string) : bool :=
  String.eqb s suffix ||
  match s with
  | EmptyString => false
  | String _ rest => endsWith rest suffix
  end.

(** [s.slice(0, s.length - n)] *)
Definition dropEnd (n : nat) (s : string) : string :=
  String.substring 0 (String.length s - n) s.

End Text.

(** ** Monitoring and model catalogue (model-manager.ts) *)

Module Monitoring.

Import Breaker Resolver Init.

(** [redisStore.keys(`${prefix}*`)] for a prefix without glob
    characters: the keys that start with it.  Redis does not specify
    their order; the order of the map is taken. *)
Definition keys (db : gmap string CircuitBreakerState) (prefix : string)
  : list string :=
  List.filter (fun key => JS.startsWith key prefix)
              (List.map fst (map_to_list db)).

Definition getCircuitBreakerStatus (redis : Redis)
  : gmap string CircuitBreakerState :=
  match redis with
  | None => ∅
  | Some db =>
      fold_left
        (fun statusMap key =>
           let modelKey := Text.replace CIRCUIT_BREAKER_PREFIX "" key in
           match db !! key with
           | Some st => <[modelKey := st]> statusMap
           | None => statusMap
           end)
        (keys db CIRCUIT_BREAKER_PREFIX) ∅
  end.

Section Tables.

Variable taskValue : LLMTask -> string.
Variable TASK_TO_CONFIG_DEFAULTS_MAP : LLMTask -> string.
Variable env : gmap string string.
Variable isAllowedUser : string -> bool.
Variable decryptSecret : string -> string -> Result string.
Variable API_KEY_REQUIRED_MESSAGE : string.
Variable BedrockChat_TypeError : string -> string.

Definition getModelNameForTask (config : GraphConfig) (task : LLMTask)
  : string :=
  let defaultModelName :=
    getDefaultModelForTask taskValue TASK_TO_CONFIG_DEFAULTS_MAP env task in
  JS.nullish (stringProp config (taskValue task +:+ "ModelName"))
             defaultModelName.

(** [getAllAvailableModels]; [currentProvider] is not read. *)
Definition getAllAvailableModels (task : LLMTask)
           (currentProvider : option string) : list ModelLoadConfig :=
  fold_left
    (fun models p =>
       match getDefaultModelForProvider taskValue env p task with
       | Some defaultModel => (models ++ [defaultModel])%list
       | None => models
       end)
    ["anthropic"; "openai"; "google-genai"] [].

(** [loadModel]: the resolved base configuration, initialised. *)
Definition loadModel (graphConfig : GraphConfig) (task : LLMTask)
  : Result ProviderCall :=
  let baseConfig :=
    getBaseConfigForTask taskValue TASK_TO_CONFIG_DEFAULTS_MAP env
                         graphConfig task in
  initializeModel env isAllowedUser decryptSecret API_KEY_REQUIRED_MESSAGE
    BedrockChat_TypeError
                  baseConfig graphConfig.

End Tables.

End Monitoring.

(** ** The two halves of [getBaseConfigForTask] *)

Module ResolverParts.

Import Resolver.

Section Tables.

Variable taskValue : LLMTask -> string.
Variable TASK_TO_CONFIG_DEFAULTS_MAP : LLMTask -> string.
Variable env : gmap string string.

(** [taskMap[task].modelName]: the model string that is parsed. *)
Definition requestedModel (config : GraphConfig) (task : LLMTask) : string :=
  let selectedProvider := stringProp config "modelProvider" in
  let explicitName := stringProp config (taskValue task +:+ "ModelName") in
  let defaultModelName :=
    if JS.truthy_opt JS.truthy_string selectedProvider
       && negb (JS.truthy_opt JS.truthy_string explicitName)
    then
      match getDefaultModelForProvider taskValue env
              (JS.nullish selectedProvider "") task
      with
      | Some providerModel =>
          provider providerModel +:+ ":" +:+ modelName providerModel
      | None => getDefaultModelForTask taskValue TASK_TO_CONFIG_DEFAULTS_MAP
                                       env task
      end
    else getDefaultModelForTask taskValue TASK_TO_CONFIG_DEFAULTS_MAP env task
  in
  JS.nullish explicitName defaultModelName.

(** The rest of the body, from [let modelStr] on. *)
Definition parseModel (requested : string) (taskTemperature : Q)
           (requestedMaxTokens : Q) : ModelLoadConfig :=
  let modelStr :=
    if JS.includes requested "bedrock:" then
      JS.nullish (oldToNewMappings requested) requested
    else requested in
  let parts := JS.split ":" modelStr in
  let modelProvider := hd "" parts in
  let modelNameParts := tl parts in
  let extended :=
    match modelNameParts with
    | p0 :: _ => String.eqb p0 "extended-thinking"
    | [] => false
    end in
  let modelNameParts' :=
    if extended then tl modelNameParts else modelNameParts in
  let name := JS.join ":" modelNameParts' in
  let thinking :=
    if String.eqb modelProvider "openai" && JS.startsWith name "o" then true
    else extended in
  if JS.includes name "gpt-5" then
    {| provider := modelProvider; modelName := name;
       temperature := Some 1%Q; maxTokens := None;
       thinkingModel := Some thinking;
       thinkingBudgetTokens := Some THINKING_BUDGET_TOKENS;
       max_completion_tokens := Some requestedMaxTokens |}
  else
    {| provider := modelProvider; modelName := name;
       temperature := Some taskTemperature;
       maxTokens := Some requestedMaxTokens;
       thinkingModel := Some thinking;
       thinkingBudgetTokens := Some THINKING_BUDGET_TOKENS;
       max_completion_tokens := None |}.

End Tables.

End ResolverParts.

(** ** Further sample inputs *)

Module MoreSamples.

Import Breaker Resolver Init Runner.

(** A store in which the planner's default model was opened at time 900. *)
Definition openStore : Redis :=
  Some {[ "circuit_breaker:anthropic:claude-sonnet-4-5-20250929" :=
            {| state := OPEN; failureCount := 2; lastFailureTime := 900;
               openedAt := Some 900 |} ]}.

(** A provider that answers, and one that times out on the first call
    and rejects a parameter on the later ones. *)
Definition answering (i : nat) (call : ProviderCall) (input : Input)
  : Result string := Ok "done".

Definition timeoutThenRejected (i : nat) (call : ProviderCall) (input : Input)
  : Result string :=
  match i with
  | O => Throw "Request timed out"
  | S _ => Throw "Invalid parameter: temperature"
  end.

(** A session of a user who is not allow-listed and stored no keys. *)
Definition keylessSession : GraphConfig :=
  {| configurable :=
       Some {| strings := ∅; numbers := ∅; userLogin := Some "bob";
               apiKeys := Some ∅ |} |}.

Definition nobodyAllowed (login : string) : bool := false.

(** U+00A0, the no-break space, in UTF-8. *)
Definition NBSP : string := String "194" (String "160" "").

(** The retrying loop over the resolver's list for the planner. *)
Definition plannerLoop (cfg : ModelManagerConfig)
           (env : gmap string string) (allowed : string -> bool)
           (session : GraphConfig)
           (providerMessages : option (gmap string (list Message)))
           (provider : nat -> ProviderCall -> Input -> Result string)
  : Input -> Redis -> Run string :=
  invoke cfg Samples.taskValue Samples.defaults env allowed
         Samples.decryptIdentity "API key required"
           Samples.typeError Samples.plainSession
         PLANNER providerMessages (Ok tt) session provider
         Samples.checkClock Samples.failureClock.

End MoreSamples.

(** ** Redis-backed state (utils/redis-state.ts over [RedisStore]) *)

Module RedisState.

(** What [getStore()] gives access to: [None] when the store is [null]
    or its client is not open (every [RedisStore] method then returns
    its empty answer), otherwise the strings held under their keys.
    Expiry is enforced by the server: an expired key reads as absent. *)
Abbreviation Store := (option (gmap string string)).

Definition DOCUMENT_CACHE : string := "doc_cache:".
Definition CODEBASE_TREE : string := "codebase_tree:".

(** [RedisStore.get] *)
Definition get (store : Store) (key : string) : option string :=
  match store with
  | None => None
  | Some db => db !! key
  end.

(** [RedisStore.set]: [setEx] when [expirationSeconds] is truthy, [set]
    otherwise; both store the value. *)
Definition set (store : Store) (key value : string)
           (expirationSeconds : option Z) : Store :=
  match store with
  | None => None
  | Some db =>
      if JS.truthy_opt JS.truthy_Z expirationSeconds
      then Some (<[key := value]> db)
      else Some (<[key := value]> db)
  end.

Definition documentCacheKey (threadId url : string) : string :=
  DOCUMENT_CACHE +:+ threadId +:+ ":" +:+ url.

Definition getDocumentCache (store : Store) (threadId url : string)
  : option string :=
  get store (documentCacheKey threadId url).

Definition setDocumentCache (store : Store) (threadId url content : string)
  : Store :=
  set store (documentCacheKey threadId url) content (Some 86400).

Definition getCodebaseTree (store : Store) (threadId : string)
  : option string :=
  get store (CODEBASE_TREE +:+ threadId).

Definition setCodebaseTree (store : Store) (threadId tree : string) : Store :=
  set store (CODEBASE_TREE +:+ threadId) tree (Some 86400).

End RedisState.

(** ** Tool output processing ([processToolCallContent]) *)

Module ToolOutput.

Import Resolver RedisState.

(** A value of [toolCall.args]: a string, or anything else with its
    truthiness. *)
Inductive ArgValue :=
| ArgString (s : string)
| ArgOther (truthy : bool).

Record ToolCall := mkToolCall {
  name : string;
  args : option (gmap string ArgValue);
}.

Definition truthy_arg (v : option ArgValue) : bool :=
  match v with
  | Some (ArgString s) => JS.truthy_string s
  | Some (ArgOther b) => b
  | None => false
  end.

(** [a || b] *)
Definition or_arg (a b : option ArgValue) : option ArgValue :=
  if truthy_arg a then a else b.

(** [toolCall.args?.[key]] *)
Definition arg (toolCall : ToolCall) (key : string) : option ArgValue :=
  match args toolCall with
  | Some table => table !! key
  | None => None
  end.

(** The returned object, and the store afterwards. *)
Record Processed := mkProcessed {
  content : string;
  stateUpdates : option (gmap string string);
  storeAfter : Store;
}.

Section Process.

(** [truncateOutput], [handleMcpDocumentationOutput] and [parseUrl]
    live in modules that are not among the sources; [parseUrl] is
    taken with its result already projected to [url.href] on success. *)
Variable truncateOutput : string -> option (Z * Z) -> string.
Variable handleMcpDocumentationOutput :
  string -> GraphConfig -> option string -> Result string.
Variable parseUrl : string -> option string.

Definition processToolCallContent (toolCall : ToolCall) (result : string)
           (higherContextLimitToolNames : list string)
           (documentCache : gmap string string) (config : GraphConfig)
           (threadId : option string) (store : Store) : Result Processed :=
  if String.eqb (name toolCall) "search_document_for" then
    Ok {| content := truncateOutput result (Some (20000, 20000));
          stateUpdates := None; storeAfter := store |}
  else if existsb (String.eqb (name toolCall)) higherContextLimitToolNames then
    let url :=
      or_arg (or_arg (arg toolCall "url") (arg toolCall "uri"))
             (arg toolCall "path") in
    let parsedUrl :=
      match url with
      | Some (ArgString s) => parseUrl s
      | _ => None
      end in
    let cachedContent :=
      if JS.truthy_opt JS.truthy_string parsedUrl
         && JS.truthy_opt JS.truthy_string threadId
      then getDocumentCache store (JS.nullish threadId "")
                            (JS.nullish parsedUrl "")
      else None in
    let cachedContent :=
      if negb (JS.truthy_opt JS.truthy_string cachedContent)
         && JS.truthy_opt JS.truthy_string parsedUrl
         && JS.truthy_opt JS.truthy_string
              (documentCache !! JS.nullish parsedUrl "")
      then documentCache !! JS.nullish parsedUrl ""
      else cachedContent in
    if JS.truthy_opt JS.truthy_string cachedContent then
      Ok {| content := JS.nullish cachedContent "";
            stateUpdates := None; storeAfter := store |}
    else
      processedContent ← handleMcpDocumentationOutput result config parsedUrl;
      if JS.truthy_opt JS.truthy_string parsedUrl then
        let store' :=
          if JS.truthy_opt JS.truthy_string threadId
          then setDocumentCache store (JS.nullish threadId "")
                                (JS.nullish parsedUrl "") result
          else store in
        Ok {| content := processedContent;
              stateUpdates :=
                Some (<[JS.nullish parsedUrl "" := result]> documentCache);
              storeAfter := store' |}
      else
        Ok {| content := processedContent; stateUpdates := None;
              storeAfter := store |}
  else
    Ok {| content := truncateOutput result None; stateUpdates := None;
          storeAfter := store |}.

End Process.

End ToolOutput.

(** ** API bearer tokens (security/custom.ts) *)

Module ApiTokens.

Definition getConfiguredApiTokens (env : gmap string string) : list string :=
  let single := Init.or_string (env !! "API_BEARER_TOKEN") "" in
  let many := Init.or_string (env !! "API_BEARER_TOKENS") "" in
  let tokens : list string := [] in
  let tokens :=
    if JS.truthy_string (Text.trim single)
    then (tokens ++ [Text.trim single])%list else tokens in
  let tokens :=
    if JS.truthy_string (Text.trim many)
    then fold_left
           (fun tokens t =>
              let v := Text.trim t in
              if JS.truthy_string v then (tokens ++ [v])%list else tokens)
           (JS.split "," many) tokens
    else tokens in
  tokens.

(** The two caches of the hashes: the list held in Redis under
    [allowed_token_hashes] ([None] when Redis is unavailable, [Some None]
    when it holds no list) and the module variable
    [cachedAllowedTokenHashes]; with them, the number of hashes the
    process has computed so far. *)
Record Caches := mkCaches {
  redisHashes : option (option (list string));
  cachedAllowedTokenHashes : option (list string);
  hashSyncCalls : nat;
}.

(** [getAllowedTokenHashes] of redis-state.ts; it catches every error
    and never throws. *)
Definition getAllowedTokenHashesFromRedis (caches : Caches)
  : option (list string) :=
  match redisHashes caches with
  | Some entry => entry
  | None => None
  end.

Definition setAllowedTokenHashes (caches : Caches) (hashes : list string)
  : Caches :=
  {| redisHashes :=
       match redisHashes caches with
       | Some _ => Some (Some hashes)
       | None => None
       end;
     cachedAllowedTokenHashes := cachedAllowedTokenHashes caches;
     hashSyncCalls := hashSyncCalls caches |}.

Section Bcrypt.

Variable env : gmap string string.

(** [bcrypt.hashSync(value, 12)] draws a fresh salt at every call:
    [hashSync n value] is what the call number [n] of the process
    returns.  [bcrypt.compareSync(token, hash)]. *)
Variable hashSync : nat -> string -> string.
Variable compareSync : string -> string -> bool.

Definition bcryptHash (n : nat) (value : string) : string := hashSync n value.

(** [getAllowedTokenHashes] of custom.ts.  The [catch] branch that
    would fall back to the module variable is not reached: the Redis
    accessor does not throw.  A list found in Redis is used even when
    it is empty (an array is truthy). *)
Definition getAllowedTokenHashes (caches : Caches)
  : list string * Caches :=
  match getAllowedTokenHashesFromRedis caches with
  | Some cachedHashes =>
      (cachedHashes,
       {| redisHashes := redisHashes caches;
          cachedAllowedTokenHashes := Some cachedHashes;
          hashSyncCalls := hashSyncCalls caches |})
  | None =>
      let tokens := getConfiguredApiTokens env in
      let hashes :=
        imap (fun i t => bcryptHash (hashSyncCalls caches + i) t) tokens in
      let caches1 :=
        {| redisHashes := redisHashes caches;
           cachedAllowedTokenHashes := Some hashes;
           hashSyncCalls := (hashSyncCalls caches + length tokens)%nat |} in
      (hashes, setAllowedTokenHashes caches1 hashes)
  end.

(** [validateApiBearerToken]: [true] for the authenticated studio user,
    [false] for [null]. *)
Definition validateApiBearerToken (token : string) (caches : Caches)
  : bool * Caches :=
  let '(allowed, caches1) := getAllowedTokenHashes caches in
  if (List.length allowed =? 0)%nat then (false, caches1)
  else (existsb (fun h => compareSync token h) allowed, caches1).

End Bcrypt.

End ApiTokens.

(** ** Application URLs (web/src/lib/url.ts) and the installation callback *)

Module WebUrl.

Section Environment.

Variable env : gmap string string.

(** [apiUrl.replace(/\/api\/?$/, "")]: a trailing [/api] or [/api/]
    is removed. *)
Definition getBaseUrl : string :=
  let apiUrl := env !! "NEXT_PUBLIC_API_URL" in
  if JS.truthy_opt JS.truthy_string apiUrl then
    let url := JS.nullish apiUrl "" in
    if Text.endsWith url "/api/" then Text.dropEnd 5 url
    else if Text.endsWith url "/api" then Text.dropEnd 4 url
    else url
  else "http://localhost:3000".

Definition createAppUrl (path : string) : string :=
  let baseUrl := getBaseUrl in
  let normalizedPath :=
    if JS.startsWith path "/" then path else "/" +:+ path in
  baseUrl +:+ normalizedPath.

(** What follows the match of [/^https?:\/\/[^\/]+/] in [s], if the
    pattern matches: the scheme, [://] and a non-empty run of characters
    other than [/]. *)
Fixpoint afterHost (s : string) : string :=
  match s with
  | EmptyString => EmptyString
  | String c rest => if Ascii.eqb c "/" then s else afterHost rest
  end.

Definition afterOrigin (s : string) : option string :=
  let afterScheme :=
    if JS.startsWith s "https://" then Some (Text.slice 8 s)
    else if JS.startsWith s "http://" then Some (Text.slice 7 s)
    else None in
  match afterScheme with
  | Some (String c rest) =>
      if Ascii.eqb c "/" then None else Some (afterHost rest)
  | _ => None
  end.

(** The request of the installation callback, by what the handler
    reads, and its response: the [Location] header and the cookies set
    (name, value, expired). *)
Record Request := mkRequest {
  installation_id : option string;
  returnToCookie : option string;
}.

Record Response := mkResponse {
  location : string;
  cookies : list (string * string * bool);
}.

(** Cookie names from the shared package and [@/lib/auth].
    [NextResponse.redirect(url)] sets the [Location] header to
    [String(new URL(url))], the serialisation of the parsed URL, and
    throws when [url] does not parse as an absolute URL: [hrefOf url] is
    that serialisation, [None] when there is none. *)
Variable GITHUB_INSTALLATION_RETURN_TO_COOKIE : string.
Variable GITHUB_INSTALLATION_STATE_COOKIE : string.
Variable GITHUB_INSTALLATION_ID_COOKIE : string.
Variable hrefOf : string -> option string.

(** [returnTo]; the replacement [createAppUrl("")] is inserted as it
    is, which is what [replace] does for a base URL without [$]. *)
Definition returnTo (request : Request) : string :=
  let returnToPath := Init.or_string (returnToCookie request) "/" in
  if JS.startsWith returnToPath "http" then
    match afterOrigin returnToPath with
    | Some rest => createAppUrl "" +:+ rest
    | None => returnToPath
    end
  else createAppUrl returnToPath.

(** [GET] of the installation callback; an invalid state is only
    logged.  When the redirect to [returnTo] throws, the [catch] branch
    redirects to the error page; when that throws too, so does the
    handler ([None]). *)
Definition GET (request : Request) : option Response :=
  match hrefOf (returnTo request) with
  | Some href =>
      let cookies :=
        [(GITHUB_INSTALLATION_RETURN_TO_COOKIE, "", true);
         (GITHUB_INSTALLATION_STATE_COOKIE, "", true)] in
      let cookies :=
        if JS.truthy_opt JS.truthy_string (installation_id request)
        then (cookies ++ [(GITHUB_INSTALLATION_ID_COOKIE,
                           JS.nullish (installation_id request) "", false)])%list
        else cookies in
      Some {| location := href; cookies := cookies |}
  | None =>
      match hrefOf (createAppUrl "/?error=installation_callback_failed") with
      | Some href => Some {| location := href; cookies := [] |}
      | None => None
      end
  end.

End Environment.

End WebUrl.

(** * Properties *)

(** ** String primitives on the inputs met in the sources *)

Example split_model_string :
  JS.split ":" "bedrock:anthropic.claude-3-5-haiku-20241022-v1:0"
  = ["bedrock"; "anthropic.claude-3-5-haiku-20241022-v1"; "0"].
Proof. reflexivity. Qed.

Example split_empty_string : JS.split ":" "" = [""].
Proof. reflexivity. Qed.

Example includes_status_401 :
  JS.includes "Request failed with status 401" "401" = true.
Proof. reflexivity. Qed.

Example toUpperCase_provider : JS.toUpperCase "google-genai" = "GOOGLE-GENAI".
Proof. reflexivity. Qed.

Lemma split_nonempty sep s : JS.split sep s <> [].
Proof.
  destruct s as [|c rest]; simpl; [discriminate|].
  destruct (Ascii.eqb c sep); [discriminate|].
  destruct (JS.split sep rest); discriminate.
Qed.

(** ** The circuit breaker *)

Module BreakerProps.

Import Breaker.

Lemma getCircuitBreakerKey_inj k1 k2 :
  getCircuitBreakerKey k1 = getCircuitBreakerKey k2 -> k1 = k2.
Proof.
  unfold getCircuitBreakerKey, CIRCUIT_BREAKER_PREFIX. cbn.
  intros H. now injection H.
Qed.

Lemma currentState_save db k st :
  currentState (saveCircuitState (Some db) k st) k = st.
Proof.
  unfold currentState, getCircuitState, saveCircuitState.
  now rewrite lookup_insert_eq.
Qed.

Lemma currentState_unavailable k : currentState None k = defaultState.
Proof. reflexivity. Qed.

Lemma getCircuitState_fst redis k : fst (getCircuitState redis k) = currentState redis k.
Proof. reflexivity. Qed.

(** The store handle that [getCircuitState] leaves behind holds, under
    the key, exactly the state it returned. *)
Lemma getCircuitState_available db k :
  exists db', snd (getCircuitState (Some db) k) = Some db'
              /\ db' !! getCircuitBreakerKey k = Some (currentState (Some db) k).
Proof.
  unfold currentState, getCircuitState.
  destruct (db !! getCircuitBreakerKey k) as [st|] eqn:E; simpl.
  - exists db. auto.
  - eexists. split; [reflexivity|]. apply lookup_insert_eq.
Qed.

Lemma getCircuitState_unavailable k : getCircuitState None k = (defaultState, None).
Proof. reflexivity. Qed.

Lemma recordFailure_available cfg now db k :
  let st := currentState (Some db) k in
  let count := failureCount st + 1 in
  currentState (recordFailure cfg now (Some db) k) k =
    if count >=? circuitBreakerFailureThreshold cfg then
      {| state := OPEN; failureCount := count; lastFailureTime := now;
         openedAt := Some now |}
    else
      {| state := state st; failureCount := count; lastFailureTime := now;
         openedAt := openedAt st |}.
Proof.
  unfold recordFailure, currentState, getCircuitState.
  destruct (db !! getCircuitBreakerKey k) as [st|] eqn:E; simpl;
    unfold getCircuitState; simpl; now rewrite lookup_insert_eq.
Qed.

Lemma recordFailure_is_available cfg now db k :
  exists db', recordFailure cfg now (Some db) k = Some db'.
Proof.
  unfold recordFailure, getCircuitState.
  destruct (db !! getCircuitBreakerKey k); simpl; eauto.
Qed.

Lemma recordFailure_unavailable cfg now k : recordFailure cfg now None k = None.
Proof. reflexivity. Qed.

Lemma recordSuccess_unavailable k : recordSuccess None k = None.
Proof. reflexivity. Qed.

(** *** Invariant *)

Lemma state_inv_default : state_inv defaultState.
Proof. split; simpl; [discriminate | reflexivity]. Qed.

Lemma state_inv_closed n t :
  state_inv {| state := CLOSED; failureCount := n; lastFailureTime := t;
               openedAt := None |}.
Proof. split; simpl; [discriminate | reflexivity]. Qed.

Lemma state_inv_open n t now :
  state_inv {| state := OPEN; failureCount := n; lastFailureTime := t;
               openedAt := Some now |}.
Proof. split; simpl; [discriminate | discriminate]. Qed.

Lemma store_inv_unavailable : store_inv None.
Proof. intros db k st H. discriminate. Qed.

Create HintDb breaker.

#[local] Hint Resolve state_inv_default state_inv_closed state_inv_open
  store_inv_unavailable : breaker.

Lemma store_inv_empty : store_inv (Some ∅).
Proof.
  intros db k st [= <-] H. rewrite lookup_empty in H. discriminate.
Qed.

Lemma store_inv_save redis k st :
  store_inv redis -> state_inv st -> store_inv (saveCircuitState redis k st).
Proof.
  intros Hs Hst db k' st' Hdb Hk'.
  destruct redis as [db0|]; simpl in Hdb; [|discriminate].
  injection Hdb as <-.
  destruct (decide (k' = getCircuitBreakerKey k)) as [->|Hne].
  - rewrite lookup_insert_eq in Hk'. congruence.
  - rewrite lookup_insert_ne in Hk' by congruence. eapply Hs; eauto.
Qed.

Lemma store_inv_getCircuitState redis k :
  store_inv redis ->
  state_inv (fst (getCircuitState redis k))
  /\ store_inv (snd (getCircuitState redis k)).
Proof.
  intros Hs. unfold getCircuitState.
  destruct redis as [db|]; simpl.
  - destruct (db !! getCircuitBreakerKey k) as [st|] eqn:E; simpl.
    + split; [eapply Hs; eauto | assumption].
    + split; [auto with breaker|].
      apply (store_inv_save (Some db)); auto with breaker.
  - split; auto with breaker.
Qed.

Lemma store_inv_recordSuccess redis k :
  store_inv redis -> store_inv (recordSuccess redis k).
Proof.
  intros Hs. unfold recordSuccess.
  destruct (store_inv_getCircuitState redis k Hs) as [_ H2].
  destruct (getCircuitState redis k) as [st r]; simpl in *.
  apply store_inv_save; auto with breaker.
Qed.

Lemma store_inv_recordFailure cfg now redis k :
  store_inv redis -> store_inv (recordFailure cfg now redis k).
Proof.
  intros Hs. unfold recordFailure.
  destruct (store_inv_getCircuitState redis k Hs) as [H1 H2].
  destruct (getCircuitState redis k) as [st r]; simpl in *.
  apply store_inv_save; [assumption|].
  destruct (_ >=? _); [auto with breaker|].
  destruct H1 as [Ho Hc]. split; simpl; assumption.
Qed.

Lemma store_inv_isCircuitClosed cfg now redis k :
  store_inv redis -> store_inv (snd (isCircuitClosed cfg now redis k)).
Proof.
  intros Hs. unfold isCircuitClosed.
  destruct (store_inv_getCircuitState redis k Hs) as [H1 H2].
  destruct (getCircuitState redis k) as [st r]; simpl in *.
  destruct (state st); simpl; [assumption|].
  destruct (JS.truthy_opt _ _); simpl; [|assumption].
  destruct (_ >=? _); simpl; [|assumption].
  apply store_inv_save; auto with breaker.
Qed.

Lemma store_inv_runOp cfg redis op :
  store_inv redis -> store_inv (runOp cfg redis op).
Proof.
  destruct op; simpl;
    auto using store_inv_recordFailure, store_inv_recordSuccess,
               store_inv_isCircuitClosed.
Qed.

Lemma store_inv_runOps cfg ops : forall redis,
  store_inv redis -> store_inv (runOps cfg ops redis).
Proof.
  unfold runOps. induction ops as [|op ops IH]; intros redis Hs; simpl.
  - assumption.
  - apply IH. now apply store_inv_runOp.
Qed.

(** C9. The invariant "OPEN implies [openedAt] present, CLOSED implies
    [openedAt] absent" holds of the lazily created default state, and
    every sequence of [recordFailure], [recordSuccess] and
    [isCircuitClosed] calls, on any keys, at any times and under any
    thresholds, leads from a store whose states satisfy it to a store
    whose states satisfy it; so does the state any reader then sees. *)
Theorem circuit_invariant_preserved cfg redis ops :
  store_inv redis ->
  state_inv defaultState
  /\ store_inv (runOps cfg ops redis)
  /\ forall k, state_inv (currentState (runOps cfg ops redis) k).
Proof.
  intros Hs. split; [apply state_inv_default|].
  pose proof (store_inv_runOps cfg ops redis Hs) as H.
  split; [assumption|].
  intros k. now apply store_inv_getCircuitState.
Qed.

Lemma circuit_invariant_preserved_witness :
  let cfg := DEFAULT_MODEL_MANAGER_CONFIG in
  let ops := [RecordFailure "openai:gpt-5-codex" 1000;
              RecordFailure "openai:gpt-5-codex" 2000;
              IsCircuitClosed "openai:gpt-5-codex" 200000;
              RecordSuccess "anthropic:claude-3-5-haiku-20241022"] in
  store_inv (Some ∅)
  /\ state_inv (currentState (runOps cfg ops (Some ∅)) "openai:gpt-5-codex").
Proof.
  intros cfg ops. split; [apply store_inv_empty|].
  apply (circuit_invariant_preserved cfg (Some ∅) ops store_inv_empty).
Defined.

(** *** Transitions *)

Lemma recordFailures_snoc cfg times t redis k :
  recordFailures cfg (times ++ [t]) redis k
  = recordFailure cfg t (recordFailures cfg times redis k) k.
Proof. unfold recordFailures. now rewrite fold_left_app. Qed.

Lemma recordFailures_available cfg times : forall db k,
  exists db', recordFailures cfg times (Some db) k = Some db'.
Proof.
  induction times as [|t times IH]; intros db k; simpl.
  - eauto.
  - destruct (recordFailure_is_available cfg t db k) as [db1 E].
    unfold recordFailures in *. simpl. rewrite E. apply IH.
Qed.

Lemma recordFailures_unavailable cfg times k :
  recordFailures cfg times None k = None.
Proof. induction times as [|t times IH]; simpl; auto. Qed.

(** After [n >= 1] failures recorded from a fresh state under the
    default threshold, whatever the store held under other keys. *)
Lemma state_after_failures times : forall db k t,
  state (currentState (Some db) k) = CLOSED ->
  failureCount (currentState (Some db) k) = 0 ->
  openedAt (currentState (Some db) k) = None ->
  let n := Z.of_nat (length (times ++ [t])) in
  currentState
    (recordFailures DEFAULT_MODEL_MANAGER_CONFIG (times ++ [t]) (Some db) k) k
  = {| state := if n >=? 2 then OPEN else CLOSED;
       failureCount := n;
       lastFailureTime := t;
       openedAt := if n >=? 2 then Some t else None |}.
Proof.
  induction times as [|t' times IH] using rev_ind; intros db k t Hs Hc Ho n.
  - unfold recordFailures; simpl.
    rewrite recordFailure_available. simpl.
    rewrite Hc, Hs, Ho. reflexivity.
  - rewrite recordFailures_snoc.
    destruct (recordFailures_available DEFAULT_MODEL_MANAGER_CONFIG
                (times ++ [t']) db k) as [db' E].
    specialize (IH db k t' Hs Hc Ho). simpl in IH. rewrite E in IH |- *.
    rewrite recordFailure_available. rewrite IH. simpl.
    subst n. rewrite !length_app in *. simpl length in *.
    assert (H1 : (Z.of_nat (length times + 1) + 1 >=? 2) = true)
      by (apply Z.geb_le; lia).
    assert (H2 : (Z.of_nat (length times + 1 + 1) >=? 2) = true)
      by (apply Z.geb_le; lia).
    rewrite H1, H2.
    f_equal; lia.
Qed.

(** C3, as amended.  With the key-value store available and the key in
    its default state (CLOSED, no failures, [openedAt] absent), under the
    default threshold of 2 the first recorded failure leaves the circuit
    CLOSED with one failure counted, the second one opens it with
    [openedAt] equal to the time of that failure, and every later one
    keeps it OPEN: after [n] failures the circuit is OPEN exactly when
    [n >= 2]. *)
Theorem second_failure_opens_available_store db k t1 t2 times t :
  state (currentState (Some db) k) = CLOSED ->
  failureCount (currentState (Some db) k) = 0 ->
  openedAt (currentState (Some db) k) = None ->
  let cfg := DEFAULT_MODEL_MANAGER_CONFIG in
  currentState (recordFailure cfg t1 (Some db) k) k
  = {| state := CLOSED; failureCount := 1; lastFailureTime := t1;
       openedAt := None |}
  /\ currentState (recordFailure cfg t2 (recordFailure cfg t1 (Some db) k) k) k
     = {| state := OPEN; failureCount := 2; lastFailureTime := t2;
          openedAt := Some t2 |}
  /\ (let n := Z.of_nat (length (times ++ [t])) in
      let st := currentState (recordFailures cfg (times ++ [t]) (Some db) k) k in
      failureCount st = n
      /\ (state st = OPEN <-> 2 <= n)
      /\ (2 <= n -> openedAt st = Some t)).
Proof.
  intros Hs Hc Ho cfg. subst cfg. split; [|split].
  - apply (state_after_failures [] db k t1 Hs Hc Ho).
  - apply (state_after_failures [t1] db k t2 Hs Hc Ho).
  - intros n st. subst st.
    rewrite (state_after_failures times db k t Hs Hc Ho). fold n. simpl.
    split; [reflexivity|].
    destruct (Z.geb_spec n 2); split.
    + split; [lia | reflexivity].
    + reflexivity.
    + split; [discriminate | lia].
    + lia.
Qed.

Lemma second_failure_opens_available_store_witness :
  let cfg := DEFAULT_MODEL_MANAGER_CONFIG in
  let k := "anthropic:claude-sonnet-4-5-20250929" in
  currentState (recordFailure cfg 1000 (Some ∅) k) k
  = {| state := CLOSED; failureCount := 1; lastFailureTime := 1000;
       openedAt := None |}
  /\ currentState (recordFailure cfg 2000 (recordFailure cfg 1000 (Some ∅) k) k) k
     = {| state := OPEN; failureCount := 2; lastFailureTime := 2000;
          openedAt := Some 2000 |}.
Proof.
  intros cfg k.
  pose proof (second_failure_opens_available_store
                ∅ k 1000 2000 [] 1000 eq_refl eq_refl eq_refl) as [H1 [H2 _]].
  split; [exact H1 | exact H2].
Defined.

(** C3, as stated, fails when Redis is unavailable: nothing is saved, so
    two consecutive failures leave the circuit in its default CLOSED
    state and the next availability query answers "closed". *)
Lemma second_failure_without_store_stays_closed :
  let cfg := DEFAULT_MODEL_MANAGER_CONFIG in
  let k := "anthropic:claude-sonnet-4-5-20250929" in
  let redis := recordFailure cfg 2000 (recordFailure cfg 1000 None k) k in
  state (currentState redis k) <> OPEN
  /\ currentState redis k = defaultState
  /\ fst (isCircuitClosed cfg 2001 redis k) = true.
Proof. cbv. repeat split; discriminate. Qed.

Lemma recordSuccess_state redis k :
  let st := currentState (recordSuccess redis k) k in
  state st = CLOSED /\ failureCount st = 0 /\ openedAt st = None.
Proof.
  destruct redis as [db|]; [|cbv; auto].
  unfold recordSuccess, getCircuitState.
  destruct (db !! getCircuitBreakerKey k) as [st|];
    unfold currentState, getCircuitState, saveCircuitState;
    rewrite lookup_insert_eq; simpl; auto.
Qed.

(** C4.  For a key whose stored circuit is OPEN with [openedAt] set
    (set as the source tests it, [state.openedAt] being truthy: a
    timestamp other than 0): while [now - openedAt] is below the configured
    timeout (180,000 ms by default) [isCircuitClosed] answers false and
    leaves the store as it is; from [now - openedAt >= timeout] on it
    answers true and stores CLOSED with [failureCount = 0] and
    [openedAt] cleared.  [recordSuccess], from any state and any store,
    leaves the key CLOSED with [failureCount = 0] and [openedAt]
    cleared. *)
Theorem open_circuit_recovers_after_timeout cfg db k st t now :
  db !! getCircuitBreakerKey k = Some st ->
  state st = OPEN ->
  openedAt st = Some t ->
  JS.truthy_Z t = true ->
  (now - t < circuitBreakerTimeoutMs cfg ->
   isCircuitClosed cfg now (Some db) k = (false, Some db))
  /\ (circuitBreakerTimeoutMs cfg <= now - t ->
      isCircuitClosed cfg now (Some db) k
      = (true,
         Some (<[getCircuitBreakerKey k :=
                  {| state := CLOSED; failureCount := 0;
                     lastFailureTime := lastFailureTime st;
                     openedAt := None |}]> db)))
  /\ (forall redis k',
       let st' := currentState (recordSuccess redis k') k' in
       state st' = CLOSED /\ failureCount st' = 0 /\ openedAt st' = None).
Proof.
  intros Hk Hs Ho Htr.
  unfold isCircuitClosed, getCircuitState. rewrite Hk, Hs, Ho. simpl.
  rewrite Htr.
  split; [|split].
  - intros Hlt. destruct (Z.geb_spec (now - t) (circuitBreakerTimeoutMs cfg));
      [lia | reflexivity].
  - intros Hge. destruct (Z.geb_spec (now - t) (circuitBreakerTimeoutMs cfg));
      [reflexivity | lia].
  - intros redis k'. apply recordSuccess_state.
Qed.

Lemma open_circuit_recovers_after_timeout_witness :
  let cfg := DEFAULT_MODEL_MANAGER_CONFIG in
  let k := "openai:gpt-5-codex" in
  let st := {| state := OPEN; failureCount := 2; lastFailureTime := 5000;
               openedAt := Some 5000 |} in
  let db : gmap string CircuitBreakerState := {[getCircuitBreakerKey k := st]} in
  isCircuitClosed cfg 184999 (Some db) k = (false, Some db)
  /\ fst (isCircuitClosed cfg 185000 (Some db) k) = true.
Proof.
  intros cfg k st db.
  assert (Hk : db !! getCircuitBreakerKey k = Some st)
    by apply lookup_singleton_eq.
  destruct (open_circuit_recovers_after_timeout
              cfg db k st 5000 184999 Hk eq_refl eq_refl eq_refl) as [H1 _].
  destruct (open_circuit_recovers_after_timeout
              cfg db k st 5000 185000 Hk eq_refl eq_refl eq_refl) as [_ [H2 _]].
  split.
  - apply H1. simpl. lia.
  - rewrite H2; [reflexivity | simpl; lia].
Defined.

End BreakerProps.

(** ** The resolver *)

Module ResolverProps.

Import Resolver.

Section Resolution.

Context {ConfigurableModel ConfigurableModel' : Type}.
Variable taskValue : LLMTask -> string.
Variable TASK_TO_CONFIG_DEFAULTS_MAP : LLMTask -> string.

(** C5.  For every task, configuration and environment the resolver
    returns exactly three entries, each of them the base configuration of
    the task: the list is not empty, its first element is the primary
    candidate, and no entry differs from it (no other provider's
    fallback model is ever listed). *)
Theorem getModelConfigs_repeats_base env config task (selectedModel : ConfigurableModel) :
  let base := getBaseConfigForTask taskValue TASK_TO_CONFIG_DEFAULTS_MAP env config task in
  let configs :=
    getModelConfigs taskValue TASK_TO_CONFIG_DEFAULTS_MAP env config task selectedModel in
  configs = [base; base; base]
  /\ configs <> []
  /\ hd_error configs = Some base
  /\ length configs = 3%nat
  /\ Forall (fun c => c = base) configs.
Proof.
  intros base configs. subst base configs. unfold getModelConfigs. simpl.
  repeat split; try discriminate.
  repeat constructor.
Qed.

Lemma getDefaultModelForTask_env env1 env2 task :
  env1 !! defaultEnvKey taskValue task = env2 !! defaultEnvKey taskValue task ->
  getDefaultModelForTask taskValue TASK_TO_CONFIG_DEFAULTS_MAP env1 task
  = getDefaultModelForTask taskValue TASK_TO_CONFIG_DEFAULTS_MAP env2 task.
Proof. intros H. unfold getDefaultModelForTask. now rewrite H. Qed.

Lemma getDefaultModelForProvider_env env1 env2 p task :
  env1 !! fallbackEnvKey taskValue p task = env2 !! fallbackEnvKey taskValue p task ->
  getDefaultModelForProvider taskValue env1 p task
  = getDefaultModelForProvider taskValue env2 p task.
Proof.
  intros H. unfold getDefaultModelForProvider, getModelFromEnv. now rewrite H.
Qed.

Lemma getBaseConfigForTask_reads env1 env2 config1 config2 task :
  stringProp config1 "modelProvider" = stringProp config2 "modelProvider" ->
  stringProp config1 (taskValue task +:+ "ModelName")
  = stringProp config2 (taskValue task +:+ "ModelName") ->
  numberProp config1 (taskValue task +:+ "Temperature")
  = numberProp config2 (taskValue task +:+ "Temperature") ->
  numberProp config1 "maxTokens" = numberProp config2 "maxTokens" ->
  env1 !! defaultEnvKey taskValue task = env2 !! defaultEnvKey taskValue task ->
  (forall p, env1 !! fallbackEnvKey taskValue p task
             = env2 !! fallbackEnvKey taskValue p task) ->
  getBaseConfigForTask taskValue TASK_TO_CONFIG_DEFAULTS_MAP env1 config1 task
  = getBaseConfigForTask taskValue TASK_TO_CONFIG_DEFAULTS_MAP env2 config2 task.
Proof.
  intros Hp Hn Ht Hm Hd Hf. unfold getBaseConfigForTask.
  rewrite Hp, Hn, Ht, Hm.
  rewrite (getDefaultModelForTask_env env1 env2 task Hd).
  rewrite (getDefaultModelForProvider_env env1 env2 _ task (Hf _)).
  reflexivity.
Qed.

(** C8.  Resolution is a function of the configurable values it reads
    (the selected provider, the task's model name and temperature,
    [maxTokens]), of the environment variables it reads
    ([DEFAULT_<TASK>_MODEL] and the [FALLBACK_<PROVIDER>_<TASK>_MODEL]
    family) and of the default tables: two runs that agree on these
    return the same ordered candidate list, whatever else differs (the
    rest of the configuration and environment, the selected model passed
    in).  In particular identical inputs give identical lists. *)
Theorem getModelConfigs_deterministic env1 env2 config1 config2 task
        (selected1 : ConfigurableModel) (selected2 : ConfigurableModel') :
  stringProp config1 "modelProvider" = stringProp config2 "modelProvider" ->
  stringProp config1 (taskValue task +:+ "ModelName")
  = stringProp config2 (taskValue task +:+ "ModelName") ->
  numberProp config1 (taskValue task +:+ "Temperature")
  = numberProp config2 (taskValue task +:+ "Temperature") ->
  numberProp config1 "maxTokens" = numberProp config2 "maxTokens" ->
  env1 !! defaultEnvKey taskValue task = env2 !! defaultEnvKey taskValue task ->
  (forall p, env1 !! fallbackEnvKey taskValue p task
             = env2 !! fallbackEnvKey taskValue p task) ->
  getModelConfigs taskValue TASK_TO_CONFIG_DEFAULTS_MAP env1 config1 task selected1
  = getModelConfigs taskValue TASK_TO_CONFIG_DEFAULTS_MAP env2 config2 task selected2.
Proof.
  intros Hp Hn Ht Hm Hd Hf. unfold getModelConfigs.
  now rewrite (getBaseConfigForTask_reads env1 env2 config1 config2 task
                 Hp Hn Ht Hm Hd Hf).
Qed.

End Resolution.

Lemma getModelConfigs_deterministic_witness :
  getModelConfigs Samples.taskValue Samples.defaults Samples.secretsEnv
                  Samples.plainSession PLANNER tt
  = getModelConfigs Samples.taskValue Samples.defaults ∅
                    (Samples.configurableWith ∅ "bob") PLANNER 7%nat.
Proof.
  apply getModelConfigs_deterministic; reflexivity.
Defined.

(** The resolution order on a few sessions. *)
Example resolve_explicit_openai_reasoning :
  getBaseConfigForTask Samples.taskValue Samples.defaults ∅
    (Samples.configurableWith {["routerModelName" := "openai:o3-mini"]} "alice")
    ROUTER
  = {| provider := "openai"; modelName := "o3-mini";
       temperature := Some 0%Q; maxTokens := Some 10000%Q;
       thinkingModel := Some true; thinkingBudgetTokens := Some 5000%Q;
       max_completion_tokens := None |}.
Proof. reflexivity. Qed.

Example resolve_pinned_provider :
  getBaseConfigForTask Samples.taskValue Samples.defaults
    {["FALLBACK_GOOGLE_GENAI_REVIEWER_MODEL" := "gemini-2.5-pro"]}
    (Samples.configurableWith {["modelProvider" := "google-genai"]} "alice")
    REVIEWER
  = {| provider := "google-genai"; modelName := "gemini-2.5-pro";
       temperature := Some 0%Q; maxTokens := Some 10000%Q;
       thinkingModel := Some false; thinkingBudgetTokens := Some 5000%Q;
       max_completion_tokens := None |}.
Proof. reflexivity. Qed.

Example resolve_env_default_gpt5 :
  getBaseConfigForTask Samples.taskValue Samples.defaults
    {["DEFAULT_SUMMARIZER_MODEL" := "openai:gpt-5-mini"]}
    Samples.plainSession SUMMARIZER
  = {| provider := "openai"; modelName := "gpt-5-mini";
       temperature := Some 1%Q; maxTokens := None;
       thinkingModel := Some false; thinkingBudgetTokens := Some 5000%Q;
       max_completion_tokens := Some 10000%Q |}.
Proof. reflexivity. Qed.

Example resolve_deprecated_bedrock_id :
  getBaseConfigForTask Samples.taskValue Samples.defaults ∅
    (Samples.configurableWith
       {["plannerModelName" := "bedrock:us.anthropic.claude-opus-4-5-20251101-v1:0"]}
       "alice")
    PLANNER
  = {| provider := "bedrock";
       modelName := "anthropic.claude-3-5-haiku-20241022-v1:0";
       temperature := Some 0%Q; maxTokens := Some 10000%Q;
       thinkingModel := Some false; thinkingBudgetTokens := Some 5000%Q;
       max_completion_tokens := None |}.
Proof. reflexivity. Qed.

End ResolverProps.

(** ** Provider parameter shaping *)

Module InitProps.

Import Resolver Init.

Lemma Qgtb_min (requested bound : Q) :
  (if JS.Qgtb requested bound then bound else requested) = Qmin requested bound.
Proof.
  unfold JS.Qgtb, Qle_bool, Qmin, GenericMinMax.gmin, Qcompare, Z.leb.
  destruct (_ ?= _)%Z; reflexivity.
Qed.

Lemma finalMaxTokens_haiku config :
  JS.includes (modelName config) "claude-3-5-haiku" = true ->
  finalMaxTokens config = Qmin (JS.nullish (maxTokens config) 10000%Q) 8192%Q.
Proof. intros H. unfold finalMaxTokens. rewrite H. apply Qgtb_min. Qed.

Lemma finalMaxTokens_other config :
  JS.includes (modelName config) "claude-3-5-haiku" = false ->
  finalMaxTokens config = JS.nullish (maxTokens config) 10000%Q.
Proof. intros H. unfold finalMaxTokens. now rewrite H. Qed.

(** The id correction does not change whether the name mentions gpt-5. *)
Lemma corrected_name_gpt5 name :
  JS.includes
    (if String.eqb name "claude-sonnet-4-5-20251101"
     then "claude-sonnet-4-5-20250929" else name) "gpt-5"
  = JS.includes name "gpt-5".
Proof.
  destruct (String.eqb_spec name "claude-sonnet-4-5-20251101") as [->|_];
    reflexivity.
Qed.

Section Shaping.

Variable env : gmap string string.
Variable isAllowedUser : string -> bool.
Variable decryptSecret : string -> string -> Result string.
Variable API_KEY_REQUIRED_MESSAGE : string.
Variable BedrockChat_TypeError : string -> string.

Let init := initializeModel env isAllowedUser decryptSecret API_KEY_REQUIRED_MESSAGE
  BedrockChat_TypeError.
Let userKey := getUserApiKey env isAllowedUser decryptSecret API_KEY_REQUIRED_MESSAGE.

(** The corrected name is a property of [Object.prototype] only when the
    name is. *)
Lemma corrected_name_inherited name :
  existsb
    (String.eqb (if String.eqb name "claude-sonnet-4-5-20251101"
                 then "claude-sonnet-4-5-20250929" else name))
    JS.objectPrototypeKeys = true ->
  In name JS.objectPrototypeKeys.
Proof.
  destruct (String.eqb_spec name "claude-sonnet-4-5-20251101") as [->|_];
    [discriminate|].
  intros H. apply existsb_exists in H as [x [Hx Hex]].
  apply String.eqb_eq in Hex. now subst x.
Qed.

Lemma initializeModel_returns config graphConfig key :
  userKey graphConfig (provider config) = Ok key ->
  (provider config = "bedrock" ->
   ~ In (modelName config) JS.objectPrototypeKeys) ->
  exists call, init config graphConfig = Ok call.
Proof.
  intros Hk Hkeys. unfold init, initializeModel. fold userKey. rewrite Hk.
  cbn [mbind Result_bind].
  destruct (String.eqb_spec (provider config) "bedrock") as [Hb|_].
  - match goal with
    | |- context [bedrockModelMappings ?p ?n] =>
        destruct (bedrockModelMappings p n) as [[mapped|inherited]|] eqn:E
    end; [eauto| |eauto].
    exfalso. unfold bedrockModelMappings in E.
    destruct (_ || _) in E; [discriminate|].
    destruct (existsb _ _) eqn:Ex in E; [|discriminate].
    exact (Hkeys Hb (corrected_name_inherited _ Ex)).
  - destruct (String.eqb (provider config) "anthropic"); eauto.
Qed.

Lemma initializeModel_maxOutputTokens config graphConfig call :
  init config graphConfig = Ok call ->
  exists key,
    maxOutputTokens call =
    let options := modelOptionsFor config key in
    if String.eqb (provider config) "bedrock"
       || String.eqb (provider config) "anthropic"
    then opt_maxTokens options
    else match opt_max_completion_tokens options with
         | Some n => Some n
         | None => opt_maxTokens options
         end.
Proof.
  unfold init, initializeModel.
  destruct (getUserApiKey _ _ _ _ _ _) as [key|msg]; simpl; [|discriminate].
  intros H. exists key.
  destruct (String.eqb (provider config) "bedrock"); simpl in *.
  - destruct (bedrockModelMappings _ _) as [[mapped|inherited]|];
      [|discriminate|]; injection H as <-; reflexivity.
  - destruct (String.eqb (provider config) "anthropic"); simpl in *;
      injection H as <-; reflexivity.
Qed.

(** C10, as amended.  Whenever [initializeModel] constructs a client:
    - for a model name containing "claude-3-5-haiku", unless the call is
      an Anthropic thinking-model call (and, for a name that also
      contains "gpt-5", unless the provider is Bedrock or Anthropic), the
      output-token bound passed on is the minimum of the requested
      [maxTokens] (10,000 when unspecified) and 8,192;
    - for an Anthropic thinking-model call with a thinking budget that
      is set and not zero the bound is four times that budget, whatever
      the model name;
    - for a name containing neither "claude-3-5-haiku" nor "gpt-5", of a
      model that is not a thinking model, the requested [maxTokens]
      (10,000 when unspecified) is passed on unchanged. *)
Theorem initializeModel_output_token_bound config graphConfig call :
  init config graphConfig = Ok call ->
  let requested := JS.nullish (maxTokens config) 10000%Q in
  let anthropicThinking :=
    JS.nullish (thinkingModel config) false
    && String.eqb (provider config) "anthropic" in
  (JS.includes (modelName config) "claude-3-5-haiku" = true ->
   anthropicThinking = false ->
   JS.includes (modelName config) "gpt-5" = false
   \/ (String.eqb (provider config) "bedrock"
       || String.eqb (provider config) "anthropic") = false ->
   maxOutputTokens call = Some (Qmin requested 8192%Q))
  /\ (anthropicThinking = true ->
      forall budget, thinkingBudgetTokens config = Some budget ->
      JS.truthy_Q budget = true ->
      maxOutputTokens call = Some (budget * 4)%Q)
  /\ (JS.includes (modelName config) "claude-3-5-haiku" = false ->
      JS.includes (modelName config) "gpt-5" = false ->
      JS.nullish (thinkingModel config) false = false ->
      maxOutputTokens call = Some requested).
Proof.
  intros Hcall requested anthropicThinking.
  destruct (initializeModel_maxOutputTokens config graphConfig call Hcall)
    as [key ->].
  subst requested anthropicThinking.
  unfold modelOptionsFor. rewrite corrected_name_gpt5.
  split; [|split].
  - intros Hh Hat Hg. rewrite Hat.
    rewrite (finalMaxTokens_haiku config Hh).
    destruct Hg as [Hg|Hg].
    + rewrite Hg.
      destruct (String.eqb (provider config) "anthropic");
        destruct (String.eqb (provider config) "bedrock"); reflexivity.
    + apply orb_false_iff in Hg as [Hb Ha]. rewrite Hb, Ha.
      destruct (JS.includes (modelName config) "gpt-5"); reflexivity.
  - intros Hat budget Hb Htr. rewrite Hat.
    apply andb_true_iff in Hat as [_ Ha]. rewrite Ha, Hb. simpl.
    rewrite Htr, orb_true_r. reflexivity.
  - intros Hh Hg Hth. rewrite Hth, Hg. simpl.
    rewrite (finalMaxTokens_other config Hh).
    destruct (String.eqb (provider config) "anthropic");
      destruct (String.eqb (provider config) "bedrock"); reflexivity.
Qed.

End Shaping.

(** The configuration the resolver hands to [initializeModel] for the
    session that selected Claude 3.5 Haiku with extended thinking. *)
Example thinking_haiku_resolved :
  getBaseConfigForTask Samples.taskValue Samples.defaults ∅
                       Samples.thinkingHaikuSession PLANNER
  = {| provider := "anthropic"; modelName := "claude-3-5-haiku-latest";
       temperature := Some 0%Q; maxTokens := Some 10000%Q;
       thinkingModel := Some true; thinkingBudgetTokens := Some 5000%Q;
       max_completion_tokens := None |}.
Proof. reflexivity. Qed.

(** C10, as stated, fails for that session: the name contains
    "claude-3-5-haiku", the requested bound is 10,000, yet the client is
    built with [maxTokens = 20000] (four times the thinking budget), not
    with [min(10000, 8192) = 8192]. *)
Lemma thinking_haiku_exceeds_cap :
  let config :=
    getBaseConfigForTask Samples.taskValue Samples.defaults ∅
                         Samples.thinkingHaikuSession PLANNER in
  JS.includes (modelName config) "claude-3-5-haiku" = true
  /\ exists call,
      initializeModel Samples.secretsEnv Samples.everyoneAllowed
                      Samples.decryptIdentity "API key required"
                        Samples.typeError
                      config Samples.thinkingHaikuSession = Ok call
      /\ maxOutputTokens call = Some 20000%Q
      /\ maxOutputTokens call
         <> Some (Qmin (JS.nullish (maxTokens config) 10000%Q) 8192%Q).
Proof.
  split; [reflexivity|].
  eexists. split; [reflexivity|]. split; [reflexivity|]. discriminate.
Qed.

Lemma initializeModel_output_token_bound_witness :
  let config :=
    {| provider := "anthropic"; modelName := "claude-3-5-haiku-20241022";
       temperature := Some 0%Q; maxTokens := Some 10000%Q;
       thinkingModel := Some false; thinkingBudgetTokens := Some 5000%Q;
       max_completion_tokens := None |} in
  let call :=
    ChatAnthropic "claude-3-5-haiku-20241022" None (Some 8192%Q) 0%Q None in
  initializeModel Samples.secretsEnv Samples.everyoneAllowed
                  Samples.decryptIdentity "API key required" Samples.typeError
                  config Samples.plainSession = Ok call
  /\ maxOutputTokens call = Some (Qmin 10000%Q 8192%Q).
Proof.
  intros config call.
  assert (H : initializeModel Samples.secretsEnv Samples.everyoneAllowed
                Samples.decryptIdentity "API key required" Samples.typeError
                config Samples.plainSession = Ok call) by reflexivity.
  split; [exact H|].
  destruct (initializeModel_output_token_bound
              Samples.secretsEnv Samples.everyoneAllowed
              Samples.decryptIdentity "API key required" Samples.typeError
              config Samples.plainSession call H) as [H1 _].
  apply H1; [reflexivity | reflexivity | left; reflexivity].
Defined.

End InitProps.

(** ** History sanitisation *)

Module SanitizeProps.

Import Runner.

Lemma sanitizeLoop_app pre : forall m post after,
  sanitizeLoop (pre ++ m :: post) after
  = (sanitizeLoop pre (Some m) ++ sanitizeLoop (m :: post) after)%list.
Proof.
  induction pre as [|p pre IH]; intros m post after.
  - reflexivity.
  - cbn [app sanitizeLoop]. rewrite IH.
    destruct pre; cbn [app]; now rewrite <- !app_assoc.
Qed.

Lemma danglingToolCalls_pending m next calls :
  tool_calls m = Some calls ->
  match next with
  | None => True
  | Some n => isToolMessageLike n = false
  end ->
  danglingToolCalls m next = calls.
Proof.
  intros Hc Hn. unfold danglingToolCalls, isAIMessageLike, nonEmptyCalls.
  rewrite Hc. destruct calls as [|c calls].
  - rewrite andb_false_r. reflexivity.
  - assert (Hai : (if eq_opt (msg_role m) "assistant" || eq_opt (msg_type m) "ai"
                   then true
                   else if eq_opt (msg_constructor m) "AIMessage" then true
                        else true) = true)
      by (destruct (_ || _); [|destruct (eq_opt _ _)]; reflexivity).
    rewrite Hai. simpl.
    destruct next as [n|]; [rewrite Hn|]; reflexivity.
Qed.

Lemma danglingToolCalls_answered m next :
  isToolMessageLike next = true -> danglingToolCalls m (Some next) = [].
Proof.
  intros Hn. unfold danglingToolCalls. rewrite Hn.
  destruct (_ && _); reflexivity.
Qed.

Lemma dummyToolResult_is_tool_result call :
  isToolMessageLike (dummyToolResult call) = true
  /\ tool_call_id (dummyToolResult call) = tc_id call
  /\ msg_name (dummyToolResult call) = Some (tc_name call)
  /\ content (dummyToolResult call) = interruptedNotice.
Proof. repeat split. Qed.

(** C6.  In a message history, take an entry [m] that carries the tool
    invocations [calls] (any entry with pending invocations is treated
    as an assistant entry by the source) and is not immediately followed
    by a tool-result entry, be it followed by another kind of entry or by
    the end of the log.  Sanitisation keeps what precedes and follows as
    it sanitises them on their own, and puts right after [m] exactly one
    synthetic tool-result entry per invocation, in order, each with that
    invocation's id and name and, as its content, the notice "Error: Tool
    execution interrupted or result missing. Please retry.".  With two
    pending invocations at the end of the log, exactly two synthetic
    entries close the sanitised history. *)
Theorem sanitizeHistory_repairs_dangling_calls pre m post calls :
  tool_calls m = Some calls ->
  match post with
  | [] => True
  | next :: _ => isToolMessageLike next = false
  end ->
  sanitizeHistory (Messages (pre ++ m :: post))
  = Messages (sanitizeLoop pre (Some m)
              ++ m :: List.map dummyToolResult calls
              ++ sanitizeLoop post None)%list
  /\ length (List.map dummyToolResult calls) = length calls
  /\ Forall2 (fun call synthetic =>
               isToolMessageLike synthetic = true
               /\ tool_call_id synthetic = tc_id call
               /\ msg_name synthetic = Some (tc_name call)
               /\ content synthetic
                  = "Error: Tool execution interrupted or result missing. Please retry.")
            calls (List.map dummyToolResult calls)
  /\ (forall c1 c2, calls = [c1; c2] -> post = [] ->
      sanitizeHistory (Messages (pre ++ m :: post))
      = Messages (sanitizeLoop pre (Some m)
                  ++ [m; dummyToolResult c1; dummyToolResult c2])%list).
Proof.
  intros Hc Hn.
  assert (Hmain :
    sanitizeHistory (Messages (pre ++ m :: post))
    = Messages (sanitizeLoop pre (Some m)
                ++ m :: List.map dummyToolResult calls
                ++ sanitizeLoop post None)%list).
  { unfold sanitizeHistory. rewrite sanitizeLoop_app. cbn [sanitizeLoop].
    rewrite (danglingToolCalls_pending m _ calls Hc).
    - reflexivity.
    - destruct post; [exact I | exact Hn]. }
  split; [exact Hmain|]. split; [apply length_map|]. split.
  - clear. induction calls as [|c calls IH]; constructor;
      [repeat split|exact IH].
  - intros c1 c2 -> ->. rewrite Hmain. reflexivity.
Qed.

Lemma sanitizeHistory_repairs_dangling_calls_witness :
  let m := Samples.assistantWithCalls [Samples.shellCall; Samples.grepCall] in
  sanitizeHistory (Messages [Samples.userMessage "fix the build"; m])
  = Messages
      [Samples.userMessage "fix the build"; m;
       {| msg_role := None; msg_type := None;
          msg_constructor := Some "ToolMessage";
          msg_instanceof_ToolMessage := true;
          msg_getType := Some (Ok "tool");
          tool_calls := None;
          tool_call_id := Some "call_1";
          msg_name := Some "shell";
          content :=
            "Error: Tool execution interrupted or result missing. Please retry." |};
       {| msg_role := None; msg_type := None;
          msg_constructor := Some "ToolMessage";
          msg_instanceof_ToolMessage := true;
          msg_getType := Some (Ok "tool");
          tool_calls := None;
          tool_call_id := Some "call_2";
          msg_name := Some "grep";
          content :=
            "Error: Tool execution interrupted or result missing. Please retry." |}].
Proof.
  intros m.
  destruct (sanitizeHistory_repairs_dangling_calls
              [Samples.userMessage "fix the build"] m []
              [Samples.shellCall; Samples.grepCall] eq_refl I)
    as [_ [_ [_ H]]].
  exact (H Samples.shellCall Samples.grepCall eq_refl eq_refl).
Defined.

(** A history whose pending invocations are all answered is returned as
    it is. *)
Example sanitizeHistory_answered :
  let m := Samples.assistantWithCalls [Samples.shellCall] in
  let answer := dummyToolResult Samples.shellCall in
  sanitizeHistory (Messages [m; answer]) = Messages [m; answer].
Proof. reflexivity. Qed.

End SanitizeProps.

(** ** The fallback loop *)

Module RunnerProps.

Import Breaker Resolver Init Runner BreakerProps.

(** *** What an availability query does to an available store *)

Lemma isCircuitClosed_when_closed cfg now db k :
  state (currentState (Some db) k) = CLOSED ->
  exists db',
    isCircuitClosed cfg now (Some db) k = (true, Some db')
    /\ currentState (Some db') k = currentState (Some db) k.
Proof.
  intros Hs. unfold isCircuitClosed.
  destruct (getCircuitState_available db k) as [db' [E1 E2]].
  destruct (getCircuitState (Some db) k) as [st r] eqn:E.
  assert (Hst : st = currentState (Some db) k)
    by (unfold currentState; now rewrite E).
  simpl in E1. subst r. rewrite Hst, Hs.
  exists db'. split; [reflexivity|].
  unfold currentState at 1, getCircuitState. now rewrite E2.
Qed.

Lemma isCircuitClosed_when_open cfg now db k t :
  state (currentState (Some db) k) = OPEN ->
  openedAt (currentState (Some db) k) = Some t ->
  now - t < circuitBreakerTimeoutMs cfg ->
  exists db',
    isCircuitClosed cfg now (Some db) k = (false, Some db')
    /\ currentState (Some db') k = currentState (Some db) k.
Proof.
  intros Hs Ho Hlt. unfold isCircuitClosed.
  destruct (getCircuitState_available db k) as [db' [E1 E2]].
  destruct (getCircuitState (Some db) k) as [st r] eqn:E.
  assert (Hst : st = currentState (Some db) k)
    by (unfold currentState; now rewrite E).
  simpl in E1. subst r. rewrite Hst, Hs, Ho. simpl.
  assert (Hcur : currentState (Some db') k = currentState (Some db) k)
    by (unfold currentState at 1, getCircuitState; now rewrite E2).
  destruct (JS.truthy_Z t); [|eauto].
  destruct (Z.geb_spec (now - t) (circuitBreakerTimeoutMs cfg)); [lia|eauto].
Qed.

Lemma isCircuitClosed_unavailable cfg now k :
  isCircuitClosed cfg now None k = (true, None).
Proof. reflexivity. Qed.

Section Loop.

Context {Answer : Type}.

Variable cfg : ModelManagerConfig.
Variable taskValue : LLMTask -> string.
Variable env : gmap string string.
Variable isAllowedUser : string -> bool.
Variable decryptSecret : string -> string -> Result string.
Variable API_KEY_REQUIRED_MESSAGE : string.
Variable BedrockChat_TypeError : string -> string.
Variable task : LLMTask.
Variable providerMessages : option (gmap string (list Message)).
Variable graphConfig : GraphConfig.
Variable callProvider : nat -> ProviderCall -> Input -> Result Answer.
Variable nowAtCheck : nat -> Z.
Variable nowAtFailure : nat -> Z.

Local Abbreviation attempt :=
  (tryBlock env isAllowedUser decryptSecret API_KEY_REQUIRED_MESSAGE
    BedrockChat_TypeError
            providerMessages graphConfig callProvider).

Local Abbreviation retrying :=
  (fallbackLoop cfg taskValue env isAllowedUser decryptSecret
                API_KEY_REQUIRED_MESSAGE
                  BedrockChat_TypeError task providerMessages graphConfig
                callProvider nowAtCheck nowAtFailure).

Local Abbreviation failFast :=
  (failFastLoop cfg taskValue env isAllowedUser decryptSecret
                API_KEY_REQUIRED_MESSAGE
                  BedrockChat_TypeError task providerMessages graphConfig
                callProvider nowAtCheck).

(** One iteration of the retrying loop, case by case. *)

Lemma retrying_skip total input i c rest redis redis1 lastError tried :
  isCircuitClosed cfg (nowAtCheck i) redis (modelKey c) = (false, redis1) ->
  retrying total input i (c :: rest) redis lastError tried
  = retrying total input (S i) rest redis1 lastError tried.
Proof. intros H. cbn [fallbackLoop]. now rewrite H. Qed.

Lemma retrying_success total input i c rest redis redis1 lastError tried result :
  isCircuitClosed cfg (nowAtCheck i) redis (modelKey c) = (true, redis1) ->
  attempt i c input = Ok result ->
  retrying total input i (c :: rest) redis lastError tried
  = mkRun (Returned result) (recordSuccess redis1 (modelKey c))
          (tried ++ [(i, c)]).
Proof. intros H Ha. cbn [fallbackLoop]. now rewrite H, Ha. Qed.

Lemma retrying_auth total input i c rest redis redis1 lastError tried e :
  isCircuitClosed cfg (nowAtCheck i) redis (modelKey c) = (true, redis1) ->
  attempt i c input = Throw e ->
  isAuthError e = true ->
  retrying total input i (c :: rest) redis lastError tried
  = mkRun (Raised AuthenticationFailed (authenticationMessage c e))
          redis1 (tried ++ [(i, c)]).
Proof. intros H Ha He. cbn [fallbackLoop]. now rewrite H, Ha, He. Qed.

Lemma retrying_next total input i c rest redis redis1 lastError tried e :
  isCircuitClosed cfg (nowAtCheck i) redis (modelKey c) = (true, redis1) ->
  attempt i c input = Throw e ->
  isTransient e = true ->
  (i < total - 1)%nat ->
  retrying total input i (c :: rest) redis lastError tried
  = retrying total input (S i) rest
             (recordFailure cfg (nowAtFailure i) redis1 (modelKey c))
             (Some e) (tried ++ [(i, c)]).
Proof.
  intros H Ha Ht Hi. cbn [fallbackLoop]. rewrite H, Ha. simpl.
  unfold isTransient in Ht. apply andb_true_iff in Ht as [Ht1 Ht2].
  apply negb_true_iff in Ht1. rewrite Ht1, Ht2.
  apply Nat.ltb_lt in Hi. now rewrite Hi.
Qed.

Lemma retrying_rethrow total input i c rest redis redis1 lastError tried e :
  isCircuitClosed cfg (nowAtCheck i) redis (modelKey c) = (true, redis1) ->
  attempt i c input = Throw e ->
  isAuthError e = false ->
  isConfigError e = true \/ ~ (i < total - 1)%nat ->
  retrying total input i (c :: rest) redis lastError tried
  = mkRun (Raised Rethrown e) redis1 (tried ++ [(i, c)]).
Proof.
  intros H Ha He Hlast. cbn [fallbackLoop]. rewrite H, Ha, He. simpl.
  destruct Hlast as [Hc|Hi].
  - now rewrite Hc.
  - apply Nat.ltb_nlt in Hi. now rewrite Hi, andb_false_r.
Qed.

(** One iteration of the fail-fast loop after a failed attempt that is
    not an authentication error. *)
Lemma failFast_rethrow input i c rest redis redis1 lastError tried e :
  isCircuitClosed cfg (nowAtCheck i) redis (modelKey c) = (true, redis1) ->
  attempt i c input = Throw e ->
  isAuthError e = false ->
  failFast input i (c :: rest) redis lastError tried
  = mkRun (Raised Rethrown e) redis1 (tried ++ [(i, c)]).
Proof. intros H Ha He. cbn [failFastLoop]. now rewrite H, Ha, He. Qed.

(** The attempts already made are never forgotten, and every further
    attempt is recorded with the index and the entry of the list it was
    made on. *)
Lemma retrying_attempts_extend total input remaining :
  forall i redis lastError tried,
  exists more,
    attempts (retrying total input i remaining redis lastError tried)
    = (tried ++ more)%list
    /\ Forall (fun a => (i <= fst a)%nat
                       /\ nth_error remaining (fst a - i) = Some (snd a)) more.
Proof.
  induction remaining as [|c rest IH]; intros i redis lastError tried.
  - exists []. cbn. rewrite app_nil_r. auto.
  - assert (Hhere : Forall (fun a => (i <= fst a)%nat
                      /\ nth_error (c :: rest) (fst a - i) = Some (snd a))
                     [(i, c)]).
    { repeat constructor. simpl. now rewrite Nat.sub_diag. }
    assert (Hlater : forall more,
      Forall (fun a => (S i <= fst a)%nat
                       /\ nth_error rest (fst a - S i) = Some (snd a)) more ->
      Forall (fun a => (i <= fst a)%nat
                       /\ nth_error (c :: rest) (fst a - i) = Some (snd a)) more).
    { intros more F. eapply Forall_impl; [exact F|].
      intros [j d] [Hj Hn]. simpl in *.
      split; [lia|]. replace (j - i)%nat with (S (j - S i)) by lia. exact Hn. }
    cbn [fallbackLoop].
    destruct (isCircuitClosed cfg (nowAtCheck i) redis (modelKey c))
      as [closed redis1].
    destruct closed; simpl.
    + destruct (attempt i c input) as [result|e]; [eauto|].
      destruct (isAuthError e); [eauto|].
      destruct (negb (isConfigError e) && (i <? total - 1)%nat); [|eauto].
      destruct (IH (S i) (recordFailure cfg (nowAtFailure i) redis1 (modelKey c))
                   (Some e) (tried ++ [(i, c)])%list) as [more [E F]].
      rewrite E. exists ((i, c) :: more). rewrite <- app_assoc.
      split; [reflexivity|]. constructor; [now inversion Hhere | auto].
    + destruct (IH (S i) redis1 lastError tried) as [more [E F]].
      exists more. auto.
Qed.

Lemma failFast_attempts_extend input remaining :
  forall i redis lastError tried,
  exists more,
    attempts (failFast input i remaining redis lastError tried)
    = (tried ++ more)%list
    /\ Forall (fun a => (i <= fst a)%nat
                       /\ nth_error remaining (fst a - i) = Some (snd a)) more.
Proof.
  induction remaining as [|c rest IH]; intros i redis lastError tried.
  - exists []. cbn. rewrite app_nil_r. auto.
  - assert (Hhere : Forall (fun a => (i <= fst a)%nat
                      /\ nth_error (c :: rest) (fst a - i) = Some (snd a))
                     [(i, c)]).
    { repeat constructor. simpl. now rewrite Nat.sub_diag. }
    cbn [failFastLoop].
    destruct (isCircuitClosed cfg (nowAtCheck i) redis (modelKey c))
      as [closed redis1].
    destruct closed; simpl.
    + destruct (attempt i c input) as [result|e]; [eauto|].
      destruct (isAuthError e); eauto.
    + destruct (IH (S i) redis1 lastError tried) as [more [E F]].
      exists more. split; [exact E|].
      eapply Forall_impl; [exact F|]. intros [j d] [Hj Hn]. simpl in *.
      split; [lia|]. replace (j - i)%nat with (S (j - S i)) by lia. exact Hn.
Qed.

(** In a whole run every recorded attempt [(i, c)] was made on
    [modelConfigs[i] = c]. *)
Lemma retrying_attempts_sound modelConfigs input redis :
  Forall (fun a => nth_error modelConfigs (fst a) = Some (snd a))
    (attempts (retrying (length modelConfigs) input 0 modelConfigs redis None [])).
Proof.
  destruct (retrying_attempts_extend (length modelConfigs) input modelConfigs
              0%nat redis None []) as [more [E F]].
  rewrite E. simpl. eapply Forall_impl; [exact F|].
  intros [j d] [_ Hn]. simpl in *. now rewrite Nat.sub_0_r in Hn.
Qed.

Lemma failFast_attempts_sound modelConfigs input redis :
  Forall (fun a => nth_error modelConfigs (fst a) = Some (snd a))
    (attempts (failFast input 0 modelConfigs redis None [])).
Proof.
  destruct (failFast_attempts_extend input modelConfigs 0%nat redis None [])
    as [more [E F]].
  rewrite E. simpl. eapply Forall_impl; [exact F|].
  intros [j d] [_ Hn]. simpl in *. now rewrite Nat.sub_0_r in Hn.
Qed.

Lemma retrying_first_attempt_auth total input remaining :
  forall i0 redis lastError i c e,
  hd_error (attempts (retrying total input i0 remaining redis lastError []))
  = Some (i, c) ->
  attempt i c input = Throw e ->
  isAuthError e = true ->
  let run := retrying total input i0 remaining redis lastError [] in
  attempts run = [(i, c)]
  /\ outcome run = Raised AuthenticationFailed (authenticationMessage c e).
Proof.
  induction remaining as [|c0 rest IH]; intros i0 redis lastError i c e Hhd Ha He.
  - discriminate.
  - cbn [fallbackLoop] in *.
    destruct (isCircuitClosed cfg (nowAtCheck i0) redis (modelKey c0))
      as [closed redis1].
    destruct closed; simpl in *; [|now apply IH].
    destruct (attempt i0 c0 input) as [result|e0] eqn:E0.
    + simpl in Hhd. injection Hhd as <- <-. congruence.
    + destruct (isAuthError e0) eqn:Eauth.
      * simpl in Hhd. injection Hhd as <- <-.
        assert (e0 = e) by congruence. subst e0. auto.
      * assert (Hfirst : (i, c) = (i0, c0)).
        { destruct (negb (isConfigError e0) && (i0 <? total - 1)%nat).
          - destruct (retrying_attempts_extend total input rest (S i0)
                        (recordFailure cfg (nowAtFailure i0) redis1 (modelKey c0))
                        (Some e0) [(i0, c0)]) as [more [E _]].
            rewrite E in Hhd. simpl in Hhd. congruence.
          - simpl in Hhd. congruence. }
        injection Hfirst as -> ->. congruence.
Qed.

Lemma failFast_first_attempt_auth input remaining :
  forall i0 redis lastError i c e,
  hd_error (attempts (failFast input i0 remaining redis lastError []))
  = Some (i, c) ->
  attempt i c input = Throw e ->
  isAuthError e = true ->
  let run := failFast input i0 remaining redis lastError [] in
  attempts run = [(i, c)]
  /\ outcome run = Raised AuthenticationFailed (authenticationMessage c e).
Proof.
  induction remaining as [|c0 rest IH]; intros i0 redis lastError i c e Hhd Ha He.
  - discriminate.
  - cbn [failFastLoop] in *.
    destruct (isCircuitClosed cfg (nowAtCheck i0) redis (modelKey c0))
      as [closed redis1].
    destruct closed; simpl in *; [|now apply IH].
    destruct (attempt i0 c0 input) as [result|e0] eqn:E0.
    + simpl in Hhd. injection Hhd as <- <-. congruence.
    + destruct (isAuthError e0) eqn:Eauth;
        simpl in Hhd; injection Hhd as <- <-.
      * assert (e0 = e) by congruence. subst e0. auto.
      * congruence.
Qed.


(** *** Transient failures *)

Context {ConfigurableModel : Type}.
Variable TASK_TO_CONFIG_DEFAULTS_MAP : LLMTask -> string.
Variable thisConfig : GraphConfig.
Variable getPrimaryModel : Result ConfigurableModel.

Local Abbreviation run_invoke :=
  (invoke cfg taskValue TASK_TO_CONFIG_DEFAULTS_MAP env isAllowedUser
          decryptSecret API_KEY_REQUIRED_MESSAGE
            BedrockChat_TypeError thisConfig task
          providerMessages getPrimaryModel graphConfig callProvider
          nowAtCheck nowAtFailure).

Lemma two_candidates_two_attempts input c0 c1 redis redis0 redis1 e0 :
  isCircuitClosed cfg (nowAtCheck 0) redis (modelKey c0) = (true, redis0) ->
  attempt 0%nat c0 input = Throw e0 ->
  isTransient e0 = true ->
  isCircuitClosed cfg (nowAtCheck 1)
                  (recordFailure cfg (nowAtFailure 0) redis0 (modelKey c0))
                  (modelKey c1) = (true, redis1) ->
  let run := retrying 2 input 0 [c0; c1] redis None [] in
  attempts run = [(0%nat, c0); (1%nat, c1)]
  /\ outcome run
     = secondAttemptOutcome c1 (attempt 1%nat c1 input) (Raised Rethrown).
Proof.
  intros H0 Ha0 Ht0 H1 run. subst run.
  rewrite (retrying_next 2 input 0 c0 [c1] redis redis0 None [] e0 H0 Ha0 Ht0)
    by (simpl; lia).
  cbn [fallbackLoop]. rewrite H1. simpl. unfold secondAttemptOutcome.
  destruct (attempt 1%nat c1 input) as [result|e1]; [auto|].
  destruct (isAuthError e1); [auto|].
  rewrite andb_false_r. auto.
Qed.

Lemma default_list_two_attempts input db base e0 :
  circuitBreakerFailureThreshold cfg = 2 ->
  state (currentState (Some db) (modelKey base)) = CLOSED ->
  failureCount (currentState (Some db) (modelKey base)) = 0 ->
  openedAt (currentState (Some db) (modelKey base)) = None ->
  attempt 0%nat base input = Throw e0 ->
  isTransient e0 = true ->
  nowAtCheck 2 - nowAtFailure 1 < circuitBreakerTimeoutMs cfg ->
  let run := retrying 3 input 0 [base; base; base] (Some db) None [] in
  attempts run = [(0%nat, base); (1%nat, base)]
  /\ outcome run
     = secondAttemptOutcome base (attempt 1%nat base input)
         (fun e1 => if isConfigError e1 then Raised Rethrown e1
                    else Raised Exhausted
                           (exhaustedMessage taskValue task (Some e1))).
Proof.
  intros Hthr Hs Hc Ho Ha0 Ht0 Htime run. subst run.
  (* first attempt *)
  destruct (isCircuitClosed_when_closed cfg (nowAtCheck 0) db (modelKey base) Hs)
    as [db0 [E0 S0]].
  rewrite (retrying_next 3 input 0 base [base; base] (Some db) (Some db0)
             None [] e0 E0 Ha0 Ht0) by (simpl; lia).
  destruct (recordFailure_is_available cfg (nowAtFailure 0) db0 (modelKey base)) as [db1 R1].
  pose proof (recordFailure_available cfg (nowAtFailure 0) db0 (modelKey base)) as S1.
  simpl in S1. rewrite R1 in S1 |- *. rewrite S0, Hc, Hs, Ho, Hthr in S1.
  simpl in S1.
  (* second attempt *)
  assert (Hs1 : state (currentState (Some db1) (modelKey base)) = CLOSED) by now rewrite S1.
  destruct (isCircuitClosed_when_closed cfg (nowAtCheck 1) db1 (modelKey base) Hs1)
    as [db1' [E1 S1']].
  unfold secondAttemptOutcome.
  destruct (attempt 1%nat base input) as [result|e1] eqn:Ha1.
  { rewrite (retrying_success 3 input 1 base [base] (Some db1) (Some db1')
               (Some e0) _ result E1 Ha1). auto. }
  destruct (isAuthError e1) eqn:Eauth.
  { rewrite (retrying_auth 3 input 1 base [base] (Some db1) (Some db1')
               (Some e0) _ e1 E1 Ha1 Eauth). auto. }
  destruct (isConfigError e1) eqn:Econf.
  { rewrite (retrying_rethrow 3 input 1 base [base] (Some db1) (Some db1')
               (Some e0) _ e1 E1 Ha1 Eauth (or_introl Econf)). auto. }
  assert (Ht1 : isTransient e1 = true)
    by (unfold isTransient; now rewrite Eauth, Econf).
  rewrite (retrying_next 3 input 1 base [base] (Some db1) (Some db1')
             (Some e0) _ e1 E1 Ha1 Ht1) by (simpl; lia).
  destruct (recordFailure_is_available cfg (nowAtFailure 1) db1' (modelKey base)) as [db2 R2].
  pose proof (recordFailure_available cfg (nowAtFailure 1) db1' (modelKey base)) as S2.
  simpl in S2. rewrite R2 in S2 |- *. rewrite S1', S1, Hthr in S2.
  simpl in S2.
  (* the third entry is skipped *)
  assert (Hs2 : state (currentState (Some db2) (modelKey base)) = OPEN) by now rewrite S2.
  assert (Ho2 : openedAt (currentState (Some db2) (modelKey base)) = Some (nowAtFailure 1))
    by now rewrite S2.
  destruct (isCircuitClosed_when_open cfg (nowAtCheck 2) db2 (modelKey base)
              (nowAtFailure 1) Hs2 Ho2 Htime) as [db2' [E2 _]].
  rewrite (retrying_skip 3 input 2 base [] (Some db2) (Some db2')
             (Some e1) _ E2).
  cbn. auto.
Qed.

(** C1, as amended (retrying revision).
    - A breaker-available candidate whose attempt fails with a transient
      error (neither authentication nor configuration): when it is not
      the last entry of the resolved list, a failure is recorded for its
      model key and the loop goes on with the next entry; when it is the
      last entry, the run ends there and the provider's error is rethrown
      as it is.
    - With two entries, the first failing transiently and the second
      available to the breaker afterwards, exactly two attempts are made
      and the second's result is the outcome.
    - With the resolver's list (three times the base candidate), a
      threshold of 2, an available store and a key in its default state,
      and the third availability check falling within the timeout of the
      second failure: after a transient failure of the primary, exactly
      two attempts are made; the second's success is returned, its
      authentication or configuration error ends the run, and its
      transient failure opens the circuit, so that the third entry is
      skipped and the exhaustion error carrying the second failure's
      message is raised. *)
Theorem transient_failure_tries_next_candidate :
  (forall total input i c rest redis redis1 lastError tried e,
      isCircuitClosed cfg (nowAtCheck i) redis (modelKey c) = (true, redis1) ->
      attempt i c input = Throw e ->
      isTransient e = true ->
      ((i < total - 1)%nat ->
       retrying total input i (c :: rest) redis lastError tried
       = retrying total input (S i) rest
                  (recordFailure cfg (nowAtFailure i) redis1 (modelKey c))
                  (Some e) (tried ++ [(i, c)]))
      /\ (~ (i < total - 1)%nat ->
          let run := retrying total input i (c :: rest) redis lastError tried in
          outcome run = Raised Rethrown e
          /\ attempts run = (tried ++ [(i, c)])%list))
  /\ (forall input c0 c1 redis redis0 redis1 e0,
      isCircuitClosed cfg (nowAtCheck 0) redis (modelKey c0) = (true, redis0) ->
      attempt 0%nat c0 input = Throw e0 ->
      isTransient e0 = true ->
      isCircuitClosed cfg (nowAtCheck 1)
                      (recordFailure cfg (nowAtFailure 0) redis0 (modelKey c0))
                      (modelKey c1) = (true, redis1) ->
      let run := retrying 2 input 0 [c0; c1] redis None [] in
      attempts run = [(0%nat, c0); (1%nat, c1)]
      /\ outcome run
         = secondAttemptOutcome c1 (attempt 1%nat c1 input) (Raised Rethrown))
  /\ (forall input db primaryModel e0,
      let base :=
        getBaseConfigForTask taskValue TASK_TO_CONFIG_DEFAULTS_MAP env
                             thisConfig task in
      getPrimaryModel = Ok primaryModel ->
      circuitBreakerFailureThreshold cfg = 2 ->
      state (currentState (Some db) (modelKey base)) = CLOSED ->
      failureCount (currentState (Some db) (modelKey base)) = 0 ->
      openedAt (currentState (Some db) (modelKey base)) = None ->
      attempt 0%nat base (sanitizeHistory input) = Throw e0 ->
      isTransient e0 = true ->
      nowAtCheck 2 - nowAtFailure 1 < circuitBreakerTimeoutMs cfg ->
      let run := run_invoke input (Some db) in
      attempts run = [(0%nat, base); (1%nat, base)]
      /\ outcome run
         = secondAttemptOutcome base
             (attempt 1%nat base (sanitizeHistory input))
             (fun e1 => if isConfigError e1 then Raised Rethrown e1
                        else Raised Exhausted
                               (exhaustedMessage taskValue task (Some e1)))).
Proof.
  split; [|split].
  - intros total input i c rest redis redis1 lastError tried e H Ha Ht.
    split.
    + now apply retrying_next.
    + intros Hlast run. subst run.
      rewrite (retrying_rethrow total input i c rest redis redis1 lastError
                 tried e); auto.
      unfold isTransient in Ht. apply andb_true_iff in Ht as [Ht _].
      now apply negb_true_iff in Ht.
  - intros input c0 c1 redis redis0 redis1 e0 H0 Ha0 Ht0 H1.
    exact (two_candidates_two_attempts input c0 c1 redis redis0 redis1 e0
             H0 Ha0 Ht0 H1).
  - intros input db primaryModel e0 base Hpm Hthr Hs Hc Ho Ha0 Ht0 Htime run.
    subst run. unfold invoke. rewrite Hpm.
    unfold getModelConfigs. simpl. fold base.
    exact (default_list_two_attempts (sanitizeHistory input) db base e0
             Hthr Hs Hc Ho Ha0 Ht0 Htime).
Qed.

(** In the fail-fast revision any failure of the first attempted
    candidate that is not an authentication error ends the run with the
    provider's own error; nothing is recorded and nothing is retried. *)
Lemma failFast_first_attempt_failure input remaining :
  forall i0 redis lastError i c e,
  hd_error (attempts (failFast input i0 remaining redis lastError []))
  = Some (i, c) ->
  attempt i c input = Throw e ->
  isAuthError e = false ->
  let run := failFast input i0 remaining redis lastError [] in
  attempts run = [(i, c)] /\ outcome run = Raised Rethrown e.
Proof.
  induction remaining as [|c0 rest IH]; intros i0 redis lastError i c e Hhd Ha He.
  - discriminate.
  - cbn [failFastLoop] in *.
    destruct (isCircuitClosed cfg (nowAtCheck i0) redis (modelKey c0))
      as [closed redis1].
    destruct closed; simpl in *; [|now apply IH].
    destruct (attempt i0 c0 input) as [result|e0] eqn:E0.
    + simpl in Hhd. injection Hhd as <- <-. congruence.
    + destruct (isAuthError e0) eqn:Eauth;
        simpl in Hhd; injection Hhd as <- <-.
      * congruence.
      * assert (e0 = e) by congruence. subst e0. auto.
Qed.

End Loop.

Example plannerBase_value :
  Samples.plannerBase
  = {| provider := "anthropic"; modelName := "claude-sonnet-4-5-20250929";
       temperature := Some 0%Q; maxTokens := Some 10000%Q;
       thinkingModel := Some false; thinkingBudgetTokens := Some 5000%Q;
       max_completion_tokens := None |}.
Proof. reflexivity. Qed.


Lemma transient_failure_tries_next_candidate_witness :
  let run :=
    Samples.plannerInvoke DEFAULT_MODEL_MANAGER_CONFIG Samples.timingOut
                          (Messages []) (Some ∅) in
  attempts run = [(0%nat, Samples.plannerBase); (1%nat, Samples.plannerBase)]
  /\ outcome run
     = Raised Exhausted
         "All fallback models exhausted for task planner. Last error: Request timed out".
Proof.
  intros run.
  destruct (transient_failure_tries_next_candidate
              DEFAULT_MODEL_MANAGER_CONFIG Samples.taskValue Samples.secretsEnv
              Samples.everyoneAllowed Samples.decryptIdentity "API key required"
                Samples.typeError
              PLANNER None Samples.plainSession Samples.timingOut
              Samples.checkClock Samples.failureClock
              Samples.defaults Samples.plainSession (Ok tt)) as [_ [_ H]].
  assert (Htime : Samples.checkClock 2 - Samples.failureClock 1
                  < circuitBreakerTimeoutMs DEFAULT_MODEL_MANAGER_CONFIG)
    by (vm_compute; reflexivity).
  exact (H (Messages []) ∅ tt "Request timed out"
           eq_refl eq_refl eq_refl eq_refl eq_refl eq_refl eq_refl Htime).
Defined.

(** C1, as stated, fails.  With Redis unavailable and a provider that
    keeps timing out, the default resolver's three entries are all
    attempted (not two), nothing is recorded, and the run ends with the
    provider's own error rethrown, not with the exhaustion error.  With
    the store available and a manager whose threshold is three, the
    third entry is attempted as well: its failure is not recorded (two
    failures are counted) and its error is rethrown instead of the
    exhaustion error. *)
Lemma last_transient_failure_is_rethrown :
  isTransient "Request timed out" = true
  /\ (let run :=
        Samples.plannerInvoke DEFAULT_MODEL_MANAGER_CONFIG Samples.timingOut
                              (Messages []) None in
      length (attempts run) = 3%nat
      /\ outcome run = Raised Rethrown "Request timed out"
      /\ redisAfter run = None)
  /\ (let run :=
        Samples.plannerInvoke Samples.patientManager Samples.timingOut
                              (Messages []) (Some ∅) in
      length (attempts run) = 3%nat
      /\ outcome run = Raised Rethrown "Request timed out"
      /\ failureCount
           (currentState (redisAfter run) (modelKey Samples.plannerBase)) = 2).
Proof. vm_compute. repeat split. Qed.

(** The fail-fast revision on the same inputs: one attempt, the
    provider's error rethrown, and no failure counted. *)
Example failFast_rethrows_first_failure :
  let run :=
    Samples.plannerInvokeFailFast DEFAULT_MODEL_MANAGER_CONFIG
                                  Samples.timingOut (Messages []) (Some ∅) in
  length (attempts run) = 1%nat
  /\ outcome run = Raised Rethrown "Request timed out"
  /\ failureCount
       (currentState (redisAfter run) (modelKey Samples.plannerBase)) = 0.
Proof. vm_compute. repeat split. Qed.

End RunnerProps.

(** ** History compaction *)

Module CompactionProps.

Import Compaction.

Lemma eligibleSpan_length log :
  length (eligibleSpan log) = (spanStop log - spanStart log)%nat.
Proof.
  unfold eligibleSpan, spanStop. rewrite length_firstn, length_skipn. lia.
Qed.

Section Monitor.

Variable threshold : Z.
Variable summarize : list Entry -> string.
Variable estimate : list Entry -> Z.

Local Abbreviation compact := (monitorAndCompact threshold summarize estimate).

Lemma monitorAndCompact_below log :
  tokenCount log < threshold -> compact log = mkCompacted log [].
Proof.
  intros H. unfold monitorAndCompact.
  now destruct (Z.ltb_spec (tokenCount log) threshold); [|lia].
Qed.

Lemma monitorAndCompact_entries log :
  threshold <= tokenCount log ->
  eligibleSpan log <> [] ->
  entries (result (compact log))
  = (firstn (spanStart log) (entries log)
     ++ [condensedNotice; summaryEntry (summarize (eligibleSpan log))]
     ++ recentEntries log)%list
  /\ summarizerCalls (compact log) = [eligibleSpan log].
Proof.
  intros Hge Hne. unfold monitorAndCompact.
  destruct (Z.ltb_spec (tokenCount log) threshold); [lia|].
  assert (Hlen : (spanStart log + length (eligibleSpan log)
                  = length (entries log) - KEEP_RECENT)%nat).
  { assert (length (eligibleSpan log) <> 0%nat)
      by (destruct (eligibleSpan log); [congruence | discriminate]).
    rewrite eligibleSpan_length in *. unfold spanStop in *. lia. }
  destruct (eligibleSpan log) as [|e span] eqn:E; [congruence|].
  simpl result. simpl entries. simpl summarizerCalls.
  unfold recentEntries. rewrite <- Hlen. auto.
Qed.

(** C7.  [monitorAndCompact] on the log as the specification describes
    it (the deciding code is not available):
    - below the threshold the log is returned as it is and the
      summarizer is not called;
    - at or above the threshold, with a non-empty eligible span (the
      entries strictly after the last compaction marker and strictly
      before the last 20), the span is replaced by exactly two synthetic
      entries, the summarizer is called once, on the span, and the last
      20 entries of the result are the last 20 entries of the log;
    - a log of 120 entries with 80,001 tokens and no compaction marker,
      under the default threshold of 80,000: the span is the first 100
      entries, the result has 22 entries, and its entries 3 to 22 are
      the entries 101 to 120 of the log. *)
Theorem monitorAndCompact_keeps_recent log :
  (tokenCount log < threshold ->
   compact log = mkCompacted log []
   /\ summarizerCalls (compact log) = [])
  /\ (threshold <= tokenCount log ->
      eligibleSpan log <> [] ->
      entries (result (compact log))
      = (firstn (spanStart log) (entries log)
         ++ [condensedNotice; summaryEntry (summarize (eligibleSpan log))]
         ++ recentEntries log)%list
      /\ summarizerCalls (compact log) = [eligibleSpan log]
      /\ length (entries (result (compact log)))
         = (length (entries log) - length (eligibleSpan log) + 2)%nat
      /\ recentEntries (result (compact log)) = recentEntries log)
  /\ (threshold = MAX_INTERNAL_TOKENS ->
      length (entries log) = 120%nat ->
      tokenCount log = 80001 ->
      lastCompaction log = None ->
      eligibleSpan log = firstn 100 (entries log)
      /\ length (entries (result (compact log))) = 22%nat
      /\ skipn 2 (entries (result (compact log))) = skipn 100 (entries log)).
Proof.
  split; [|split].
  - intros H. rewrite (monitorAndCompact_below log H). auto.
  - intros Hge Hne.
    destruct (monitorAndCompact_entries log Hge Hne) as [He Hc].
    assert (Hspan : (0 < length (eligibleSpan log))%nat)
      by (destruct (eligibleSpan log); [congruence | simpl; lia]).
    pose proof (eligibleSpan_length log) as Hl. unfold spanStop in Hl.
    assert (Hrecent : length (recentEntries log) = KEEP_RECENT).
    { unfold recentEntries. rewrite length_skipn. unfold KEEP_RECENT in *. lia. }
    assert (Hstart : length (firstn (spanStart log) (entries log)) = spanStart log).
    { rewrite length_firstn. lia. }
    split; [exact He|]. split; [exact Hc|]. split.
    + rewrite He, !length_app, Hstart, Hrecent. simpl.
      unfold KEEP_RECENT in *. lia.
    + unfold recentEntries at 1. rewrite He.
      rewrite !length_app, Hstart, Hrecent. simpl length.
      replace (spanStart log + (2 + KEEP_RECENT) - KEEP_RECENT)%nat
        with (length (firstn (spanStart log) (entries log)) + 2)%nat
        by (rewrite Hstart; lia).
      rewrite drop_app_add. reflexivity.
  - intros Hthr Hlen Htok Hmark.
    assert (Hspan : eligibleSpan log = firstn 100 (entries log)).
    { unfold eligibleSpan, spanStop, spanStart. rewrite Hmark, Hlen. reflexivity. }
    assert (Hne : eligibleSpan log <> []).
    { rewrite Hspan. intros Hnil.
      apply (f_equal (@length Entry)) in Hnil.
      rewrite length_firstn, Hlen in Hnil. simpl in Hnil. discriminate. }
    assert (Hge : threshold <= tokenCount log)
      by (rewrite Hthr, Htok; unfold MAX_INTERNAL_TOKENS; lia).
    destruct (monitorAndCompact_entries log Hge Hne) as [He _].
    split; [exact Hspan|].
    rewrite He. unfold spanStart, recentEntries. rewrite Hmark, Hlen. simpl.
    split; [|reflexivity].
    rewrite length_skipn, Hlen. reflexivity.
Qed.

End Monitor.

Lemma monitorAndCompact_keeps_recent_witness :
  let out :=
    monitorAndCompact MAX_INTERNAL_TOKENS (fun span => "summary")
                      (fun entries => 0) Samples.longLog in
  length (entries (result out)) = 22%nat
  /\ skipn 2 (entries (result out)) = skipn 100 (entries Samples.longLog).
Proof.
  intros out.
  destruct (monitorAndCompact_keeps_recent
              MAX_INTERNAL_TOKENS (fun span => "summary") (fun entries => 0)
              Samples.longLog) as [_ [_ H]].
  destruct (H eq_refl eq_refl eq_refl eq_refl) as [_ [H1 H2]].
  split; [exact H1 | exact H2].
Defined.

(** A log that is over the ceiling but has nothing outside its last 20
    entries is left alone. *)
Example monitorAndCompact_short_log :
  let log := {| entries := firstn 5 (entries Samples.longLog);
                tokenCount := 90000; lastCompaction := None |} in
  monitorAndCompact MAX_INTERNAL_TOKENS (fun span => "summary")
                    (fun entries => 0) log
  = mkCompacted log [].
Proof. reflexivity. Qed.

End CompactionProps.

(** ** The circuit breaker: isolation of keys, answers and thresholds *)

Module BreakerLaws.

Import Breaker BreakerProps.

Lemma currentState_save_other redis k k' st :
  k' <> k ->
  currentState (saveCircuitState redis k st) k' = currentState redis k'.
Proof.
  intros Hne. destruct redis as [db|]; [|reflexivity].
  unfold currentState, getCircuitState, saveCircuitState.
  rewrite lookup_insert_ne.
  - now destruct (db !! getCircuitBreakerKey k').
  - intros H. apply getCircuitBreakerKey_inj in H. congruence.
Qed.

(** Reading a key changes what no reader sees: a missing key is
    materialised with the default state, which is what it read as. *)
Lemma currentState_getCircuitState redis k k' :
  currentState (snd (getCircuitState redis k)) k' = currentState redis k'.
Proof.
  destruct redis as [db|]; [|reflexivity].
  destruct (db !! getCircuitBreakerKey k) as [st|] eqn:E.
  - replace (getCircuitState (Some db) k) with (st, Some db); [reflexivity|].
    unfold getCircuitState. now rewrite E.
  - replace (getCircuitState (Some db) k)
      with (defaultState, saveCircuitState (Some db) k defaultState)
      by (unfold getCircuitState; now rewrite E).
    cbn [snd]. destruct (decide (k' = k)) as [->|Hne].
    + rewrite currentState_save. unfold currentState, getCircuitState.
      now rewrite E.
    + now apply currentState_save_other.
Qed.

Lemma recordFailure_other cfg now redis k k' :
  k' <> k ->
  currentState (recordFailure cfg now redis k) k' = currentState redis k'.
Proof.
  intros Hne. unfold recordFailure.
  destruct (getCircuitState redis k) as [st r] eqn:E.
  rewrite currentState_save_other by exact Hne.
  replace r with (snd (getCircuitState redis k)) by now rewrite E.
  apply currentState_getCircuitState.
Qed.

Lemma recordSuccess_other redis k k' :
  k' <> k ->
  currentState (recordSuccess redis k) k' = currentState redis k'.
Proof.
  intros Hne. unfold recordSuccess.
  destruct (getCircuitState redis k) as [st r] eqn:E.
  rewrite currentState_save_other by exact Hne.
  replace r with (snd (getCircuitState redis k)) by now rewrite E.
  apply currentState_getCircuitState.
Qed.

Lemma isCircuitClosed_other cfg now redis k k' :
  k' <> k ->
  currentState (snd (isCircuitClosed cfg now redis k)) k'
  = currentState redis k'.
Proof.
  intros Hne. unfold isCircuitClosed.
  destruct (getCircuitState redis k) as [st r] eqn:E.
  assert (Hr : currentState r k' = currentState redis k').
  { replace r with (snd (getCircuitState redis k)) by now rewrite E.
    apply currentState_getCircuitState. }
  destruct (state st); [exact Hr|].
  destruct (JS.truthy_opt JS.truthy_Z (openedAt st)); [|exact Hr].
  destruct (_ >=? _); [|exact Hr].
  cbn [snd]. now rewrite currentState_save_other.
Qed.

(** X1.  The breaker states of different model keys are independent:
    whatever sequence of [recordFailure], [recordSuccess] and
    [isCircuitClosed] calls is made on other keys, at whatever times and
    under whatever thresholds, the state that a reader of key [k] sees
    afterwards is the state it saw before. *)
Theorem other_keys_untouched cfg ops k : forall redis,
  Forall (fun op =>
            match op with
            | RecordFailure k' _ | RecordSuccess k' | IsCircuitClosed k' _ =>
                k' <> k
            end) ops ->
  currentState (runOps cfg ops redis) k = currentState redis k.
Proof.
  induction ops as [|op ops IH]; intros redis F; [reflexivity|].
  inversion F as [|? ? Hop Hops]; subst.
  unfold runOps in *. cbn [fold_left]. rewrite IH by exact Hops.
  destruct op as [k' now|k'|k' now]; cbn [runOp].
  - apply recordFailure_other. congruence.
  - apply recordSuccess_other. congruence.
  - apply isCircuitClosed_other. congruence.
Qed.

Lemma other_keys_untouched_witness :
  currentState
    (runOps DEFAULT_MODEL_MANAGER_CONFIG
       [RecordFailure "openai:gpt-5-codex" 10;
        RecordFailure "openai:gpt-5-codex" 20;
        IsCircuitClosed "openai:gpt-5-codex" 30;
        RecordSuccess "google-genai:gemini-2.5-pro"]
       (Some ∅))
    "anthropic:claude-sonnet-4-5-20250929"
  = defaultState.
Proof.
  rewrite other_keys_untouched; [reflexivity|].
  repeat constructor; discriminate.
Defined.

(** X2.  The answer of [isCircuitClosed] agrees with the state it
    leaves behind: it answers true exactly when the next reader of the
    key finds the circuit CLOSED (a recovered circuit is stored as
    CLOSED before true is returned, and an OPEN one is never reported
    as usable). *)
Theorem isCircuitClosed_answer_is_stored_state cfg now redis k :
  fst (isCircuitClosed cfg now redis k) = true
  <-> state (currentState (snd (isCircuitClosed cfg now redis k)) k) = CLOSED.
Proof.
  destruct redis as [db|]; [|cbv; tauto].
  unfold isCircuitClosed.
  destruct (getCircuitState_available db k) as [db' [E1 E2]].
  destruct (getCircuitState (Some db) k) as [st r] eqn:E.
  assert (Hst : st = currentState (Some db) k)
    by (unfold currentState; now rewrite E).
  cbn [snd] in E1. subst r.
  assert (Hcur : currentState (Some db') k = st).
  { unfold currentState at 1, getCircuitState. now rewrite E2, Hst. }
  destruct (state st) eqn:Es.
  - cbn [fst snd]. rewrite Hcur, Es. tauto.
  - destruct (JS.truthy_opt JS.truthy_Z (openedAt st));
      [destruct (_ >=? _)|]; cbn [fst snd].
    + rewrite currentState_save. cbn. tauto.
    + rewrite Hcur, Es. split; discriminate.
    + rewrite Hcur, Es. split; discriminate.
Qed.

Lemma runOps_unavailable cfg ops : runOps cfg ops None = None.
Proof.
  induction ops as [|op ops IH]; [reflexivity|].
  unfold runOps in *. cbn [fold_left].
  now destruct op.
Qed.

(** X3.  Without a key-value store the breaker is inert: whatever
    failures were recorded, on whatever keys, nothing is kept and every
    model is reported as usable. *)
Theorem breaker_inert_without_store cfg ops now k :
  runOps cfg ops None = None
  /\ isCircuitClosed cfg now (runOps cfg ops None) k = (true, None).
Proof.
  rewrite runOps_unavailable. split; reflexivity.
Qed.

(** After a success, [n >= 0] further failures on the key. *)
Lemma failures_after_success cfg times : forall db k,
  let st := currentState
              (recordFailures cfg times (recordSuccess (Some db) k) k) k in
  failureCount st = Z.of_nat (length times)
  /\ (times = [] \/ Z.of_nat (length times) < circuitBreakerFailureThreshold cfg ->
      state st = CLOSED /\ openedAt st = None).
Proof.
  induction times as [|t times IH] using rev_ind; intros db k st.
  - subst st. cbn [recordFailures fold_left length].
    destruct (recordSuccess_state (Some db) k) as [H1 [H2 H3]]. auto.
  - subst st. rewrite recordFailures_snoc.
    assert (Hav : exists db0, recordSuccess (Some db) k = Some db0).
    { unfold recordSuccess, getCircuitState.
      destruct (db !! getCircuitBreakerKey k); cbn; eauto. }
    destruct Hav as [db0 E0].
    specialize (IH db k). cbn zeta in IH. rewrite E0 in *.
    destruct (recordFailures_available cfg times db0 k) as [db1 E1].
    rewrite E1 in *. rewrite recordFailure_available. cbn zeta.
    destruct IH as [Hc Hs]. rewrite Hc.
    rewrite length_app. cbn [length].
    replace (Z.of_nat (length times + 1)) with (Z.of_nat (length times) + 1)
      by lia.
    destruct (Z.geb_spec (Z.of_nat (length times) + 1)
                         (circuitBreakerFailureThreshold cfg)) as [Hge|Hlt];
      cbn [failureCount state openedAt].
    + split; [reflexivity|]. intros [Hnil|Hlt]; [|lia].
      now destruct times.
    + split; [reflexivity|]. intros _. apply Hs. right. lia.
Qed.

(** X4.  Failures are counted from the last success, against the
    configured threshold: after [recordSuccess] on a key of an available
    store, [n >= 1] recorded failures leave [failureCount = n] and the
    time of the last one in [lastFailureTime]; the circuit is OPEN, with
    [openedAt] equal to the time of the last failure, when [n] has
    reached the threshold, and CLOSED with [openedAt] absent when it
    has not.  Every failure recorded on an OPEN circuit therefore
    restarts its timeout. *)
Theorem failures_counted_from_last_success cfg db k times t :
  let n := Z.of_nat (length times) + 1 in
  let st :=
    currentState
      (recordFailures cfg (times ++ [t]) (recordSuccess (Some db) k) k) k in
  failureCount st = n
  /\ lastFailureTime st = t
  /\ (if n >=? circuitBreakerFailureThreshold cfg
      then state st = OPEN /\ openedAt st = Some t
      else state st = CLOSED /\ openedAt st = None).
Proof.
  intros n st. subst n st. rewrite recordFailures_snoc.
  assert (Hav : exists db0, recordSuccess (Some db) k = Some db0).
  { unfold recordSuccess, getCircuitState.
    destruct (db !! getCircuitBreakerKey k); cbn; eauto. }
  destruct Hav as [db0 E0].
  pose proof (failures_after_success cfg times db k) as IH.
  cbn zeta in IH. rewrite E0 in *.
  destruct (recordFailures_available cfg times db0 k) as [db1 E1].
  rewrite E1 in *. rewrite recordFailure_available. cbn zeta.
  destruct IH as [Hc Hs]. rewrite Hc.
  destruct (Z.geb_spec (Z.of_nat (length times) + 1)
                       (circuitBreakerFailureThreshold cfg)) as [Hge|Hlt];
    cbn [failureCount state openedAt lastFailureTime].
  - auto.
  - destruct Hs as [Hs1 Hs2]; [right; lia|]. auto.
Qed.

End BreakerLaws.

(** ** Facts about the string primitives *)

Module TextFacts.

Lemma append_cons c s r : String c s +:+ r = String c (s +:+ r).
Proof. reflexivity. Qed.

Lemma append_nil_l r : "" +:+ r = r.
Proof. reflexivity. Qed.

Lemma prefix_app p r : String.prefix p (p +:+ r) = true.
Proof.
  induction p as [|c p IH]; [now destruct r|].
  rewrite append_cons. cbn [String.prefix].
  now destruct (Ascii.ascii_dec c c).
Qed.

Lemma slice_app p r : Text.slice (String.length p) (p +:+ r) = r.
Proof. induction p as [|c p IH]; [reflexivity|exact IH]. Qed.

Lemma prefix_split p : forall s,
  String.prefix p s = true -> s = p +:+ Text.slice (String.length p) s.
Proof.
  induction p as [|c p IH]; intros s H; [reflexivity|].
  destruct s as [|d s]; [discriminate|]. cbn [String.prefix] in H.
  destruct (Ascii.ascii_dec c d) as [->|]; [|discriminate].
  rewrite append_cons. cbn [String.length Text.slice]. f_equal. now apply IH.
Qed.

Lemma replace_unfold pattern replacement s :
  Text.replace pattern replacement s
  = if String.prefix pattern s
    then replacement +:+ Text.slice (String.length pattern) s
    else match s with
         | EmptyString => EmptyString
         | String c rest => String c (Text.replace pattern replacement rest)
         end.
Proof. now destruct s. Qed.

(** Removing a prefix that is there. *)
Lemma replace_prefix p r : Text.replace p "" (p +:+ r) = r.
Proof.
  rewrite replace_unfold, prefix_app, slice_app. reflexivity.
Qed.

Lemma includes_cons c s sub :
  JS.includes (String c s) sub
  = String.prefix sub (String c s) || JS.includes s sub.
Proof. reflexivity. Qed.

Lemma includes_sep_cons sep c p :
  JS.includes (String c p) (String sep "") = false ->
  Ascii.eqb c sep = false /\ JS.includes p (String sep "") = false.
Proof.
  rewrite includes_cons. intros H. apply orb_false_iff in H as [H1 H2].
  split; [|exact H2]. cbn [String.prefix] in H1.
  destruct (Ascii.ascii_dec sep c) as [->|Hne].
  - now destruct p.
  - apply Ascii.eqb_neq. congruence.
Qed.

(** Splitting at the first separator. *)
Lemma split_app_sep sep p r :
  JS.includes p (String sep "") = false ->
  JS.split sep (p +:+ String sep r) = p :: JS.split sep r.
Proof.
  induction p as [|c p IH]; intros H.
  - rewrite append_nil_l. cbn [JS.split]. now rewrite Ascii.eqb_refl.
  - apply includes_sep_cons in H as [Hc Hp].
    rewrite append_cons. cbn [JS.split]. rewrite Hc, IH by exact Hp.
    reflexivity.
Qed.

Lemma split_sep_free sep s :
  JS.includes s (String sep "") = false -> JS.split sep s = [s].
Proof.
  induction s as [|c s IH]; intros H; [reflexivity|].
  apply includes_sep_cons in H as [Hc Hp].
  cbn [JS.split]. now rewrite Hc, IH.
Qed.

Lemma join_cons sep h x t :
  JS.join sep (h :: x :: t) = h +:+ sep +:+ JS.join sep (x :: t).
Proof. reflexivity. Qed.

(** [s.split(sep).join(sep)] is [s]. *)
Lemma join_split sep s : JS.join (String sep "") (JS.split sep s) = s.
Proof.
  induction s as [|c s IH]; [reflexivity|].
  cbn [JS.split]. destruct (Ascii.eqb_spec c sep) as [->|Hne].
  - destruct (JS.split sep s) as [|h t] eqn:E;
      [now apply split_nonempty in E|].
    rewrite join_cons, IH. reflexivity.
  - destruct (JS.split sep s) as [|h t] eqn:E;
      [now apply split_nonempty in E|].
    destruct t as [|x t].
    + cbn in IH. cbn. now rewrite IH.
    + rewrite join_cons in *. rewrite append_cons. now rewrite IH.
Qed.

Lemma append_assoc a b c : (a +:+ b) +:+ c = a +:+ (b +:+ c).
Proof.
  induction a as [|x a IH]; [reflexivity|].
  rewrite !append_cons. now rewrite IH.
Qed.

Lemma length_append a b :
  String.length (a +:+ b) = (String.length a + String.length b)%nat.
Proof.
  induction a as [|x a IH]; [reflexivity|].
  rewrite append_cons. cbn [String.length]. now rewrite IH.
Qed.

Lemma substring_app a b : String.substring 0 (String.length a) (a +:+ b) = a.
Proof.
  induction a as [|x a IH]; [now destruct b|].
  rewrite append_cons. cbn [String.length String.substring]. now rewrite IH.
Qed.

Lemma dropEnd_app a b : Text.dropEnd (String.length b) (a +:+ b) = a.
Proof.
  unfold Text.dropEnd. rewrite length_append.
  replace (String.length a + String.length b - String.length b)%nat
    with (String.length a) by lia.
  apply substring_app.
Qed.

Lemma endsWith_app a b : Text.endsWith (a +:+ b) b = true.
Proof.
  induction a as [|x a IH].
  - rewrite append_nil_l. destruct b; cbn [Text.endsWith];
      now rewrite String.eqb_refl.
  - rewrite append_cons. cbn [Text.endsWith]. rewrite IH.
    apply orb_true_r.
Qed.

(** A string that ends with [suffix] is something followed by it. *)
Lemma endsWith_split s suffix :
  Text.endsWith s suffix = true -> exists a, s = a +:+ suffix.
Proof.
  induction s as [|c s IH]; cbn [Text.endsWith]; intros H.
  - rewrite orb_false_r in H. apply String.eqb_eq in H as <-. now exists "".
  - apply orb_true_iff in H as [H|H].
    + apply String.eqb_eq in H as <-. now exists "".
    + destruct (IH H) as [a ->]. now exists (String c a).
Qed.

(** *** Trimming *)

Lemma string_length_ind (P : string -> Prop) :
  (forall s, (forall r, (String.length r < String.length s)%nat -> P r) -> P s) ->
  forall s, P s.
Proof.
  intros H s. remember (String.length s) as n eqn:En. revert s En.
  induction n as [n IH] using lt_wf_ind. intros s ->.
  apply H. intros r Hr. exact (IH _ Hr r eq_refl).
Qed.

Lemma append_eq_nil a b : a +:+ b = "" -> a = "" /\ b = "".
Proof. destruct a; [auto|discriminate]. Qed.

Lemma includes_comma_cons c p :
  JS.includes (String c p) "," = Ascii.eqb c "," || JS.includes p ",".
Proof.
  rewrite includes_cons. f_equal. cbn [String.prefix].
  destruct (Ascii.ascii_dec "," c) as [<-|Hne].
  - now destruct p.
  - symmetry. apply Ascii.eqb_neq. congruence.
Qed.

Lemma includes_comma_app p r :
  JS.includes (p +:+ r) "," = JS.includes p "," || JS.includes r ",".
Proof.
  induction p as [|c p IH].
  - rewrite append_nil_l. reflexivity.
  - rewrite append_cons, !includes_comma_cons, IH. now rewrite orb_assoc.
Qed.

Lemma byte_in_not_comma lo hi c :
  Init.byte_in lo hi c = true -> (hi < 44 \/ 44 < lo)%nat ->
  Ascii.eqb c "," = false.
Proof.
  unfold Init.byte_in. intros H Hc. apply Ascii.eqb_neq. intros ->.
  change (nat_of_ascii ",") with 44%nat in H.
  apply andb_true_iff in H as [H1 H2].
  apply Nat.leb_le in H1, H2. lia.
Qed.

Ltac bytes H :=
  match type of H with
  | (_ || _) = true =>
      apply orb_true_iff in H; destruct H as [H|H]; bytes H
  | (_ && _) = true =>
      let H' := fresh "Hb" in
      apply andb_true_iff in H; destruct H as [H H']; bytes H; bytes H'
  | _ => idtac
  end.

Ltac not_comma :=
  eapply byte_in_not_comma; [eassumption|lia].

(** A white-space code point at the head of [s]: its bytes, none of
    which is a comma, and what follows. *)
Lemma space_width_split s w :
  Init.space_width s = S w ->
  exists p r,
    s = p +:+ r
    /\ String.length p = S w
    /\ JS.includes p "," = false
    /\ forall q, Init.space_width (p +:+ q) = S w.
Proof.
  unfold Init.space_width. destruct s as [|a s]; [discriminate|].
  destruct (Init.byte_in 9 13 a || Init.byte_in 32 32 a) eqn:E1.
  { intros [= <-]. exists (String a ""), s.
    split; [reflexivity|]. split; [reflexivity|]. split.
    - rewrite includes_comma_cons, orb_false_r. bytes E1; not_comma.
    - intros q. change (String a "" +:+ q) with (String a q).
      unfold Init.space_width. cbv beta iota. now rewrite E1. }
  destruct s as [|b s]; [discriminate|].
  destruct (Init.byte_in 194 194 a && Init.byte_in 160 160 b) eqn:E2.
  { intros [= <-]. exists (String a (String b "")), s.
    split; [reflexivity|]. split; [reflexivity|]. split.
    - rewrite !includes_comma_cons, orb_false_r. bytes E2.
      apply orb_false_iff. split; not_comma.
    - intros q.
      change (String a (String b "") +:+ q) with (String a (String b q)).
      unfold Init.space_width. cbv beta iota. now rewrite E1, E2. }
  destruct s as [|c s]; [discriminate|].
  match goal with
  | |- (if ?test then _ else _) = _ -> _ => destruct test eqn:E3
  end; [|discriminate].
  intros [= <-]. exists (String a (String b (String c ""))), s.
  split; [reflexivity|]. split; [reflexivity|]. split.
  - rewrite !includes_comma_cons, orb_false_r. bytes E3;
      (apply orb_false_iff; split; [|apply orb_false_iff; split]); not_comma.
  - intros q.
    change (String a (String b (String c "")) +:+ q)
      with (String a (String b (String c q))).
    unfold Init.space_width. cbv beta iota. now rewrite E1, E2, E3.
Qed.

Lemma blank_from_skip p r :
  Init.blank_from (String.length p) (p +:+ r) = Init.blank_from 0 r.
Proof. induction p as [|c p IH]; [reflexivity|exact IH]. Qed.

Lemma trimStart_from_skip p r :
  Text.trimStart_from (String.length p) (p +:+ r) = Text.trimStart_from 0 r.
Proof. induction p as [|c p IH]; [reflexivity|exact IH]. Qed.

(** The three shapes of a string: empty, starting with something else
    than white space, or a white-space code point and a shorter rest. *)
Lemma space_cases s :
  s = ""
  \/ (s <> "" /\ Init.space_width s = 0%nat)
  \/ exists p r,
       s = p +:+ r
       /\ (String.length r < String.length s)%nat
       /\ JS.includes p "," = false
       /\ (forall q, Init.space_width (p +:+ q) = String.length p
                     /\ Init.blank (p +:+ q) = Init.blank q
                     /\ Text.trimStart (p +:+ q) = Text.trimStart q).
Proof.
  destruct s as [|a s]; [now left|]. right.
  destruct (Init.space_width (String a s)) as [|w] eqn:E.
  - left. split; [discriminate|reflexivity].
  - right. destruct (space_width_split _ _ E) as [p [r [Hs [Hl [Hc Hq]]]]].
    exists p, r. split; [exact Hs|]. split.
    { rewrite Hs, length_append. lia. }
    split; [exact Hc|]. intros q. specialize (Hq q).
    rewrite Hl. split; [exact Hq|].
    destruct p as [|b p]; [discriminate|]. injection Hl as Hl.
    rewrite append_cons in *.
    unfold Init.blank, Text.trimStart.
    cbn [Init.blank_from Text.trimStart_from]. rewrite Hq, <- Hl.
    now rewrite blank_from_skip, trimStart_from_skip.
Qed.

Lemma blank_no_space s :
  s <> "" -> Init.space_width s = 0%nat -> Init.blank s = false.
Proof.
  intros Hne H. destruct s as [|c s]; [congruence|].
  unfold Init.blank. cbn [Init.blank_from]. now rewrite H.
Qed.

Lemma trimStart_no_space s :
  Init.space_width s = 0%nat -> Text.trimStart s = s.
Proof.
  intros H. destruct s as [|c s]; [reflexivity|].
  unfold Text.trimStart. cbn [Text.trimStart_from]. now rewrite H.
Qed.

Lemma space_width_app s q w :
  Init.space_width s = S w -> Init.space_width (s +:+ q) = S w.
Proof.
  intros H. destruct (space_width_split _ _ H) as [p [r [-> [_ [_ Hq]]]]].
  rewrite append_assoc. apply Hq.
Qed.

Lemma trimStart_blank s : Text.trimStart s = "" <-> Init.blank s = true.
Proof.
  induction s as [s IH] using string_length_ind.
  destruct (space_cases s) as [->|[[Hne H]|[p [r [-> [Hl [_ Hq]]]]]]].
  - easy.
  - rewrite (trimStart_no_space s H), (blank_no_space s Hne H). easy.
  - destruct (Hq r) as [_ [-> ->]]. exact (IH r Hl).
Qed.

(** What [trimStart] leaves does not start with white space. *)
Lemma trimStart_head s :
  Text.trimStart s = ""
  \/ (Text.trimStart s <> "" /\ Init.space_width (Text.trimStart s) = 0%nat).
Proof.
  induction s as [s IH] using string_length_ind.
  destruct (space_cases s) as [->|[[Hne H]|[p [r [-> [Hl [_ Hq]]]]]]].
  - now left.
  - right. now rewrite (trimStart_no_space s H).
  - destruct (Hq r) as [_ [_ ->]]. exact (IH r Hl).
Qed.

(** White space followed by white space is white space. *)
Lemma blank_app a q :
  Init.blank a = true -> Init.blank q = true -> Init.blank (a +:+ q) = true.
Proof.
  induction a as [a IH] using string_length_ind. intros Ha Hb.
  destruct (space_cases a) as [->|[[Hne H]|[p [r [-> [Hl [_ Hq]]]]]]].
  - exact Hb.
  - rewrite (blank_no_space a Hne H) in Ha. discriminate.
  - rewrite append_assoc. destruct (Hq (r +:+ q)) as [_ [-> _]].
    destruct (Hq r) as [_ [Hr _]]. rewrite Hr in Ha. now apply IH.
Qed.

Lemma trimEnd_unfold s :
  Text.trimEnd s
  = if Init.blank s then ""
    else match s with
         | EmptyString => EmptyString
         | String c rest => String c (Text.trimEnd rest)
         end.
Proof. now destruct s. Qed.

(** [trimEnd] cuts off a run of white space. *)
Lemma trimEnd_split s :
  exists q, s = Text.trimEnd s +:+ q /\ Init.blank q = true.
Proof.
  induction s as [|c s IH]; [now exists ""|].
  rewrite trimEnd_unfold. destruct (Init.blank (String c s)) eqn:E.
  - now exists (String c s).
  - destruct IH as [q [Hs Hq]]. exists q. split; [|exact Hq].
    rewrite append_cons. now rewrite <- Hs.
Qed.

(** What [trimEnd] leaves does not end with white space. *)
Lemma trimEnd_suffix s : forall a b,
  Text.trimEnd s = a +:+ b -> b <> "" -> Init.blank b = false.
Proof.
  induction s as [|c s IH]; intros a b H Hne.
  - symmetry in H. apply append_eq_nil in H as [_ H]. congruence.
  - rewrite trimEnd_unfold in H.
    destruct (Init.blank (String c s)) eqn:E.
    + symmetry in H. apply append_eq_nil in H as [_ H]. congruence.
    + destruct a as [|a0 a].
      * rewrite append_nil_l in H. subst b.
        destruct (Init.blank (String c (Text.trimEnd s))) eqn:Eb;
          [|reflexivity].
        destruct (trimEnd_split s) as [q [Hs Hq]].
        pose proof (blank_app _ q Eb Hq) as Hall.
        rewrite append_cons, <- Hs in Hall. congruence.
      * rewrite append_cons in H. injection H as _ H. now apply (IH a b).
Qed.

Lemma trimEnd_fixed p :
  (forall a b, p = a +:+ b -> b <> "" -> Init.blank b = false) ->
  Text.trimEnd p = p.
Proof.
  induction p as [|c p IH]; intros H; [reflexivity|].
  rewrite trimEnd_unfold.
  rewrite (H "" (String c p) eq_refl) by discriminate.
  f_equal. apply IH. intros a b -> Hne.
  now apply (H (String c a) b).
Qed.

Lemma trimEnd_idempotent s : Text.trimEnd (Text.trimEnd s) = Text.trimEnd s.
Proof. apply trimEnd_fixed. intros a b. apply trimEnd_suffix. Qed.

Lemma trimStart_trimEnd x :
  Init.space_width x = 0%nat ->
  Text.trimStart (Text.trimEnd x) = Text.trimEnd x.
Proof.
  intros H. apply trimStart_no_space.
  destruct (Init.space_width (Text.trimEnd x)) as [|w] eqn:E; [reflexivity|].
  destruct (trimEnd_split x) as [q [Hx _]].
  apply (space_width_app _ q) in E. rewrite <- Hx in E. congruence.
Qed.

Lemma trim_blank s : Text.trim s = "" <-> Init.has_visible_char s = false.
Proof.
  unfold Init.has_visible_char. rewrite negb_false_iff, <- trimStart_blank.
  unfold Text.trim.
  destruct (trimStart_head s) as [E|[Hne Hw]]; [now rewrite E|].
  rewrite trimEnd_unfold, (blank_no_space _ Hne Hw).
  destruct (Text.trimStart s); easy.
Qed.

Lemma trim_idempotent s : Text.trim (Text.trim s) = Text.trim s.
Proof.
  unfold Text.trim.
  destruct (trimStart_head s) as [E|[_ Hw]]; [now rewrite E|].
  rewrite (trimStart_trimEnd _ Hw). apply trimEnd_idempotent.
Qed.

(** A blank string holds no comma. *)
Lemma blank_without_comma s :
  Init.has_visible_char s = false -> JS.includes s "," = false.
Proof.
  unfold Init.has_visible_char. rewrite negb_false_iff.
  induction s as [s IH] using string_length_ind. intros Hb.
  destruct (space_cases s) as [->|[[Hne H]|[p [r [-> [Hl [Hc Hq]]]]]]].
  - reflexivity.
  - rewrite (blank_no_space s Hne H) in Hb. discriminate.
  - destruct (Hq r) as [_ [Hr _]]. rewrite Hr in Hb.
    rewrite includes_comma_app, Hc, (IH r Hl Hb). reflexivity.
Qed.

End TextFacts.

(** ** The monitoring view of the breaker *)

Module MonitoringProps.

Import Breaker Monitoring BreakerProps TextFacts.

Lemma keys_spec db prefix key :
  key ∈ keys db prefix
  <-> is_Some (db !! key) /\ JS.startsWith key prefix = true.
Proof.
  unfold keys. rewrite list_elem_of_In, filter_In, <- list_elem_of_In.
  change (List.map fst (map_to_list db)) with ((map_to_list db).*1).
  rewrite list_elem_of_fmap. split.
  - intros [[[key' st] [-> Hin]] Hp]. apply elem_of_map_to_list in Hin.
    cbn. eauto.
  - intros [[st Hst] Hp]. split; [|exact Hp].
    exists (key, st). split; [reflexivity|]. now apply elem_of_map_to_list.
Qed.

Lemma keys_NoDup db prefix : NoDup (keys db prefix).
Proof.
  unfold keys. apply NoDup_ListNoDup, List.NoDup_filter, NoDup_ListNoDup.
  apply NoDup_fst_map_to_list.
Qed.

Lemma status_fold (db : gmap string CircuitBreakerState) (k : string) :
  forall (l : list string) (acc : gmap string CircuitBreakerState),
  NoDup l ->
  (forall key, key ∈ l ->
     is_Some (db !! key) /\ JS.startsWith key CIRCUIT_BREAKER_PREFIX = true) ->
  fold_left
    (fun statusMap key =>
       let modelKey := Text.replace CIRCUIT_BREAKER_PREFIX "" key in
       match db !! key with
       | Some st => <[modelKey := st]> statusMap
       | None => statusMap
       end) l acc !! k
  = if decide (getCircuitBreakerKey k ∈ l)
    then db !! getCircuitBreakerKey k
    else acc !! k.
Proof.
  induction l as [|key0 l IH]; intros acc Hnd Hl; [reflexivity|].
  apply NoDup_cons in Hnd as [Hnot Hnd]. cbn [fold_left].
  rewrite IH by (auto; intros; apply Hl; now right).
  destruct (Hl key0) as [[st0 E0] Hp0]; [now left|].
  apply prefix_split in Hp0.
  remember (Text.slice (String.length CIRCUIT_BREAKER_PREFIX) key0) as r
    eqn:Er.
  clear Er. subst key0. rewrite E0, replace_prefix.
  change (CIRCUIT_BREAKER_PREFIX +:+ r) with (getCircuitBreakerKey r) in *.
  destruct (decide (k = r)) as [->|Hne].
  - rewrite decide_False by exact Hnot.
    rewrite decide_True by now left.
    now rewrite lookup_insert_eq.
  - assert (Hkey : getCircuitBreakerKey k <> getCircuitBreakerKey r).
    { intros H. apply getCircuitBreakerKey_inj in H. congruence. }
    destruct (decide (getCircuitBreakerKey k ∈ l)) as [Hin|Hout].
    + rewrite decide_True by now right. reflexivity.
    + rewrite decide_False by (intros Hc; apply elem_of_cons in Hc; tauto).
      rewrite lookup_insert_ne by congruence. reflexivity.
Qed.

(** X5.  The monitoring view mirrors the store: [getCircuitBreakerStatus]
    maps a model key to exactly the breaker state stored under
    [circuit_breaker:<model key>] (no entry where none is stored), and
    is empty when the key-value store is unavailable.  In particular a
    failure that has just been recorded on an available store is
    visible under its model key. *)
Theorem getCircuitBreakerStatus_mirrors_store redis k cfg now :
  getCircuitBreakerStatus redis !! k
  = match redis with
    | Some db => db !! getCircuitBreakerKey k
    | None => None
    end
  /\ (forall db,
        getCircuitBreakerStatus (recordFailure cfg now (Some db) k) !! k
        = Some (currentState (recordFailure cfg now (Some db) k) k)).
Proof.
  assert (Hmirror : forall db,
    getCircuitBreakerStatus (Some db) !! k = db !! getCircuitBreakerKey k).
  { intros db. unfold getCircuitBreakerStatus.
    rewrite status_fold.
    - destruct (decide (getCircuitBreakerKey k ∈ keys db CIRCUIT_BREAKER_PREFIX))
        as [Hin|Hout]; [reflexivity|].
      rewrite lookup_empty.
      destruct (db !! getCircuitBreakerKey k) as [st|] eqn:E; [|reflexivity].
      exfalso. apply Hout, keys_spec. split; [eauto|].
      apply prefix_app.
    - apply keys_NoDup.
    - intros key. apply keys_spec. }
  split.
  - destruct redis as [db|]; [apply Hmirror | apply lookup_empty].
  - intros db. unfold recordFailure.
    destruct (getCircuitState (Some db) k) as [st r] eqn:E.
    destruct (getCircuitState_available db k) as [db' [E1 _]].
    rewrite E in E1. cbn [snd] in E1. subst r.
    cbn [saveCircuitState]. rewrite Hmirror, lookup_insert_eq.
    unfold currentState, getCircuitState. now rewrite lookup_insert_eq.
Qed.

End MonitoringProps.

(** ** Model resolution: priorities and the parsing of model strings *)

Module ResolverLaws.

Import Resolver ResolverParts Monitoring TextFacts.

Section Laws.

Variable taskValue : LLMTask -> string.

Lemma getBaseConfigForTask_parts tbl env config task :
  getBaseConfigForTask taskValue tbl env config task
  = parseModel (requestedModel taskValue tbl env config task)
      (JS.nullish (numberProp config (taskValue task +:+ "Temperature")) 0%Q)
      (JS.nullish (numberProp config "maxTokens") 10000%Q).
Proof. reflexivity. Qed.

Lemma requestedModel_explicit tbl env config task s :
  stringProp config (taskValue task +:+ "ModelName") = Some s ->
  requestedModel taskValue tbl env config task = s.
Proof. intros H. unfold requestedModel. now rewrite H. Qed.

Lemma requestedModel_unpinned tbl env config task :
  stringProp config "modelProvider" = None ->
  requestedModel taskValue tbl env config task
  = getModelNameForTask taskValue tbl env config task.
Proof. intros H. unfold requestedModel, getModelNameForTask. now rewrite H. Qed.

(** What is parsed is the string itself unless it is one of the six
    deprecated Bedrock identifiers. *)
Lemma parseModel_modelStr s :
  oldToNewMappings s = None ->
  (if JS.includes s "bedrock:" then JS.nullish (oldToNewMappings s) s else s)
  = s.
Proof. intros H. rewrite H. now destruct (JS.includes s "bedrock:"). Qed.

Lemma parseModel_plain p r t m :
  JS.includes p ":" = false ->
  oldToNewMappings (p +:+ ":" +:+ r) = None ->
  hd "" (JS.split ":" r) <> "extended-thinking" ->
  provider (parseModel (p +:+ ":" +:+ r) t m) = p
  /\ modelName (parseModel (p +:+ ":" +:+ r) t m) = r.
Proof.
  intros Hp Hmap Hplain. unfold parseModel.
  rewrite (parseModel_modelStr _ Hmap).
  change (p +:+ ":" +:+ r) with (p +:+ String ":" r).
  rewrite (split_app_sep ":" p r Hp). cbn [hd tl].
  destruct (JS.split ":" r) as [|h t0] eqn:E;
    [now apply split_nonempty in E|].
  cbn [hd] in Hplain. apply String.eqb_neq in Hplain. rewrite Hplain.
  rewrite <- E, (join_split ":" r).
  now destruct (JS.includes r "gpt-5").
Qed.

Lemma parseModel_extended p r t m :
  JS.includes p ":" = false ->
  oldToNewMappings (p +:+ ":extended-thinking:" +:+ r) = None ->
  provider (parseModel (p +:+ ":extended-thinking:" +:+ r) t m) = p
  /\ modelName (parseModel (p +:+ ":extended-thinking:" +:+ r) t m) = r
  /\ thinkingModel (parseModel (p +:+ ":extended-thinking:" +:+ r) t m)
     = Some true.
Proof.
  intros Hp Hmap. unfold parseModel.
  rewrite (parseModel_modelStr _ Hmap).
  change (p +:+ ":extended-thinking:" +:+ r)
    with (p +:+ String ":" ("extended-thinking" +:+ String ":" r)).
  rewrite (split_app_sep ":" p _ Hp).
  rewrite (split_app_sep ":" "extended-thinking" r eq_refl).
  cbn [hd tl]. rewrite String.eqb_refl. cbn [tl].
  rewrite (join_split ":" r).
  destruct (String.eqb p "openai" && JS.startsWith r "o");
    now destruct (JS.includes r "gpt-5").
Qed.

Lemma parseModel_no_colon s t m :
  JS.includes s ":" = false ->
  oldToNewMappings s = None ->
  provider (parseModel s t m) = s /\ modelName (parseModel s t m) = "".
Proof.
  intros Hs Hmap. unfold parseModel.
  rewrite (parseModel_modelStr _ Hmap), (split_sep_free ":" s Hs).
  cbn. auto.
Qed.

(** X6.  An explicit per-task model name has the highest priority: when
    [<task>ModelName] is present in the session configuration, the
    resolved candidate depends only on that string, on
    [<task>Temperature] and on [maxTokens].  A pinned [modelProvider],
    the [DEFAULT_<TASK>_MODEL] and [FALLBACK_..._MODEL] environment
    variables and the table of defaults have no influence. *)
Theorem explicit_model_overrides_provider_and_environment
        tbl1 tbl2 env1 env2 config1 config2 task s :
  stringProp config1 (taskValue task +:+ "ModelName") = Some s ->
  stringProp config2 (taskValue task +:+ "ModelName") = Some s ->
  numberProp config1 (taskValue task +:+ "Temperature")
  = numberProp config2 (taskValue task +:+ "Temperature") ->
  numberProp config1 "maxTokens" = numberProp config2 "maxTokens" ->
  getBaseConfigForTask taskValue tbl1 env1 config1 task
  = getBaseConfigForTask taskValue tbl2 env2 config2 task.
Proof.
  intros H1 H2 Ht Hm. rewrite !getBaseConfigForTask_parts.
  rewrite (requestedModel_explicit tbl1 env1 config1 task s H1).
  rewrite (requestedModel_explicit tbl2 env2 config2 task s H2).
  now rewrite Ht, Hm.
Qed.

Lemma getDefaultModelForProvider_known env p task :
  In p ["anthropic"; "openai"; "google-genai"; "bedrock"] ->
  getDefaultModelForProvider taskValue env p task
  = Some {| provider := p;
            modelName :=
              getModelFromEnv taskValue env p task
                (JS.nullish (hardcodedDefaults p task) "");
            temperature := None; maxTokens := None; thinkingModel := None;
            thinkingBudgetTokens := None; max_completion_tokens := None |}.
Proof.
  intros Hin. cbn [In] in Hin.
  destruct Hin as [<-|[<-|[<-|[<-|[]]]]]; destruct task; reflexivity.
Qed.

(** The provider of the candidate is what precedes the first colon. *)
Lemma parseModel_provider p r t m :
  JS.includes p ":" = false ->
  provider (parseModel (p +:+ ":" +:+ r) t m) = p.
Proof.
  intros Hp.
  assert (Hsplit : JS.split ":" (p +:+ ":" +:+ r) = p :: JS.split ":" r)
    by exact (split_app_sep ":" p r Hp).
  unfold parseModel.
  set (s := p +:+ ":" +:+ r) in *.
  assert (Hhd : hd "" (JS.split ":"
            (if JS.includes s "bedrock:"
             then JS.nullish (oldToNewMappings s) s else s)) = p).
  { destruct (oldToNewMappings s) as [mapped|] eqn:Hmap.
    - assert (Hb : p = "bedrock" /\ mapped
                   = "bedrock:anthropic.claude-3-5-haiku-20241022-v1:0").
      { unfold oldToNewMappings in Hmap.
        destruct (String.eqb_spec s
          "bedrock:anthropic.claude-haiku-4-5-20251001-v1:0") as [E|_];
        [|destruct (String.eqb_spec s
          "bedrock:anthropic.claude-sonnet-4-5-20250929-v1:0") as [E|_];
        [|destruct (String.eqb_spec s
          "bedrock:anthropic.claude-opus-4-5-20251101-v1:0") as [E|_];
        [|destruct (String.eqb_spec s
          "bedrock:us.anthropic.claude-haiku-4-5-20251001-v1:0") as [E|_];
        [|destruct (String.eqb_spec s
          "bedrock:us.anthropic.claude-sonnet-4-5-20250929-v1:0") as [E|_];
        [|destruct (String.eqb_spec s
          "bedrock:us.anthropic.claude-opus-4-5-20251101-v1:0") as [E|_];
        [|discriminate]]]]]];
        cbn in Hmap; injection Hmap as <-; rewrite E in Hsplit;
        cbn in Hsplit; injection Hsplit as <- _; auto. }
      destruct Hb as [-> ->].
      now destruct (JS.includes s "bedrock:"); [|rewrite Hsplit].
    - cbn [JS.nullish]. destruct (JS.includes s "bedrock:");
        now rewrite Hsplit. }
  now destruct (JS.includes _ "gpt-5").
Qed.

(** X7.  A pinned provider comes second: with no explicit model name
    for the task and [modelProvider] set to one of the four supported
    providers, the candidate's provider is the pinned one, and the model
    is that provider's default for the task, read from
    [FALLBACK_<PROVIDER>_<TASK>_MODEL] or the built-in table; neither
    [DEFAULT_<TASK>_MODEL] nor the table of task defaults is
    consulted. *)
Theorem pinned_provider_decides_the_provider tbl tbl' env env' config task p :
  In p ["anthropic"; "openai"; "google-genai"; "bedrock"] ->
  stringProp config "modelProvider" = Some p ->
  stringProp config (taskValue task +:+ "ModelName") = None ->
  provider (getBaseConfigForTask taskValue tbl env config task) = p
  /\ (env' !! fallbackEnvKey taskValue p task
      = env !! fallbackEnvKey taskValue p task ->
      getBaseConfigForTask taskValue tbl' env' config task
      = getBaseConfigForTask taskValue tbl env config task).
Proof.
  intros Hin Hp Hn.
  assert (Hreq : forall tbl0 env0,
    requestedModel taskValue tbl0 env0 config task
    = p +:+ ":" +:+ getModelFromEnv taskValue env0 p task
                      (JS.nullish (hardcodedDefaults p task) "")).
  { intros tbl0 env0. unfold requestedModel. rewrite Hp, Hn.
    cbn [JS.nullish JS.truthy_opt negb].
    rewrite (getDefaultModelForProvider_known env0 p task Hin).
    assert (Ht : JS.truthy_string p = true)
      by (cbn [In] in Hin; destruct Hin as [<-|[<-|[<-|[<-|[]]]]]; reflexivity).
    rewrite Ht. reflexivity. }
  split.
  - rewrite getBaseConfigForTask_parts, Hreq. apply parseModel_provider.
    cbn [In] in Hin. destruct Hin as [<-|[<-|[<-|[<-|[]]]]]; reflexivity.
  - intros Henv. rewrite !getBaseConfigForTask_parts, !Hreq.
    unfold getModelFromEnv. now rewrite Henv.
Qed.

Lemma oldToNewMappings_extended p r :
  JS.includes p ":" = false ->
  oldToNewMappings (p +:+ ":extended-thinking:" +:+ r) = None.
Proof.
  intros Hp.
  assert (Hsplit : JS.split ":" (p +:+ ":extended-thinking:" +:+ r)
                   = p :: "extended-thinking" :: JS.split ":" r).
  { change (p +:+ ":extended-thinking:" +:+ r)
      with (p +:+ String ":" ("extended-thinking" +:+ String ":" r)).
    rewrite (split_app_sep ":" p _ Hp).
    now rewrite (split_app_sep ":" "extended-thinking" r eq_refl). }
  set (s := p +:+ ":extended-thinking:" +:+ r) in *.
  unfold oldToNewMappings.
  destruct (String.eqb_spec s
    "bedrock:anthropic.claude-haiku-4-5-20251001-v1:0") as [E|_];
  [|destruct (String.eqb_spec s
    "bedrock:anthropic.claude-sonnet-4-5-20250929-v1:0") as [E|_];
  [|destruct (String.eqb_spec s
    "bedrock:anthropic.claude-opus-4-5-20251101-v1:0") as [E|_];
  [|destruct (String.eqb_spec s
    "bedrock:us.anthropic.claude-haiku-4-5-20251001-v1:0") as [E|_];
  [|destruct (String.eqb_spec s
    "bedrock:us.anthropic.claude-sonnet-4-5-20250929-v1:0") as [E|_];
  [|destruct (String.eqb_spec s
    "bedrock:us.anthropic.claude-opus-4-5-20251101-v1:0") as [E|_];
  [|reflexivity]]]]]];
  rewrite E in Hsplit; cbn in Hsplit; discriminate.
Qed.

(** X8.  How a model string is split, when no provider is pinned and
    the string returned by [getModelNameForTask] is not one of the
    deprecated Bedrock identifiers: the provider is what precedes the
    first colon and the model name is everything after it, further
    colons included, so that the breaker key [provider:modelName] is the
    configured string itself (unless the second segment is
    [extended-thinking]).  A string without any colon becomes the
    provider as a whole, with an empty model name. *)
Theorem model_string_splits_at_first_colon tbl env config task :
  stringProp config "modelProvider" = None ->
  oldToNewMappings (getModelNameForTask taskValue tbl env config task) = None ->
  let s := getModelNameForTask taskValue tbl env config task in
  let base := getBaseConfigForTask taskValue tbl env config task in
  (forall p r,
     s = p +:+ ":" +:+ r ->
     JS.includes p ":" = false ->
     hd "" (JS.split ":" r) <> "extended-thinking" ->
     provider base = p /\ modelName base = r /\ modelKey base = s)
  /\ (JS.includes s ":" = false -> provider base = s /\ modelName base = "").
Proof.
  intros Hpin Hmap s base. subst s base.
  rewrite getBaseConfigForTask_parts, (requestedModel_unpinned _ _ _ _ Hpin).
  split.
  - intros p r Hs Hp Hplain. rewrite Hs in *.
    destruct (parseModel_plain p r
                (JS.nullish
                   (numberProp config (taskValue task +:+ "Temperature")) 0%Q)
                (JS.nullish (numberProp config "maxTokens") 10000%Q)
                Hp Hmap Hplain) as [H1 H2].
    unfold modelKey. rewrite H1, H2. auto.
  - intros Hs. now apply parseModel_no_colon.
Qed.

(** X9.  The [extended-thinking] segment: when no provider is pinned
    and the model string is [<provider>:extended-thinking:<name>], the
    candidate has that provider, the model name [<name>] without the
    segment, and is marked as a thinking model. *)
Theorem extended_thinking_segment_is_stripped tbl env config task p r :
  stringProp config "modelProvider" = None ->
  getModelNameForTask taskValue tbl env config task
  = p +:+ ":extended-thinking:" +:+ r ->
  JS.includes p ":" = false ->
  let base := getBaseConfigForTask taskValue tbl env config task in
  provider base = p /\ modelName base = r /\ thinkingModel base = Some true
  /\ modelKey base = p +:+ ":" +:+ r.
Proof.
  intros Hpin Hs Hp base. subst base.
  rewrite getBaseConfigForTask_parts, (requestedModel_unpinned _ _ _ _ Hpin).
  rewrite Hs.
  destruct (parseModel_extended p r
              (JS.nullish
                 (numberProp config (taskValue task +:+ "Temperature")) 0%Q)
              (JS.nullish (numberProp config "maxTokens") 10000%Q)
              Hp (oldToNewMappings_extended p r Hp)) as [H1 [H2 H3]].
  unfold modelKey. rewrite H1, H2. auto.
Qed.

(** X10.  The catalogue offered for a manual choice: whatever the task,
    the environment and the provider that failed, [getAllAvailableModels]
    lists exactly one model for each of anthropic, openai and
    google-genai, in this order and with a non-empty model name; Bedrock
    is never offered and the failed provider is not left out. *)
Theorem getAllAvailableModels_three_providers env task currentProvider :
  let models := getAllAvailableModels taskValue env task currentProvider in
  List.map provider models = ["anthropic"; "openai"; "google-genai"]
  /\ Forall (fun m => modelName m <> "") models.
Proof.
  intros models. subst models. unfold getAllAvailableModels.
  cbn [fold_left].
  rewrite !getDefaultModelForProvider_known by (cbn; tauto).
  cbn [app List.map provider]. split; [reflexivity|].
  repeat constructor; cbn [modelName]; unfold getModelFromEnv;
    match goal with
    | |- context [env !! ?k] => destruct (env !! k) as [[|c v]|]
    end; cbn; try discriminate; destruct task; discriminate.
Qed.

End Laws.

Lemma explicit_model_overrides_provider_and_environment_witness :
  getBaseConfigForTask Samples.taskValue Samples.defaults
    {["DEFAULT_PLANNER_MODEL" := "openai:gpt-5"]}
    (Samples.configurableWith
       {["plannerModelName" := "google-genai:gemini-2.5-pro";
         "modelProvider" := "anthropic"]} "alice")
    PLANNER
  = getBaseConfigForTask Samples.taskValue (fun _ => "") ∅
      (Samples.configurableWith
         {["plannerModelName" := "google-genai:gemini-2.5-pro"]} "alice")
      PLANNER.
Proof.
  apply (explicit_model_overrides_provider_and_environment
           Samples.taskValue) with (s := "google-genai:gemini-2.5-pro");
    reflexivity.
Defined.

Lemma pinned_provider_decides_the_provider_witness :
  provider
    (getBaseConfigForTask Samples.taskValue Samples.defaults
       {["DEFAULT_PLANNER_MODEL" := "anthropic:claude-opus-4-5"]}
       (Samples.configurableWith {["modelProvider" := "openai"]} "alice")
       PLANNER)
  = "openai".
Proof.
  apply (pinned_provider_decides_the_provider Samples.taskValue
           Samples.defaults Samples.defaults
           {["DEFAULT_PLANNER_MODEL" := "anthropic:claude-opus-4-5"]} ∅).
  - cbn. tauto.
  - reflexivity.
  - reflexivity.
Defined.

Lemma model_string_splits_at_first_colon_witness :
  let base :=
    getBaseConfigForTask Samples.taskValue Samples.defaults
      {["DEFAULT_PLANNER_MODEL" :=
          "bedrock:eu.anthropic.claude-3-7-sonnet-20250219-v1:0"]}
      Samples.plainSession PLANNER in
  provider base = "bedrock"
  /\ modelName base = "eu.anthropic.claude-3-7-sonnet-20250219-v1:0"
  /\ modelKey base = "bedrock:eu.anthropic.claude-3-7-sonnet-20250219-v1:0".
Proof.
  intros base.
  destruct (model_string_splits_at_first_colon Samples.taskValue
              Samples.defaults
              {["DEFAULT_PLANNER_MODEL" :=
                  "bedrock:eu.anthropic.claude-3-7-sonnet-20250219-v1:0"]}
              Samples.plainSession PLANNER) as [H _].
  - reflexivity.
  - reflexivity.
  - apply (H "bedrock" "eu.anthropic.claude-3-7-sonnet-20250219-v1:0").
    + reflexivity.
    + reflexivity.
    + discriminate.
Defined.

Lemma extended_thinking_segment_is_stripped_witness :
  let base :=
    getBaseConfigForTask Samples.taskValue Samples.defaults ∅
      Samples.thinkingHaikuSession PLANNER in
  provider base = "anthropic"
  /\ modelName base = "claude-3-5-haiku-latest"
  /\ thinkingModel base = Some true
  /\ modelKey base = "anthropic:claude-3-5-haiku-latest".
Proof.
  apply (extended_thinking_segment_is_stripped Samples.taskValue
           Samples.defaults ∅ Samples.thinkingHaikuSession PLANNER
           "anthropic" "claude-3-5-haiku-latest");
    reflexivity.
Defined.

End ResolverLaws.

(** ** Initialisation: credentials, Bedrock identifiers, gpt-5 *)

Module InitLaws.

Import Resolver ResolverParts Init Monitoring InitProps TextFacts.

Lemma parseModel_gpt5 s t m :
  JS.includes (modelName (parseModel s t m)) "gpt-5" = true ->
  maxTokens (parseModel s t m) = None
  /\ temperature (parseModel s t m) = Some 1%Q.
Proof.
  unfold parseModel.
  match goal with
  | |- context [if JS.includes ?n "gpt-5" then _ else _] =>
      destruct (JS.includes n "gpt-5") eqn:E
  end; cbn [modelName maxTokens temperature]; [auto|congruence].
Qed.

Section Environment.

Variable taskValue : LLMTask -> string.
Variable TASK_TO_CONFIG_DEFAULTS_MAP : LLMTask -> string.
Variable env : gmap string string.
Variable isAllowedUser : string -> bool.
Variable decryptSecret : string -> string -> Result string.
Variable API_KEY_REQUIRED_MESSAGE : string.
Variable BedrockChat_TypeError : string -> string.

Local Abbreviation init :=
  (initializeModel env isAllowedUser decryptSecret API_KEY_REQUIRED_MESSAGE
    BedrockChat_TypeError).
Local Abbreviation userKey :=
  (getUserApiKey env isAllowedUser decryptSecret API_KEY_REQUIRED_MESSAGE).

(** X11.  For a gpt-5 model the session's [maxTokens] and temperature
    never reach the provider: whenever the resolved model name contains
    "gpt-5" and the provider is neither Bedrock nor Anthropic,
    [loadModel] initialises the model with [max_completion_tokens] equal
    to the default 10,000 (8,192 if the name also contains
    "claude-3-5-haiku"), no [maxTokens] and temperature 1, whatever the
    session configured.  The resolver stores the configured value under
    [max_completion_tokens], which [initializeModel] does not read. *)
Theorem gpt5_ignores_session_maxTokens graphConfig task call :
  let base :=
    getBaseConfigForTask taskValue TASK_TO_CONFIG_DEFAULTS_MAP env
                         graphConfig task in
  JS.includes (modelName base) "gpt-5" = true ->
  provider base <> "bedrock" ->
  provider base <> "anthropic" ->
  loadModel taskValue TASK_TO_CONFIG_DEFAULTS_MAP env isAllowedUser
            decryptSecret API_KEY_REQUIRED_MESSAGE
              BedrockChat_TypeError graphConfig task
  = Ok call ->
  exists options,
    call = InitChatModel (modelName base) options
    /\ opt_max_completion_tokens options
       = Some (if JS.includes (modelName base) "claude-3-5-haiku"
               then 8192%Q else 10000%Q)
    /\ opt_maxTokens options = None
    /\ opt_temperature options = Some 1%Q
    /\ maxOutputTokens call
       = Some (if JS.includes (modelName base) "claude-3-5-haiku"
               then 8192%Q else 10000%Q).
Proof.
  intros base Hg Hb Ha Hload. unfold loadModel in Hload. fold base in Hload.
  assert (Hbase : maxTokens base = None /\ temperature base = Some 1%Q).
  { subst base. rewrite ResolverLaws.getBaseConfigForTask_parts in *.
    now apply parseModel_gpt5. }
  destruct Hbase as [Hmax Htemp].
  assert (Hname : (if String.eqb (modelName base) "claude-sonnet-4-5-20251101"
                   then "claude-sonnet-4-5-20250929" else modelName base)
                  = modelName base).
  { destruct (String.eqb_spec (modelName base) "claude-sonnet-4-5-20251101")
      as [E|_]; [|reflexivity].
    rewrite E in Hg. discriminate. }
  apply String.eqb_neq in Hb, Ha.
  unfold initializeModel in Hload.
  destruct (userKey graphConfig (provider base)) as [key|msg];
    [|discriminate].
  cbn [mbind Result_bind] in Hload. rewrite Hb, Ha, Hname in Hload.
  injection Hload as <-. eexists. split; [reflexivity|].
  unfold modelOptionsFor. rewrite Ha, andb_false_r, Hname, Hg.
  cbn [opt_max_completion_tokens opt_maxTokens opt_temperature maxOutputTokens].
  unfold finalMaxTokens. rewrite Hmax. cbn [JS.nullish].
  destruct (JS.includes (modelName base) "claude-3-5-haiku"); auto.
Qed.

(** X12.  Claude on Bedrock is always called through a regional
    inference profile: for provider bedrock and a model name that starts
    with "anthropic.claude", the identifier handed to the client starts
    with the region prefix ("us" for a region that starts with "us",
    otherwise the part of [AWS_REGION] before the first dash; the region
    defaults to us-east-1) followed by ".anthropic.claude", and the
    client is given that region. *)
Theorem bedrock_claude_gets_region_prefix config graphConfig call :
  provider config = "bedrock" ->
  JS.startsWith (modelName config) "anthropic.claude" = true ->
  init config graphConfig = Ok call ->
  let region := or_string (env !! "AWS_REGION") "us-east-1" in
  let regionPrefix :=
    if JS.startsWith region "us" then "us" else hd "" (JS.split "-" region) in
  exists suffix maxTokens temperature auth,
    call = BedrockChat (regionPrefix +:+ ".anthropic.claude" +:+ suffix)
                       region maxTokens temperature auth.
Proof.
  intros Hp Hs Hinit region regionPrefix.
  apply prefix_split in Hs.
  remember (Text.slice (String.length "anthropic.claude") (modelName config))
    as x eqn:Ex.
  clear Ex.
  assert (Hname : (if String.eqb (modelName config) "claude-sonnet-4-5-20251101"
                   then "claude-sonnet-4-5-20250929" else modelName config)
                  = modelName config).
  { destruct (String.eqb_spec (modelName config) "claude-sonnet-4-5-20251101")
      as [E|_]; [|reflexivity].
    rewrite E in Hs. discriminate. }
  unfold initializeModel in Hinit.
  destruct (userKey graphConfig (provider config)) as [key|msg];
    [|discriminate].
  cbn [mbind Result_bind] in Hinit. rewrite Hp, Hname in Hinit.
  cbn [String.eqb Ascii.eqb Bool.eqb] in Hinit.
  fold region in Hinit. fold regionPrefix in Hinit.
  destruct (bedrockModelMappings regionPrefix (modelName config))
    as [[mapped|inherited]|] eqn:Emap; [|discriminate|].
  - injection Hinit as <-. unfold bedrockModelMappings in Emap.
    destruct (_ || _) in Emap;
      [|destruct (existsb _ _) in Emap; discriminate].
    injection Emap as <-.
    exists "-3-5-haiku-20241022-v1:0". eauto.
  - injection Hinit as <-. exists x. rewrite Hs.
    replace (JS.startsWith ("anthropic.claude" +:+ x) "anthropic.claude")
      with true by (symmetry; apply prefix_app).
    replace (JS.startsWith ("anthropic.claude" +:+ x) "us.anthropic.")
      with false by reflexivity.
    replace (JS.startsWith ("anthropic.claude" +:+ x) "eu.anthropic.")
      with false by reflexivity.
    replace (JS.startsWith ("anthropic.claude" +:+ x) "ap.anthropic.")
      with false by reflexivity.
    cbn [orb negb andb]. eauto.
Qed.

(** X13.  Bedrock is open to allow-listed users only.  For the provider
    bedrock [getUserApiKey] returns exactly when
    [SECRETS_ENCRYPTION_KEY] is set and the session's user login is
    present and allow-listed, and it returns no key then; for any other
    user it throws, whatever API keys the session carries: bedrock has
    an empty entry among the environment keys and [providerToApiKey]
    answers the empty string for it.  So [initializeModel] reaches the
    construction of a Bedrock client for an allow-listed user only. *)
Theorem bedrock_needs_allow_listed_user config graphConfig :
  provider config = "bedrock" ->
  let allowListed :=
    JS.truthy_opt JS.truthy_string (env !! "SECRETS_ENCRYPTION_KEY") = true
    /\ exists login,
         configurable graphConfig ≫= userLogin = Some login
         /\ JS.truthy_string login = true
         /\ isAllowedUser login = true in
  ((exists key, userKey graphConfig "bedrock" = Ok key) <-> allowListed)
  /\ (forall key, userKey graphConfig "bedrock" = Ok key -> key = None)
  /\ (forall call, init config graphConfig = Ok call -> allowListed).
Proof.
  intros Hp allowListed.
  assert (Hkey :
    ((exists key, userKey graphConfig "bedrock" = Ok key) <-> allowListed)
    /\ (forall key, userKey graphConfig "bedrock" = Ok key -> key = None)).
  { subst allowListed. unfold getUserApiKey.
    destruct (JS.truthy_opt JS.truthy_string (env !! "SECRETS_ENCRYPTION_KEY"));
      cbn [negb];
      [|split; [split; [intros [? ?]; discriminate | intros [? _]; discriminate]
               |discriminate]].
    destruct (configurable graphConfig) as [c|]; cbn [mbind option_bind];
      [|split; [split; [intros [? ?]; discriminate
                       | intros [_ [? [? _]]]; discriminate]
               |discriminate]].
    destruct (userLogin c) as [login|]; cbn [JS.truthy_opt negb JS.nullish];
      [|split; [split; [intros [? ?]; discriminate
                       | intros [_ [? [? _]]]; discriminate]
               |discriminate]].
    destruct (JS.truthy_string login) eqn:Et; cbn [negb];
      [|split; [split; [intros [? ?]; discriminate
                       | intros [_ [l [E [Hl _]]]]; injection E as <-;
                         congruence]
               |discriminate]].
    destruct (isAllowedUser login) eqn:Ea.
    - split; [split; [eauto 10|eauto]|]. now intros key [= <-].
    - assert (Hthrows : forall key,
        (if JS.truthy_opt JS.truthy_string (envApiKeyMap env "bedrock")
            && has_visible_char (JS.nullish (envApiKeyMap env "bedrock") "")
         then Ok (envApiKeyMap env "bedrock")
         else
           match apiKeys c with
           | None => Throw API_KEY_REQUIRED_MESSAGE
           | Some keys =>
               providerApiKey ← providerToApiKey "bedrock" keys;
               if negb (JS.truthy_opt JS.truthy_string providerApiKey)
               then Throw
                      ("No API key found for provider: " +:+ "bedrock" +:+
                       ". Please add one in the settings page or set the environment variable ("
                       +:+ "GOOGLE_API_KEY" +:+ ").")
               else
                 key0 ← decryptSecret (JS.nullish providerApiKey "")
                          (JS.nullish (env !! "SECRETS_ENCRYPTION_KEY") "");
                 if negb (JS.truthy_string key0)
                 then Throw
                        ("No API key found for provider: " +:+ "bedrock" +:+
                         ". Please add one in the settings page or set the environment variable ("
                         +:+ "GOOGLE_API_KEY" +:+ ").")
                 else Ok (Some key0)
           end) <> Ok key).
      { intros key. cbn. destruct (apiKeys c); discriminate. }
      split; [split|].
      + intros [key H]. now apply Hthrows in H.
      + intros [_ [l [E [_ Hl]]]]. injection E as <-. congruence.
      + intros key H. now apply Hthrows in H. }
  destruct Hkey as [Hiff Hnone]. split; [exact Hiff|]. split; [exact Hnone|].
  intros call Hcall. apply Hiff. unfold initializeModel in Hcall.
  rewrite Hp in Hcall.
  destruct (userKey graphConfig "bedrock") as [key|msg]; [eauto|discriminate].
Qed.

(** X14.  A provider key in the server's environment takes precedence
    over the key stored in the session: for a user who is not
    allow-listed, when the environment variable of the provider holds a
    non-blank value, [getUserApiKey] returns that value as it is; the
    session's [apiKeys] are not read and nothing is decrypted. *)
Theorem environment_key_precedes_session_key graphConfig p login k :
  JS.truthy_opt JS.truthy_string (env !! "SECRETS_ENCRYPTION_KEY") = true ->
  configurable graphConfig ≫= userLogin = Some login ->
  JS.truthy_string login = true ->
  isAllowedUser login = false ->
  envApiKeyMap env p = Some k ->
  has_visible_char k = true ->
  userKey graphConfig p = Ok (Some k).
Proof.
  intros Hs Hl Ht Ha Hk Hv. unfold getUserApiKey. rewrite Hs.
  destruct (configurable graphConfig) as [c|]; [|discriminate].
  cbn [mbind option_bind] in Hl. rewrite Hl.
  cbn [negb JS.truthy_opt JS.nullish]. rewrite Ht, Ha, Hk.
  cbn [negb JS.truthy_opt JS.nullish]. rewrite Hv.
  destruct k; [discriminate|reflexivity].
Qed.

End Environment.

Lemma gpt5_ignores_session_maxTokens_witness :
  exists call options,
    loadModel Samples.taskValue Samples.defaults Samples.secretsEnv
      Samples.everyoneAllowed Samples.decryptIdentity "API key required"
        Samples.typeError
      {| configurable :=
           Some {| strings := {["plannerModelName" := "openai:gpt-5-codex"]};
                   numbers := {["maxTokens" := 50000%Q]};
                   userLogin := Some "alice"; apiKeys := None |} |}
      PLANNER
    = Ok call
    /\ call = InitChatModel "gpt-5-codex" options
    /\ opt_max_completion_tokens options = Some 10000%Q.
Proof.
  pose (session :=
    {| configurable :=
         Some {| strings := {["plannerModelName" := "openai:gpt-5-codex"]};
                 numbers := {["maxTokens" := 50000%Q]};
                 userLogin := Some "alice"; apiKeys := None |} |}).
  assert (Hload :
    { call | loadModel Samples.taskValue Samples.defaults Samples.secretsEnv
               Samples.everyoneAllowed Samples.decryptIdentity
               "API key required" Samples.typeError session PLANNER = Ok call })
    by (eexists; reflexivity).
  destruct Hload as [call Hload].
  destruct (gpt5_ignores_session_maxTokens Samples.taskValue Samples.defaults
              Samples.secretsEnv Samples.everyoneAllowed
              Samples.decryptIdentity "API key required"
                Samples.typeError session PLANNER call)
    as [options [H1 [H2 _]]].
  - reflexivity.
  - discriminate.
  - discriminate.
  - exact Hload.
  - exists call, options. auto.
Defined.

Lemma bedrock_claude_gets_region_prefix_witness :
  exists call suffix maxTokens temperature auth,
    initializeModel
      {["SECRETS_ENCRYPTION_KEY" := "k"; "AWS_REGION" := "eu-west-1"]}
      Samples.everyoneAllowed Samples.decryptIdentity "API key required"
        Samples.typeError
      {| provider := "bedrock";
         modelName := "anthropic.claude-3-7-sonnet-20250219-v1:0";
         temperature := None; maxTokens := None; thinkingModel := None;
         thinkingBudgetTokens := None; max_completion_tokens := None |}
      Samples.plainSession
    = Ok call
    /\ call = BedrockChat ("eu" +:+ ".anthropic.claude" +:+ suffix)
                          "eu-west-1" maxTokens temperature auth.
Proof.
  pose (environment :=
    ({["SECRETS_ENCRYPTION_KEY" := "k"; "AWS_REGION" := "eu-west-1"]}
     : gmap string string)).
  pose (candidate :=
    {| provider := "bedrock";
       modelName := "anthropic.claude-3-7-sonnet-20250219-v1:0";
       temperature := None; maxTokens := None; thinkingModel := None;
       thinkingBudgetTokens := None; max_completion_tokens := None |}).
  assert (Hinit :
    { call | initializeModel environment Samples.everyoneAllowed
               Samples.decryptIdentity "API key required"
                 Samples.typeError candidate
               Samples.plainSession = Ok call })
    by (eexists; reflexivity).
  destruct Hinit as [call Hinit].
  destruct (bedrock_claude_gets_region_prefix environment
              Samples.everyoneAllowed Samples.decryptIdentity
              "API key required"
                Samples.typeError candidate Samples.plainSession call
              eq_refl eq_refl Hinit)
    as [suffix [maxTokens [temperature [auth H]]]].
  exists call, suffix, maxTokens, temperature, auth. auto.
Defined.

Lemma bedrock_needs_allow_listed_user_witness :
  let candidate :=
    {| provider := "bedrock";
       modelName := "anthropic.claude-3-5-haiku-20241022-v1:0";
       temperature := None; maxTokens := None; thinkingModel := None;
       thinkingBudgetTokens := None; max_completion_tokens := None |} in
  let session :=
    {| configurable :=
         Some {| strings := ∅; numbers := ∅; userLogin := Some "bob";
                 apiKeys := Some {["anthropicApiKey" := "secret"]} |} |} in
  (forall key,
     getUserApiKey Samples.secretsEnv (fun login => false)
       Samples.decryptIdentity "API key required" session "bedrock"
     <> Ok key)
  /\ forall call,
       initializeModel Samples.secretsEnv (fun login => false)
         Samples.decryptIdentity "API key required" Samples.typeError
         candidate session
       <> Ok call.
Proof.
  intros candidate session.
  destruct (bedrock_needs_allow_listed_user Samples.secretsEnv
              (fun login => false) Samples.decryptIdentity "API key required"
              Samples.typeError candidate session eq_refl)
    as [Hkey [_ Hcall]].
  split.
  - intros key H.
    destruct (proj1 Hkey (ex_intro _ key H)) as [_ [login [_ [_ Hl]]]].
    discriminate.
  - intros call H.
    destruct (Hcall call H) as [_ [login [_ [_ Hl]]]]. discriminate.
Defined.

(** A model name that is a property of [Object.prototype] reaches the
    Bedrock constructor as that property, and the constructor fails. *)
Example bedrock_inherited_model_throws :
  initializeModel Samples.secretsEnv Samples.everyoneAllowed
    Samples.decryptIdentity "API key required" Samples.typeError
    {| provider := "bedrock"; modelName := "constructor";
       temperature := None; maxTokens := None; thinkingModel := None;
       thinkingBudgetTokens := None; max_completion_tokens := None |}
    Samples.plainSession
  = Throw "this.model.split is not a function".
Proof. reflexivity. Qed.

(** An environment key of no-break spaces is no key: the session's key
    is used. *)
Example blank_environment_key_is_skipped :
  getUserApiKey
    {["SECRETS_ENCRYPTION_KEY" := "k";
      "ANTHROPIC_API_KEY" := MoreSamples.NBSP +:+ " " +:+ MoreSamples.NBSP]}
    (fun login => false) Samples.decryptIdentity "API key required"
    {| configurable :=
         Some {| strings := ∅; numbers := ∅; userLogin := Some "bob";
                 apiKeys := Some {["anthropicApiKey" := "sk-bob"]} |} |}
    "anthropic"
  = Ok (Some "sk-bob").
Proof. reflexivity. Qed.

Lemma environment_key_precedes_session_key_witness :
  getUserApiKey
    {["SECRETS_ENCRYPTION_KEY" := "k"; "OPENAI_API_KEY" := "sk-server"]}
    (fun login => false) Samples.decryptIdentity "API key required"
    {| configurable :=
         Some {| strings := ∅; numbers := ∅; userLogin := Some "bob";
                 apiKeys := Some {["openaiApiKey" := "sk-bob"]} |} |}
    "openai"
  = Ok (Some "sk-server").
Proof.
  apply (environment_key_precedes_session_key _ _ _ _ _ _ "bob");
    reflexivity.
Defined.

End InitLaws.

(** ** Sanitisation as a whole *)

Module SanitizeLaws.

Import Runner SanitizeProps.

(** [messages[i + 1]] for the entry at the head of [rest], in a segment
    that is followed by [after]. *)
Lemma nextMessage_lookup (rest : list Message) after :
  match rest with
  | next :: _ => Some next
  | [] => after
  end = from_option Some after (rest !! 0%nat).
Proof. now destruct rest. Qed.

Lemma sanitizeLoop_head m rest after :
  sanitizeLoop (m :: rest) after !! 0%nat = Some m.
Proof. reflexivity. Qed.

Lemma sanitizeLoop_first rest after :
  sanitizeLoop rest after !! 0%nat = rest !! 0%nat.
Proof. now destruct rest. Qed.

Lemma danglingToolCalls_dummy call next :
  danglingToolCalls (dummyToolResult call) next = [].
Proof. reflexivity. Qed.

(** No entry of the segment [l], followed by [after], has tool calls
    that the loop would answer. *)
Local Abbreviation settled l after :=
  (forall (i : nat) (m : Message),
     l !! i = Some m ->
     danglingToolCalls m (from_option Some after (l !! S i)) = []).

Lemma settled_cons x l after :
  danglingToolCalls x (from_option Some after (l !! 0%nat)) = [] ->
  settled l after ->
  settled (x :: l) after.
Proof.
  intros Hx Hl [|i] m Hm.
  - cbn in Hm. injection Hm as <-. exact Hx.
  - cbn in Hm. now apply Hl.
Qed.

Lemma settled_dummies calls l after :
  settled l after ->
  settled (List.map dummyToolResult calls ++ l)%list after.
Proof.
  intros Hl. induction calls as [|c calls IH]; [exact Hl|].
  cbn [List.map app]. apply settled_cons; [|exact IH].
  apply danglingToolCalls_dummy.
Qed.

Lemma sanitizeLoop_settled l : forall after,
  settled (sanitizeLoop l after) after.
Proof.
  induction l as [|m rest IH]; intros after.
  - intros i m H. destruct i; discriminate.
  - cbn [sanitizeLoop]. rewrite nextMessage_lookup.
    cbn [app]. apply settled_cons.
    + destruct (danglingToolCalls m (from_option Some after (rest !! 0%nat)))
        as [|c calls] eqn:E.
      * cbn [List.map app]. now rewrite sanitizeLoop_first.
      * cbn [List.map app lookup list_lookup from_option].
        now apply danglingToolCalls_answered.
    + apply settled_dummies, IH.
Qed.

Lemma sanitizeLoop_fixed l : forall after,
  settled l after -> sanitizeLoop l after = l.
Proof.
  induction l as [|m rest IH]; intros after H; [reflexivity|].
  cbn [sanitizeLoop]. rewrite nextMessage_lookup.
  assert (H0 : danglingToolCalls m (from_option Some after (rest !! 0%nat))
               = []) by exact (H 0%nat m eq_refl).
  rewrite H0. cbn [List.map app]. f_equal.
  apply IH. intros i x Hx. exact (H (S i) x Hx).
Qed.

(** X15.  Sanitising is idempotent, and what it returns needs no
    further repair: in the sanitised history no entry carries tool calls
    that the loop would still answer, so a second pass adds nothing. *)
Theorem sanitizeHistory_idempotent input :
  sanitizeHistory (sanitizeHistory input) = sanitizeHistory input
  /\ (forall messages i m,
        sanitizeHistory input = Messages messages ->
        messages !! i = Some m ->
        danglingToolCalls m (messages !! S i) = []).
Proof.
  destruct input as [messages|text]; cbn [sanitizeHistory].
  - split.
    + f_equal. apply sanitizeLoop_fixed, sanitizeLoop_settled.
    + intros out i m E Hm. injection E as <-.
      pose proof (sanitizeLoop_settled messages None i m Hm) as H.
      now destruct (sanitizeLoop messages None !! S i).
  - split; [reflexivity|discriminate].
Qed.

(** X16.  A history in which every entry with tool calls is directly
    followed by a tool-result entry (or carries no call that counts) is
    returned as it is: sanitising adds nothing to a well-formed
    history. *)
Theorem sanitizeHistory_leaves_settled_history messages :
  (forall i m,
     messages !! i = Some m ->
     danglingToolCalls m (messages !! S i) = []) ->
  sanitizeHistory (Messages messages) = Messages messages.
Proof.
  intros H. cbn [sanitizeHistory]. f_equal. apply sanitizeLoop_fixed.
  intros i m Hm. specialize (H i m Hm).
  now destruct (messages !! S i).
Qed.

Lemma sanitizeHistory_leaves_settled_history_witness :
  let history :=
    [Samples.userMessage "list the files";
     Samples.assistantWithCalls [Samples.shellCall];
     dummyToolResult Samples.shellCall;
     Samples.userMessage "thanks"] in
  sanitizeHistory (Messages history) = Messages history.
Proof.
  intros history. apply sanitizeHistory_leaves_settled_history.
  intros i m Hm.
  destruct i as [|[|[|[|i]]]]; cbn in Hm; try discriminate;
    injection Hm as <-; reflexivity.
Defined.

Lemma danglingToolCalls_from_entry m next call :
  call ∈ danglingToolCalls m next ->
  exists calls, tool_calls m = Some calls /\ call ∈ calls.
Proof.
  unfold danglingToolCalls.
  destruct (isAIMessageLike m && nonEmptyCalls m);
    [|intros H; inversion H].
  destruct (_ || _); [|intros H; inversion H].
  destruct (tool_calls m) as [calls|]; cbn [JS.nullish]; [eauto|].
  intros H. inversion H.
Qed.

Lemma sanitizeLoop_only_adds l : forall after,
  l `sublist_of` sanitizeLoop l after
  /\ Forall (fun x =>
               x ∈ l
               \/ exists m calls call,
                    m ∈ l /\ tool_calls m = Some calls /\ call ∈ calls
                    /\ x = dummyToolResult call)
            (sanitizeLoop l after).
Proof.
  induction l as [|m rest IH]; intros after.
  - split; [constructor|constructor].
  - destruct (IH after) as [Hsub Hall]. cbn [sanitizeLoop app]. split.
    + apply sublist_skip. now apply sublist_inserts_l.
    + constructor; [left; now left|].
      apply Forall_app. split.
      * apply Forall_forall. intros x Hx.
        apply list_elem_of_In, in_map_iff in Hx as [call [<- Hc]].
        apply list_elem_of_In, danglingToolCalls_from_entry in Hc
          as [calls [Hcalls Hin]].
        right. exists m, calls, call. repeat split; auto. now left.
      * eapply Forall_impl; [exact Hall|]. intros x [Hx|Hx].
        -- left. now right.
        -- destruct Hx as [m0 [calls [call [Hm0 H]]]].
           right. exists m0, calls, call. split; [now right|exact H].
Qed.

(** X17.  Sanitising only adds: the entries of the input all survive,
    unchanged and in their order, and every other entry of the result is
    the synthetic interruption notice for a tool call carried by an
    entry of the input.  Nothing is dropped, reordered or rewritten. *)
Theorem sanitizeHistory_only_adds_notices messages :
  exists out,
    sanitizeHistory (Messages messages) = Messages out
    /\ messages `sublist_of` out
    /\ Forall (fun x =>
                 x ∈ messages
                 \/ exists m calls call,
                      m ∈ messages /\ tool_calls m = Some calls
                      /\ call ∈ calls /\ x = dummyToolResult call) out.
Proof.
  exists (sanitizeLoop messages None). split; [reflexivity|].
  apply sanitizeLoop_only_adds.
Qed.

End SanitizeLaws.

(** ** The fallback loop as a whole *)

Module RunnerLaws.

Import Breaker Resolver Init Runner BreakerProps BreakerLaws RunnerProps.

(** A circuit that is OPEN and within its timeout at the checks of the
    loop indices [lo <= j < hi]. *)
Local Abbreviation heldOpen cfg nowAtCheck redis k lo hi :=
  (exists t,
     state (currentState redis k) = OPEN
     /\ openedAt (currentState redis k) = Some t
     /\ forall j : nat,
          (lo <= j < hi)%nat -> nowAtCheck j - t < circuitBreakerTimeoutMs cfg).

Lemma isCircuitClosed_held_open cfg now redis k t :
  state (currentState redis k) = OPEN ->
  openedAt (currentState redis k) = Some t ->
  now - t < circuitBreakerTimeoutMs cfg ->
  exists redis1,
    isCircuitClosed cfg now redis k = (false, redis1)
    /\ forall k', currentState redis1 k' = currentState redis k'.
Proof.
  intros Hs Ho Hlt. unfold isCircuitClosed.
  pose proof (currentState_getCircuitState redis k) as Hframe.
  unfold currentState in Hs, Ho.
  destruct (getCircuitState redis k) as [st r]. cbn [fst snd] in *.
  rewrite Hs, Ho. cbn [JS.truthy_opt JS.nullish].
  destruct (JS.truthy_Z t); [|eauto].
  destruct (Z.geb_spec (now - t) (circuitBreakerTimeoutMs cfg)); [lia|eauto].
Qed.

Section Loop.

Context {Answer : Type}.

Variable cfg : ModelManagerConfig.
Variable taskValue : LLMTask -> string.
Variable env : gmap string string.
Variable isAllowedUser : string -> bool.
Variable decryptSecret : string -> string -> Result string.
Variable API_KEY_REQUIRED_MESSAGE : string.
Variable BedrockChat_TypeError : string -> string.
Variable task : LLMTask.
Variable providerMessages : option (gmap string (list Message)).
Variable graphConfig : GraphConfig.
Variable callProvider : nat -> ProviderCall -> Input -> Result Answer.
Variable nowAtCheck : nat -> Z.
Variable nowAtFailure : nat -> Z.

Local Abbreviation attempt :=
  (tryBlock env isAllowedUser decryptSecret API_KEY_REQUIRED_MESSAGE
    BedrockChat_TypeError
            providerMessages graphConfig callProvider).

Local Abbreviation retrying :=
  (fallbackLoop cfg taskValue env isAllowedUser decryptSecret
                API_KEY_REQUIRED_MESSAGE
                  BedrockChat_TypeError task providerMessages graphConfig
                callProvider nowAtCheck nowAtFailure).

Local Abbreviation failFast :=
  (failFastLoop cfg taskValue env isAllowedUser decryptSecret
                API_KEY_REQUIRED_MESSAGE
                  BedrockChat_TypeError task providerMessages graphConfig
                callProvider nowAtCheck).

(** *** One attempt per entry, in list order *)

Lemma retrying_attempts_ordered total input remaining :
  forall i redis lastError tried,
  exists more,
    attempts (retrying total input i remaining redis lastError tried)
    = (tried ++ more)%list
    /\ (length more <= length remaining)%nat
    /\ StronglySorted lt (List.map fst more)
    /\ Forall (fun a => (i <= fst a)%nat) more.
Proof.
  induction remaining as [|c rest IH]; intros i redis lastError tried.
  - exists []. cbn. rewrite app_nil_r. repeat split; constructor.
  - assert (Hone : exists more,
      (tried ++ [(i, c)])%list = (tried ++ more)%list
      /\ (length more <= length (c :: rest))%nat
      /\ StronglySorted lt (List.map fst more)
      /\ Forall (fun a => (i <= fst a)%nat) more).
    { exists [(i, c)]. cbn. repeat split; try lia; repeat constructor. }
    cbn [fallbackLoop].
    destruct (isCircuitClosed cfg (nowAtCheck i) redis (modelKey c))
      as [closed redis1].
    destruct closed; cbn [negb].
    + destruct (attempt i c input) as [result|e]; [exact Hone|].
      destruct (isAuthError e); [exact Hone|].
      destruct (negb (isConfigError e) && (i <? total - 1)%nat);
        [|exact Hone].
      destruct (IH (S i) (recordFailure cfg (nowAtFailure i) redis1 (modelKey c))
                   (Some e) (tried ++ [(i, c)])%list)
        as [more [E [Hlen [Hsorted Hfrom]]]].
      rewrite E. exists ((i, c) :: more). rewrite <- app_assoc.
      split; [reflexivity|]. cbn [length List.map fst]. split; [lia|]. split.
      * constructor; [exact Hsorted|].
        apply Forall_map. eapply Forall_impl; [exact Hfrom|].
        intros a Ha. cbn in *. lia.
      * constructor; [cbn; lia|].
        eapply Forall_impl; [exact Hfrom|]. intros a Ha. cbn in *. lia.
    + destruct (IH (S i) redis1 lastError tried)
        as [more [E [Hlen [Hsorted Hfrom]]]].
      exists more. split; [exact E|]. cbn [length]. split; [lia|].
      split; [exact Hsorted|].
      eapply Forall_impl; [exact Hfrom|]. intros a Ha. cbn in *. lia.
Qed.

Lemma failFast_attempts_ordered input remaining :
  forall i redis lastError tried,
  exists more,
    attempts (failFast input i remaining redis lastError tried)
    = (tried ++ more)%list
    /\ (length more <= 1)%nat.
Proof.
  induction remaining as [|c rest IH]; intros i redis lastError tried.
  - exists []. cbn. rewrite app_nil_r. auto.
  - cbn [failFastLoop].
    destruct (isCircuitClosed cfg (nowAtCheck i) redis (modelKey c))
      as [closed redis1].
    destruct closed; cbn [negb]; [|apply IH].
    exists [(i, c)].
    destruct (attempt i c input) as [result|e]; [auto|].
    destruct (isAuthError e); auto.
Qed.

(** X18.  Bounded work per call.  In the retrying revision the
    attempts of a run are made in list order, on strictly increasing
    indices: no entry of the resolved list is attempted twice and a run
    makes at most as many provider attempts as the list has entries.
    The fail-fast revision makes at most one attempt. *)
Theorem attempts_bounded_by_candidate_list modelConfigs input redis :
  (let run :=
     fallbackLoop cfg taskValue env isAllowedUser decryptSecret
       API_KEY_REQUIRED_MESSAGE
         BedrockChat_TypeError task providerMessages graphConfig
       callProvider nowAtCheck nowAtFailure
       (length modelConfigs) input 0 modelConfigs redis None [] in
   StronglySorted lt (List.map fst (attempts run))
   /\ (length (attempts run) <= length modelConfigs)%nat)
  /\ (let run :=
        failFastLoop cfg taskValue env isAllowedUser decryptSecret
          API_KEY_REQUIRED_MESSAGE
            BedrockChat_TypeError task providerMessages graphConfig
          callProvider nowAtCheck input 0 modelConfigs redis None [] in
      (length (attempts run) <= 1)%nat).
Proof.
  split; intros run; subst run.
  - destruct (retrying_attempts_ordered (length modelConfigs) input
                modelConfigs 0%nat redis None [])
      as [more [E [Hlen [Hsorted _]]]].
    rewrite E. cbn [app]. auto.
  - destruct (failFast_attempts_ordered input modelConfigs 0%nat redis None [])
      as [more [E Hlen]].
    rewrite E. cbn [app]. exact Hlen.
Qed.

(** *** Every circuit open *)

Lemma retrying_all_open total input remaining :
  forall i redis lastError tried,
  (forall c, In c remaining ->
     heldOpen cfg nowAtCheck redis (modelKey c) i (i + length remaining)) ->
  let run := retrying total input i remaining redis lastError tried in
  attempts run = tried
  /\ outcome run = Raised Exhausted (exhaustedMessage taskValue task lastError)
  /\ forall k, currentState (redisAfter run) k = currentState redis k.
Proof.
  induction remaining as [|c rest IH]; intros i redis lastError tried Hopen.
  - cbn. auto.
  - destruct (Hopen c (or_introl eq_refl)) as [t [Hs [Ho Ht]]].
    assert (Hi : (i <= i < i + length (c :: rest))%nat) by (cbn; lia).
    destruct (isCircuitClosed_held_open cfg (nowAtCheck i) redis (modelKey c)
                t Hs Ho (Ht i Hi)) as [redis1 [E Hframe]].
    intros run. subst run. cbn [fallbackLoop]. rewrite E. cbn [negb].
    destruct (IH (S i) redis1 lastError tried) as [H1 [H2 H3]].
    + intros c' Hc'.
      destruct (Hopen c' (or_intror Hc')) as [t' [Hs' [Ho' Ht']]].
      exists t'. rewrite !Hframe. repeat split; auto.
      intros j Hj. apply Ht'. cbn [length]. lia.
    + repeat split; auto. intros k. now rewrite H3.
Qed.

Lemma failFast_all_open input remaining :
  forall i redis lastError tried,
  (forall c, In c remaining ->
     heldOpen cfg nowAtCheck redis (modelKey c) i (i + length remaining)) ->
  let run := failFast input i remaining redis lastError tried in
  attempts run = tried
  /\ outcome run = Raised Exhausted (exhaustedMessage taskValue task lastError)
  /\ forall k, currentState (redisAfter run) k = currentState redis k.
Proof.
  induction remaining as [|c rest IH]; intros i redis lastError tried Hopen.
  - cbn. auto.
  - destruct (Hopen c (or_introl eq_refl)) as [t [Hs [Ho Ht]]].
    assert (Hi : (i <= i < i + length (c :: rest))%nat) by (cbn; lia).
    destruct (isCircuitClosed_held_open cfg (nowAtCheck i) redis (modelKey c)
                t Hs Ho (Ht i Hi)) as [redis1 [E Hframe]].
    intros run. subst run. cbn [failFastLoop]. rewrite E. cbn [negb].
    destruct (IH (S i) redis1 lastError tried) as [H1 [H2 H3]].
    + intros c' Hc'.
      destruct (Hopen c' (or_intror Hc')) as [t' [Hs' [Ho' Ht']]].
      exists t'. rewrite !Hframe. repeat split; auto.
      intros j Hj. apply Ht'. cbn [length]. lia.
    + repeat split; auto. intros k. now rewrite H3.
Qed.

(** X19.  While every candidate's circuit is open and within its
    timeout at the checks of the loop, a call fails without a single
    attempt: no model is
    initialised and no provider is contacted, the breaker states are
    left as they were, and the error raised is the exhaustion error
    whose last-error part reads "undefined".  This holds of both
    revisions, for any list of candidates (the empty list included). *)
Theorem open_circuits_fail_without_attempt modelConfigs input redis :
  (forall c, In c modelConfigs ->
     heldOpen cfg nowAtCheck redis (modelKey c) 0 (length modelConfigs)) ->
  let message :=
    "All fallback models exhausted for task " +:+ taskValue task +:+
    ". Last error: undefined" in
  (let run := retrying (length modelConfigs) input 0 modelConfigs redis None [] in
   attempts run = []
   /\ outcome run = Raised Exhausted message
   /\ forall k, currentState (redisAfter run) k = currentState redis k)
  /\ (let run := failFast input 0 modelConfigs redis None [] in
      attempts run = []
      /\ outcome run = Raised Exhausted message
      /\ forall k, currentState (redisAfter run) k = currentState redis k).
Proof.
  intros Hopen message. split.
  - exact (retrying_all_open (length modelConfigs) input modelConfigs 0%nat
             redis None [] Hopen).
  - exact (failFast_all_open input modelConfigs 0%nat redis None [] Hopen).
Qed.

(** *** A run that returns *)

Lemma retrying_returned total input remaining :
  forall i redis lastError tried result,
  let run := retrying total input i remaining redis lastError tried in
  outcome run = Returned result ->
  exists j c before,
    attempts run = (before ++ [(j, c)])%list
    /\ attempt j c input = Ok result
    /\ state (currentState (redisAfter run) (modelKey c)) = CLOSED
    /\ failureCount (currentState (redisAfter run) (modelKey c)) = 0
    /\ openedAt (currentState (redisAfter run) (modelKey c)) = None.
Proof.
  induction remaining as [|c rest IH];
    intros i redis lastError tried result run Hout; subst run.
  - discriminate.
  - cbn [fallbackLoop] in *.
    destruct (isCircuitClosed cfg (nowAtCheck i) redis (modelKey c))
      as [closed redis1].
    destruct closed; cbn [negb] in *; [|now apply IH].
    destruct (attempt i c input) as [r|e] eqn:Ea.
    + cbn in Hout. injection Hout as <-.
      exists i, c, tried. cbn [attempts redisAfter].
      destruct (recordSuccess_state redis1 (modelKey c)) as [H1 [H2 H3]].
      auto.
    + destruct (isAuthError e); [discriminate|].
      destruct (negb (isConfigError e) && (i <? total - 1)%nat);
        [now apply IH | discriminate].
Qed.

Lemma failFast_returned input remaining :
  forall i redis lastError tried result,
  let run := failFast input i remaining redis lastError tried in
  outcome run = Returned result ->
  exists j c before,
    attempts run = (before ++ [(j, c)])%list
    /\ attempt j c input = Ok result
    /\ state (currentState (redisAfter run) (modelKey c)) = CLOSED
    /\ failureCount (currentState (redisAfter run) (modelKey c)) = 0
    /\ openedAt (currentState (redisAfter run) (modelKey c)) = None.
Proof.
  induction remaining as [|c rest IH];
    intros i redis lastError tried result run Hout; subst run.
  - discriminate.
  - cbn [failFastLoop] in *.
    destruct (isCircuitClosed cfg (nowAtCheck i) redis (modelKey c))
      as [closed redis1].
    destruct closed; cbn [negb] in *; [|now apply IH].
    destruct (attempt i c input) as [r|e] eqn:Ea.
    + cbn in Hout. injection Hout as <-.
      exists i, c, tried. cbn [attempts redisAfter].
      destruct (recordSuccess_state redis1 (modelKey c)) as [H1 [H2 H3]].
      auto.
    + destruct (isAuthError e); discriminate.
Qed.

(** X20.  What a returned result stands for: whenever a run returns a
    result, that result is the provider's answer to the last attempt of
    the run, and the breaker state read afterwards for that attempt's
    model key is CLOSED with [failureCount = 0] and no [openedAt]; any
    failures counted before, in this run or earlier ones, are
    forgotten.  This holds of both revisions. *)
Theorem returned_result_resets_breaker modelConfigs input redis result :
  (let run := retrying (length modelConfigs) input 0 modelConfigs redis None [] in
   outcome run = Returned result ->
   exists j c before,
     attempts run = (before ++ [(j, c)])%list
     /\ attempt j c input = Ok result
     /\ state (currentState (redisAfter run) (modelKey c)) = CLOSED
     /\ failureCount (currentState (redisAfter run) (modelKey c)) = 0
     /\ openedAt (currentState (redisAfter run) (modelKey c)) = None)
  /\ (let run := failFast input 0 modelConfigs redis None [] in
      outcome run = Returned result ->
      exists j c before,
        attempts run = (before ++ [(j, c)])%list
        /\ attempt j c input = Ok result
        /\ state (currentState (redisAfter run) (modelKey c)) = CLOSED
        /\ failureCount (currentState (redisAfter run) (modelKey c)) = 0
        /\ openedAt (currentState (redisAfter run) (modelKey c)) = None).
Proof.
  split.
  - exact (retrying_returned (length modelConfigs) input modelConfigs 0%nat
             redis None [] result).
  - exact (failFast_returned input modelConfigs 0%nat redis None [] result).
Qed.

(** *** Errors that end a run *)

Lemma retrying_fatal_ends total input remaining :
  forall i redis lastError tried more j c e,
  let run := retrying total input i remaining redis lastError tried in
  attempts run = (tried ++ more)%list ->
  In (j, c) more ->
  attempt j c input = Throw e ->
  isAuthError e = true \/ isConfigError e = true ->
  (exists before, attempts run = (before ++ [(j, c)])%list)
  /\ outcome run
     = if isAuthError e
       then Raised AuthenticationFailed (authenticationMessage c e)
       else Raised Rethrown e.
Proof.
  induction remaining as [|c0 rest IH];
    intros i redis lastError tried more j c e run Hmore Hin Ha Hfatal;
    subst run.
  - cbn in Hmore. rewrite <- (app_nil_r tried) in Hmore at 1.
    apply app_inv_head in Hmore. subst more. destruct Hin.
  - cbn [fallbackLoop] in *.
    destruct (isCircuitClosed cfg (nowAtCheck i) redis (modelKey c0))
      as [closed redis1].
    destruct closed; cbn [negb] in *; [|now apply (IH _ _ _ _ more)].
    destruct (attempt i c0 input) as [r|e0] eqn:Ea0.
    + cbn [attempts] in Hmore. apply app_inv_head in Hmore. subst more.
      destruct Hin as [Heq|[]]. injection Heq as <- <-. congruence.
    + destruct (isAuthError e0) eqn:Eauth.
      * cbn [attempts] in Hmore. apply app_inv_head in Hmore. subst more.
        destruct Hin as [Heq|[]]. injection Heq as <- <-.
        assert (e0 = e) by congruence. subst e0. rewrite Eauth.
        split; [now exists tried|reflexivity].
      * destruct (isConfigError e0) eqn:Econf; cbn [negb andb] in *.
        -- cbn [attempts] in Hmore. apply app_inv_head in Hmore. subst more.
           destruct Hin as [Heq|[]]. injection Heq as <- <-.
           assert (e0 = e) by congruence. subst e0. rewrite Eauth.
           split; [now exists tried|reflexivity].
        -- destruct (i <? total - 1)%nat.
           ++ destruct (retrying_attempts_ordered total input rest (S i)
                          (recordFailure cfg (nowAtFailure i) redis1 (modelKey c0))
                          (Some e0) (tried ++ [(i, c0)])%list)
                as [more' [E _]].
              assert (Hm : more = (i, c0) :: more').
              { rewrite E, <- app_assoc in Hmore.
                now apply app_inv_head in Hmore. }
              subst more. destruct Hin as [Heq|Hin].
              ** injection Heq as <- <-.
                 assert (e0 = e) by congruence. subst e0.
                 destruct Hfatal; congruence.
              ** now apply (IH _ _ _ _ more').
           ++ cbn [attempts] in Hmore. apply app_inv_head in Hmore.
              subst more. destruct Hin as [Heq|[]]. injection Heq as <- <-.
              assert (e0 = e) by congruence. subst e0. rewrite Eauth.
              split; [now exists tried|reflexivity].
Qed.

(** X21.  Fatal errors are final at every position (retrying
    revision): if any attempt of a run, not only the first, fails with
    an error classified as authentication or configuration, that attempt
    is the last one of the run; the run raises the authentication error,
    or for a configuration error the provider's own error unchanged, and
    no later candidate is tried. *)
Theorem fatal_error_ends_the_run modelConfigs input redis j c e :
  let run := retrying (length modelConfigs) input 0 modelConfigs redis None [] in
  In (j, c) (attempts run) ->
  attempt j c input = Throw e ->
  isAuthError e = true \/ isConfigError e = true ->
  (exists before, attempts run = (before ++ [(j, c)])%list)
  /\ outcome run
     = if isAuthError e
       then Raised AuthenticationFailed (authenticationMessage c e)
       else Raised Rethrown e.
Proof.
  intros run Hin Ha Hfatal.
  exact (retrying_fatal_ends (length modelConfigs) input modelConfigs 0%nat
           redis None [] (attempts run) j c e eq_refl Hin Ha Hfatal).
Qed.

(** *** A failing initialisation *)

Lemma loop_next total input i c rest redis redis1 lastError tried e :
  isCircuitClosed cfg (nowAtCheck i) redis (modelKey c) = (true, redis1) ->
  attempt i c input = Throw e ->
  isTransient e = true ->
  (i < total - 1)%nat ->
  retrying total input i (c :: rest) redis lastError tried
  = retrying total input (S i) rest
             (recordFailure cfg (nowAtFailure i) redis1 (modelKey c))
             (Some e) (tried ++ [(i, c)]).
Proof.
  intros H Ha Ht Hi. cbn [fallbackLoop]. rewrite H, Ha. cbn [negb].
  unfold isTransient in Ht. apply andb_true_iff in Ht as [Ht1 Ht2].
  apply negb_true_iff in Ht1. rewrite Ht1, Ht2.
  apply Nat.ltb_lt in Hi. now rewrite Hi.
Qed.

Lemma default_list_both_fail input db base e0 e1 :
  circuitBreakerFailureThreshold cfg = 2 ->
  currentState (Some db) (modelKey base) = defaultState ->
  attempt 0%nat base input = Throw e0 ->
  isTransient e0 = true ->
  attempt 1%nat base input = Throw e1 ->
  isTransient e1 = true ->
  nowAtCheck 2 - nowAtFailure 1 < circuitBreakerTimeoutMs cfg ->
  let run := retrying 3 input 0 [base; base; base] (Some db) None [] in
  attempts run = [(0%nat, base); (1%nat, base)]
  /\ outcome run
     = Raised Exhausted (exhaustedMessage taskValue task (Some e1))
  /\ currentState (redisAfter run) (modelKey base)
     = {| state := OPEN; failureCount := 2;
          lastFailureTime := nowAtFailure 1;
          openedAt := Some (nowAtFailure 1) |}.
Proof.
  intros Hthr Hdef Ha0 Ht0 Ha1 Ht1 Htime run. subst run.
  assert (Hs : state (currentState (Some db) (modelKey base)) = CLOSED)
    by now rewrite Hdef.
  destruct (isCircuitClosed_when_closed cfg (nowAtCheck 0) db (modelKey base) Hs)
    as [db0 [E0 S0]].
  rewrite (loop_next 3 input 0 base [base; base] (Some db) (Some db0)
             None [] e0 E0 Ha0 Ht0) by (simpl; lia).
  destruct (recordFailure_is_available cfg (nowAtFailure 0) db0 (modelKey base))
    as [db1 R1].
  pose proof (recordFailure_available cfg (nowAtFailure 0) db0 (modelKey base))
    as S1.
  cbn zeta in S1. rewrite R1 in S1 |- *. rewrite S0, Hdef, Hthr in S1.
  cbn in S1.
  assert (Hs1 : state (currentState (Some db1) (modelKey base)) = CLOSED)
    by now rewrite S1.
  destruct (isCircuitClosed_when_closed cfg (nowAtCheck 1) db1 (modelKey base) Hs1)
    as [db1' [E1 S1']].
  rewrite (loop_next 3 input 1 base [base] (Some db1) (Some db1')
             (Some e0) _ e1 E1 Ha1 Ht1) by (simpl; lia).
  destruct (recordFailure_is_available cfg (nowAtFailure 1) db1' (modelKey base))
    as [db2 R2].
  pose proof (recordFailure_available cfg (nowAtFailure 1) db1' (modelKey base))
    as S2.
  cbn zeta in S2. rewrite R2 in S2 |- *. rewrite S1', S1, Hthr in S2.
  cbn in S2.
  assert (Hs2 : state (currentState (Some db2) (modelKey base)) = OPEN)
    by now rewrite S2.
  assert (Ho2 : openedAt (currentState (Some db2) (modelKey base))
                = Some (nowAtFailure 1)) by now rewrite S2.
  destruct (isCircuitClosed_when_open cfg (nowAtCheck 2) db2 (modelKey base)
              (nowAtFailure 1) Hs2 Ho2 Htime) as [db2' [E2 S2']].
  cbn [fallbackLoop]. rewrite E2. cbn. rewrite S2', S2. auto.
Qed.

Lemma attempt_without_secrets_key i c input :
  JS.truthy_opt JS.truthy_string (env !! "SECRETS_ENCRYPTION_KEY") = false ->
  attempt i c input
  = Throw "SECRETS_ENCRYPTION_KEY environment variable is required".
Proof.
  intros H. unfold tryBlock, initializeModel, getUserApiKey.
  now rewrite H.
Qed.

Context {ConfigurableModel : Type}.
Variable TASK_TO_CONFIG_DEFAULTS_MAP : LLMTask -> string.
Variable thisConfig : GraphConfig.
Variable getPrimaryModel : Result ConfigurableModel.

Local Abbreviation run_invoke :=
  (invoke cfg taskValue TASK_TO_CONFIG_DEFAULTS_MAP env isAllowedUser
          decryptSecret API_KEY_REQUIRED_MESSAGE
            BedrockChat_TypeError thisConfig task
          providerMessages getPrimaryModel graphConfig callProvider
          nowAtCheck nowAtFailure).

(** X22.  A missing [SECRETS_ENCRYPTION_KEY] is counted against the
    model.  When the variable is unset or empty every initialisation
    throws before a client exists, for every provider and user; the
    error is classified as transient, so with the resolver's list, the
    default threshold, an available store, the key in its default state
    and the third availability check within the circuit's timeout of
    the second failure, the call makes two attempts, records two
    failures and leaves the model's circuit OPEN, raising the exhaustion
    error, although no provider was ever contacted (the outcome does not
    depend on the provider). *)
Theorem missing_secrets_key_opens_circuit input db primaryModel :
  JS.truthy_opt JS.truthy_string (env !! "SECRETS_ENCRYPTION_KEY") = false ->
  getPrimaryModel = Ok primaryModel ->
  circuitBreakerFailureThreshold cfg = 2 ->
  let base :=
    getBaseConfigForTask taskValue TASK_TO_CONFIG_DEFAULTS_MAP env
                         thisConfig task in
  currentState (Some db) (modelKey base) = defaultState ->
  nowAtCheck 2 - nowAtFailure 1 < circuitBreakerTimeoutMs cfg ->
  let run := run_invoke input (Some db) in
  attempts run = [(0%nat, base); (1%nat, base)]
  /\ outcome run
     = Raised Exhausted
         ("All fallback models exhausted for task " +:+ taskValue task +:+
          ". Last error: SECRETS_ENCRYPTION_KEY environment variable is required")
  /\ currentState (redisAfter run) (modelKey base)
     = {| state := OPEN; failureCount := 2;
          lastFailureTime := nowAtFailure 1;
          openedAt := Some (nowAtFailure 1) |}.
Proof.
  intros Hkey Hpm Hthr base Hdef Htime run. subst run.
  unfold invoke. rewrite Hpm. unfold getModelConfigs. cbn [app length].
  fold base.
  exact (default_list_both_fail (sanitizeHistory input) db base _ _
           Hthr Hdef
           (attempt_without_secrets_key 0%nat base _ Hkey) eq_refl
           (attempt_without_secrets_key 1%nat base _ Hkey) eq_refl
           Htime).
Qed.

(** *** A missing API key *)

Lemma missing_key_message_is_auth p tail :
  isAuthError ("No API key found for provider: " +:+ p +:+ tail) = true.
Proof.
  unfold isAuthError.
  assert (H : JS.includes ("No API key found for provider: " +:+ p +:+ tail)
                          "API key" = true) by reflexivity.
  rewrite H. now rewrite !orb_true_r.
Qed.

Lemma attempt_without_api_key i c input login keys k :
  JS.truthy_opt JS.truthy_string (env !! "SECRETS_ENCRYPTION_KEY") = true ->
  configurable graphConfig ≫= userLogin = Some login ->
  JS.truthy_string login = true ->
  isAllowedUser login = false ->
  has_visible_char (JS.nullish (envApiKeyMap env (provider c)) "") = false ->
  configurable graphConfig ≫= apiKeys = Some keys ->
  providerToApiKey (provider c) keys = Ok k ->
  JS.truthy_opt JS.truthy_string k = false ->
  exists tail,
    attempt i c input
    = Throw ("No API key found for provider: " +:+ provider c +:+ tail).
Proof.
  intros Hs Hl Ht Ha Hblank Hkeys Hk Hempty.
  unfold tryBlock, initializeModel, getUserApiKey. rewrite Hs.
  destruct (configurable graphConfig) as [conf|]; [|discriminate].
  cbn [mbind option_bind] in Hl, Hkeys. rewrite Hl, Hkeys.
  cbn [negb JS.truthy_opt JS.nullish]. rewrite Ht, Ha, Hblank, andb_false_r.
  rewrite Hk. cbn [mbind Result_bind negb]. rewrite Hempty. cbn [negb].
  eexists. reflexivity.
Qed.

(** X23.  A user without a key is not retried.  For a user who is not
    allow-listed, when the environment holds no non-blank key for the
    candidate's provider and the session's [apiKeys] hold none either
    (which is always so for Bedrock), the attempt throws "No API key
    found for provider: ..." before any client is built; the runner
    classifies this message as an authentication error, so if it
    happens on the first attempted candidate the run ends there with the
    authentication error, in both revisions. *)
Theorem missing_api_key_aborts_run modelConfigs input redis i c login keys k :
  JS.truthy_opt JS.truthy_string (env !! "SECRETS_ENCRYPTION_KEY") = true ->
  configurable graphConfig ≫= userLogin = Some login ->
  JS.truthy_string login = true ->
  isAllowedUser login = false ->
  has_visible_char (JS.nullish (envApiKeyMap env (provider c)) "") = false ->
  configurable graphConfig ≫= apiKeys = Some keys ->
  providerToApiKey (provider c) keys = Ok k ->
  JS.truthy_opt JS.truthy_string k = false ->
  exists tail,
    let e := "No API key found for provider: " +:+ provider c +:+ tail in
    attempt i c input = Throw e
    /\ isAuthError e = true
    /\ (let run :=
          retrying (length modelConfigs) input 0 modelConfigs redis None [] in
        hd_error (attempts run) = Some (i, c) ->
        attempts run = [(i, c)]
        /\ outcome run
           = Raised AuthenticationFailed (authenticationMessage c e))
    /\ (let run := failFast input 0 modelConfigs redis None [] in
        hd_error (attempts run) = Some (i, c) ->
        attempts run = [(i, c)]
        /\ outcome run
           = Raised AuthenticationFailed (authenticationMessage c e)).
Proof.
  intros Hs Hl Ht Ha Hblank Hkeys Hk Hempty.
  destruct (attempt_without_api_key i c input login keys k
              Hs Hl Ht Ha Hblank Hkeys Hk Hempty) as [tail Hthrow].
  exists tail. intros e. subst e.
  pose proof (missing_key_message_is_auth (provider c) tail) as Hauth.
  repeat split; auto.
  - eapply retrying_first_attempt_auth; eauto.
  - eapply retrying_first_attempt_auth; eauto.
  - eapply failFast_first_attempt_auth; eauto.
  - eapply failFast_first_attempt_auth; eauto.
Qed.

(** *** Provider-specific messages *)

Lemma retrying_same_attempts total input1 input2 remaining :
  (forall i c, In c remaining -> attempt i c input1 = attempt i c input2) ->
  forall i redis lastError tried,
  retrying total input1 i remaining redis lastError tried
  = retrying total input2 i remaining redis lastError tried.
Proof.
  induction remaining as [|c rest IH]; intros Hsame i redis lastError tried.
  - reflexivity.
  - cbn [fallbackLoop]. rewrite (Hsame i c (or_introl eq_refl)).
    destruct (isCircuitClosed cfg (nowAtCheck i) redis (modelKey c))
      as [closed redis1].
    assert (Hrest : forall i c, In c rest ->
              attempt i c input1 = attempt i c input2)
      by (intros; apply Hsame; now right).
    destruct closed; cbn [negb]; [|now apply IH].
    destruct (attempt i c input2) as [r|e]; [reflexivity|].
    destruct (isAuthError e); [reflexivity|].
    destruct (negb (isConfigError e) && (i <? total - 1)%nat);
      [now apply IH | reflexivity].
Qed.

(** X24.  Provider-specific messages replace the input.  When the
    runnable was given [providerMessages] with an entry for the provider
    of the resolved candidate, every attempt hands exactly that entry to
    the provider: the caller's input, sanitised or not, is not used, so
    two calls with different inputs run identically, and the messages of
    the entry reach the provider without being sanitised. *)
Theorem provider_messages_replace_input table messages input1 input2 redis :
  let base :=
    getBaseConfigForTask taskValue TASK_TO_CONFIG_DEFAULTS_MAP env
                         thisConfig task in
  providerMessages = Some table ->
  JS.truthy_string (provider base) = true ->
  table !! provider base = Some messages ->
  run_invoke input1 redis = run_invoke input2 redis
  /\ forall i,
       attempt i base (sanitizeHistory input1)
       = (model ← initializeModel env isAllowedUser decryptSecret
                    API_KEY_REQUIRED_MESSAGE
                      BedrockChat_TypeError base graphConfig;
          callProvider i model (Messages messages)).
Proof.
  intros base Hpm Ht Hentry.
  assert (Hattempt : forall i input,
    attempt i base input
    = (model ← initializeModel env isAllowedUser decryptSecret
                 API_KEY_REQUIRED_MESSAGE
                   BedrockChat_TypeError base graphConfig;
       callProvider i model (Messages messages))).
  { intros i input. unfold tryBlock, useProviderMessages.
    now rewrite Hpm, Ht, Hentry. }
  split; [|intros i; apply Hattempt].
  unfold invoke. destruct getPrimaryModel as [primaryModel|message];
    [|reflexivity].
  apply retrying_same_attempts. intros i c Hc.
  unfold getModelConfigs in Hc. cbn [app In] in Hc. fold base in Hc.
  destruct Hc as [<-|[<-|[<-|[]]]]; now rewrite !Hattempt.
Qed.

End Loop.

Lemma open_circuits_fail_without_attempt_witness :
  let run :=
    Samples.plannerInvoke DEFAULT_MODEL_MANAGER_CONFIG MoreSamples.answering
                          (Messages []) MoreSamples.openStore in
  attempts run = []
  /\ outcome run
     = Raised Exhausted
         "All fallback models exhausted for task planner. Last error: undefined".
Proof.
  intros run.
  destruct (open_circuits_fail_without_attempt
              DEFAULT_MODEL_MANAGER_CONFIG Samples.taskValue Samples.secretsEnv
              Samples.everyoneAllowed Samples.decryptIdentity "API key required"
                Samples.typeError
              PLANNER None Samples.plainSession MoreSamples.answering
              Samples.checkClock Samples.failureClock
              [Samples.plannerBase; Samples.plannerBase; Samples.plannerBase]
              (Messages []) MoreSamples.openStore) as [[H1 [H2 _]] _].
  - intros c [<-|[<-|[<-|[]]]]; exists 900;
      (split; [reflexivity|split; [reflexivity|]]);
      intros j Hj; destruct j as [|[|[|j]]];
      try (vm_compute; reflexivity); cbn in Hj; lia.
  - split; [exact H1 | exact H2].
Defined.

Lemma returned_result_resets_breaker_witness :
  let run :=
    Samples.plannerInvoke DEFAULT_MODEL_MANAGER_CONFIG MoreSamples.answering
                          (Messages []) (Some ∅) in
  exists j c before,
    attempts run = (before ++ [(j, c)])%list
    /\ failureCount (currentState (redisAfter run) (modelKey c)) = 0.
Proof.
  intros run.
  destruct (returned_result_resets_breaker
              DEFAULT_MODEL_MANAGER_CONFIG Samples.taskValue Samples.secretsEnv
              Samples.everyoneAllowed Samples.decryptIdentity "API key required"
                Samples.typeError
              PLANNER None Samples.plainSession MoreSamples.answering
              Samples.checkClock Samples.failureClock
              [Samples.plannerBase; Samples.plannerBase; Samples.plannerBase]
              (Messages []) (Some ∅) "done") as [H _].
  destruct (H eq_refl) as [j [c [before [H1 [_ [_ [H2 _]]]]]]].
  exists j, c, before. split; [exact H1 | exact H2].
Defined.

Lemma fatal_error_ends_the_run_witness :
  let run :=
    Samples.plannerInvoke Samples.patientManager
                          MoreSamples.timeoutThenRejected
                          (Messages []) (Some ∅) in
  (exists before, attempts run = (before ++ [(1%nat, Samples.plannerBase)])%list)
  /\ outcome run = Raised Rethrown "Invalid parameter: temperature".
Proof.
  intros run.
  apply (fatal_error_ends_the_run
           Samples.patientManager Samples.taskValue Samples.secretsEnv
           Samples.everyoneAllowed Samples.decryptIdentity "API key required"
             Samples.typeError
           PLANNER None Samples.plainSession MoreSamples.timeoutThenRejected
           Samples.checkClock Samples.failureClock
           [Samples.plannerBase; Samples.plannerBase; Samples.plannerBase]
           (Messages []) (Some ∅) 1%nat Samples.plannerBase
           "Invalid parameter: temperature").
  - vm_compute. auto.
  - reflexivity.
  - right. reflexivity.
Defined.

Lemma missing_secrets_key_opens_circuit_witness :
  let run :=
    MoreSamples.plannerLoop DEFAULT_MODEL_MANAGER_CONFIG ∅
      Samples.everyoneAllowed Samples.plainSession None MoreSamples.answering
      (Messages []) (Some ∅) in
  attempts run = [(0%nat, Samples.plannerBase); (1%nat, Samples.plannerBase)]
  /\ outcome run
     = Raised Exhausted
         "All fallback models exhausted for task planner. Last error: SECRETS_ENCRYPTION_KEY environment variable is required"
  /\ state (currentState (redisAfter run) "anthropic:claude-sonnet-4-5-20250929")
     = OPEN.
Proof.
  intros run.
  assert (Htime : Samples.checkClock 2 - Samples.failureClock 1
                  < circuitBreakerTimeoutMs DEFAULT_MODEL_MANAGER_CONFIG)
    by (vm_compute; reflexivity).
  assert (Hkey : JS.truthy_opt JS.truthy_string
                   ((∅ : gmap string string) !! "SECRETS_ENCRYPTION_KEY")
                 = false) by reflexivity.
  destruct (missing_secrets_key_opens_circuit
              DEFAULT_MODEL_MANAGER_CONFIG Samples.taskValue ∅
              Samples.everyoneAllowed Samples.decryptIdentity "API key required"
                Samples.typeError
              PLANNER None Samples.plainSession MoreSamples.answering
              Samples.checkClock Samples.failureClock
              Samples.defaults Samples.plainSession (Ok tt)
              (Messages []) ∅ tt Hkey eq_refl eq_refl)
    as [H1 [H2 H3]]; [reflexivity | exact Htime |].
  split; [exact H1|]. split; [exact H2|].
  exact (f_equal state H3).
Defined.

Lemma missing_api_key_aborts_run_witness :
  let run :=
    MoreSamples.plannerLoop DEFAULT_MODEL_MANAGER_CONFIG Samples.secretsEnv
      MoreSamples.nobodyAllowed MoreSamples.keylessSession None
      MoreSamples.answering (Messages []) (Some ∅) in
  exists tail,
    attempts run = [(0%nat, Samples.plannerBase)]
    /\ outcome run
       = Raised AuthenticationFailed
           (authenticationMessage Samples.plannerBase
              ("No API key found for provider: anthropic" +:+ tail)).
Proof.
  intros run.
  destruct (missing_api_key_aborts_run
              DEFAULT_MODEL_MANAGER_CONFIG Samples.taskValue Samples.secretsEnv
              MoreSamples.nobodyAllowed Samples.decryptIdentity
              "API key required"
                Samples.typeError PLANNER None MoreSamples.keylessSession
              MoreSamples.answering Samples.checkClock Samples.failureClock
              [Samples.plannerBase; Samples.plannerBase; Samples.plannerBase]
              (Messages []) (Some ∅) 0%nat Samples.plannerBase "bob" ∅ None
              eq_refl eq_refl eq_refl eq_refl eq_refl eq_refl eq_refl eq_refl)
    as [tail [_ [_ [H _]]]].
  exists tail. exact (H eq_refl).
Defined.

Lemma provider_messages_replace_input_witness :
  let table : option (gmap string (list Message)) :=
    Some {["anthropic" := [Samples.userMessage "hello"]]} in
  MoreSamples.plannerLoop DEFAULT_MODEL_MANAGER_CONFIG Samples.secretsEnv
    Samples.everyoneAllowed Samples.plainSession table MoreSamples.answering
    (Messages [Samples.assistantWithCalls [Samples.shellCall]]) (Some ∅)
  = MoreSamples.plannerLoop DEFAULT_MODEL_MANAGER_CONFIG Samples.secretsEnv
      Samples.everyoneAllowed Samples.plainSession table MoreSamples.answering
      (Prompt "hello") (Some ∅).
Proof.
  intros table.
  apply (provider_messages_replace_input
           DEFAULT_MODEL_MANAGER_CONFIG Samples.taskValue Samples.secretsEnv
           Samples.everyoneAllowed Samples.decryptIdentity "API key required"
             Samples.typeError
           PLANNER table Samples.plainSession MoreSamples.answering
           Samples.checkClock Samples.failureClock
           Samples.defaults Samples.plainSession (Ok tt)
           {["anthropic" := [Samples.userMessage "hello"]]}
           [Samples.userMessage "hello"]);
    reflexivity.
Defined.

End RunnerLaws.

(** ** The document cache *)

Module CacheProps.

Import Resolver RedisState ToolOutput TextFacts.

Lemma documentCacheKey_inj t u t' u' :
  JS.includes t ":" = false ->
  JS.includes t' ":" = false ->
  documentCacheKey t u = documentCacheKey t' u' ->
  t = t' /\ u = u'.
Proof.
  intros Ht Ht' H. unfold documentCacheKey, DOCUMENT_CACHE in H.
  assert (H1 : t +:+ ":" +:+ u = t' +:+ ":" +:+ u') by now injection H.
  apply (f_equal (JS.split ":")) in H1.
  change (t +:+ ":" +:+ u) with (t +:+ String ":" u) in H1.
  change (t' +:+ ":" +:+ u') with (t' +:+ String ":" u') in H1.
  rewrite (split_app_sep ":" t u Ht), (split_app_sep ":" t' u' Ht') in H1.
  injection H1 as -> H2. split; [reflexivity|].
  apply (f_equal (JS.join ":")) in H2.
  now rewrite !join_split in H2.
Qed.

Lemma documentCacheKey_not_tree t u t' :
  documentCacheKey t u <> CODEBASE_TREE +:+ t'.
Proof. intros H. discriminate H. Qed.

Lemma get_set_same db key value expirationSeconds :
  get (set (Some db) key value expirationSeconds) key = Some value.
Proof.
  unfold get, set.
  destruct (JS.truthy_opt JS.truthy_Z expirationSeconds);
    apply lookup_insert_eq.
Qed.

Lemma get_set_other store key key' value expirationSeconds :
  key <> key' ->
  get (set store key value expirationSeconds) key' = get store key'.
Proof.
  intros Hne. destruct store as [db|]; [|reflexivity]. unfold get, set.
  destruct (JS.truthy_opt JS.truthy_Z expirationSeconds);
    now apply lookup_insert_ne.
Qed.

(** X25.  The document cache behaves as a map from (thread, URL) to
    content.  What [setDocumentCache] stored is what [getDocumentCache]
    returns for that thread and URL while the store is available (with
    the store unavailable nothing is stored and nothing is found).  For
    thread ids without a colon, entries of different (thread, URL) pairs
    do not disturb each other; and the document cache and the
    codebase-tree entries never disturb each other. *)
Theorem document_cache_round_trip store t u c t' u' :
  getDocumentCache (setDocumentCache store t u c) t u
  = match store with Some _ => Some c | None => None end
  /\ (JS.includes t ":" = false ->
      JS.includes t' ":" = false ->
      (t, u) <> (t', u') ->
      getDocumentCache (setDocumentCache store t u c) t' u'
      = getDocumentCache store t' u')
  /\ getCodebaseTree (setDocumentCache store t u c) t'
     = getCodebaseTree store t'
  /\ getDocumentCache (setCodebaseTree store t c) t' u'
     = getDocumentCache store t' u'.
Proof.
  unfold getDocumentCache, setDocumentCache, getCodebaseTree, setCodebaseTree.
  repeat split.
  - destruct store as [db|]; [apply get_set_same | reflexivity].
  - intros Ht Ht' Hne. apply get_set_other. intros H.
    apply documentCacheKey_inj in H as [-> ->]; auto.
  - apply get_set_other, documentCacheKey_not_tree.
  - apply get_set_other. intros H. symmetry in H.
    now apply documentCacheKey_not_tree in H.
Qed.

Section Process.

Variable truncateOutput : string -> option (Z * Z) -> string.
Variable handleMcpDocumentationOutput :
  string -> GraphConfig -> option string -> Result string.
Variable parseUrl : string -> option string.

Local Abbreviation process :=
  (processToolCallContent truncateOutput handleMcpDocumentationOutput
                          parseUrl).

(** X26.  What is cached is the raw tool output, not the processed
    one.  For a higher-context-limit tool whose URL argument parses,
    called in a thread with an available store and nothing cached: the
    first call returns the content produced by
    [handleMcpDocumentationOutput] and caches the raw [result], in the
    store and in the returned state update.  Every later call for the
    same URL, whatever output the tool produced this time, returns that
    first raw result unprocessed, without calling the handler and
    without touching the store; the same happens without a store once
    the state update has been applied. *)
Theorem cached_document_is_the_raw_result
        toolCall result names cache config t db u href processed :
  String.eqb (name toolCall) "search_document_for" = false ->
  existsb (String.eqb (name toolCall)) names = true ->
  or_arg (or_arg (arg toolCall "url") (arg toolCall "uri"))
         (arg toolCall "path") = Some (ArgString u) ->
  parseUrl u = Some href ->
  JS.truthy_string href = true ->
  JS.truthy_string t = true ->
  JS.truthy_opt JS.truthy_string (db !! documentCacheKey t href) = false ->
  JS.truthy_opt JS.truthy_string (cache !! href) = false ->
  handleMcpDocumentationOutput result config (Some href) = Ok processed ->
  JS.truthy_string result = true ->
  exists first,
    process toolCall result names cache config (Some t) (Some db) = Ok first
    /\ content first = processed
    /\ stateUpdates first = Some (<[href := result]> cache)
    /\ getDocumentCache (storeAfter first) t href = Some result
    /\ (forall result' cache',
          process toolCall result' names cache' config (Some t)
                  (storeAfter first)
          = Ok {| content := result; stateUpdates := None;
                  storeAfter := storeAfter first |})
    /\ (forall result' threadId,
          process toolCall result' names (<[href := result]> cache) config
                  threadId None
          = Ok {| content := result; stateUpdates := None;
                  storeAfter := None |}).
Proof.
  intros Hname Hhigh Hurl Hparse Hhref Ht Hdb Hcache Hmcp Hres.
  assert (Hstored :
    getDocumentCache (setDocumentCache (Some db) t href result) t href
    = Some result).
  { unfold getDocumentCache, setDocumentCache. apply get_set_same. }
  eexists. split; [|split; [|split; [|split; [|split]]]].
  - unfold processToolCallContent.
    rewrite Hname, Hhigh, Hurl, Hparse.
    cbn [JS.truthy_opt JS.nullish]. rewrite Hhref, Ht. cbn [andb].
    change (getDocumentCache (Some db) t href)
      with (db !! documentCacheKey t href).
    rewrite Hcache, andb_false_r, Hdb, Hmcp. reflexivity.
  - reflexivity.
  - reflexivity.
  - exact Hstored.
  - intros result' cache'. cbn [storeAfter].
    unfold processToolCallContent.
    rewrite Hname, Hhigh, Hurl, Hparse.
    cbn [JS.truthy_opt JS.nullish]. rewrite Hhref, Ht. cbn [andb].
    rewrite Hstored. cbn [JS.truthy_opt JS.nullish]. rewrite Hres.
    cbn [negb andb JS.truthy_opt JS.nullish]. now rewrite Hres.
  - intros result' threadId. unfold processToolCallContent.
    rewrite Hname, Hhigh, Hurl, Hparse.
    cbn [JS.truthy_opt JS.nullish]. rewrite Hhref. cbn [andb].
    assert (Hnone : (if JS.truthy_opt JS.truthy_string threadId
                     then getDocumentCache None (JS.nullish threadId "") href
                     else None) = None)
      by now destruct (JS.truthy_opt JS.truthy_string threadId).
    rewrite Hnone, lookup_insert_eq.
    cbn [JS.truthy_opt JS.nullish negb andb]. rewrite Hres.
    cbn [JS.truthy_opt JS.nullish negb andb]. now rewrite Hres.
Qed.

End Process.

Lemma cached_document_is_the_raw_result_witness :
  let truncate := fun (s : string) (limits : option (Z * Z)) => s in
  let handler :=
    fun (result : string) (config : GraphConfig) (url : option string) =>
      Ok ("summary of " +:+ result) in
  let parse := fun s : string => Some s in
  let toolCall :=
    {| name := "fetch_docs";
       args := Some {["url" := ArgString "https://docs.example/api"]} |} in
  exists first,
    processToolCallContent truncate handler parse toolCall "raw page"
      ["fetch_docs"] ∅ Samples.plainSession (Some "thread-1") (Some ∅)
    = Ok first
    /\ content first = "summary of raw page"
    /\ processToolCallContent truncate handler parse toolCall "new page"
         ["fetch_docs"] ∅ Samples.plainSession (Some "thread-1")
         (storeAfter first)
       = Ok {| content := "raw page"; stateUpdates := None;
               storeAfter := storeAfter first |}.
Proof.
  intros truncate handler parse toolCall.
  destruct (cached_document_is_the_raw_result truncate handler parse
              toolCall "raw page" ["fetch_docs"] ∅ Samples.plainSession
              "thread-1" ∅ "https://docs.example/api"
              "https://docs.example/api" "summary of raw page")
    as [first [H1 [H2 [_ [_ [H3 _]]]]]]; try reflexivity.
  exists first. split; [exact H1|]. split; [exact H2|]. apply H3.
Defined.

End CacheProps.

(** ** API bearer tokens *)

Module ApiTokensProps.

Import ApiTokens TextFacts.

Lemma tokens_fold t pieces : forall tokens : list string,
  In t (fold_left
          (fun tokens piece =>
             let v := Text.trim piece in
             if JS.truthy_string v then (tokens ++ [v])%list else tokens)
          pieces tokens)
  <-> In t tokens
      \/ (t <> "" /\ exists piece, In piece pieces /\ t = Text.trim piece).
Proof.
  induction pieces as [|piece pieces IH]; intros tokens; cbn [fold_left].
  - split; [auto|]. intros [H|[_ [piece [[] _]]]]. exact H.
  - rewrite IH. cbn zeta.
    destruct (Text.trim piece) as [|c v] eqn:E; cbn [JS.truthy_string].
    + split.
      * intros [H|[Hne [p [Hp Ht]]]]; [auto|].
        right. split; [exact Hne|]. exists p. split; [now right|exact Ht].
      * intros [H|[Hne [p [[<-|Hp] Ht]]]]; [auto| |].
        -- congruence.
        -- right. split; [exact Hne|]. eauto.
    + rewrite in_app_iff. cbn [In]. split.
      * intros [[H|[<-|[]]]|[Hne [p [Hp Ht]]]]; [auto| |].
        -- right. split; [discriminate|]. exists piece. split; [now left|].
           now rewrite E.
        -- right. split; [exact Hne|]. exists p. split; [now right|exact Ht].
      * intros [H|[Hne [p [[<-|Hp] Ht]]]]; [auto| |].
        -- left. right. left. now rewrite Ht, E.
        -- right. split; [exact Hne|]. eauto.
Qed.

(** Membership in the configured tokens. *)
Lemma configured_token_spec env t :
  In t (getConfiguredApiTokens env)
  <-> t <> ""
      /\ (t = Text.trim (Init.or_string (env !! "API_BEARER_TOKEN") "")
          \/ exists piece,
               In piece (JS.split "," (Init.or_string (env !! "API_BEARER_TOKENS") ""))
               /\ t = Text.trim piece).
Proof.
  set (single := Init.or_string (env !! "API_BEARER_TOKEN") "").
  set (many := Init.or_string (env !! "API_BEARER_TOKENS") "").
  unfold getConfiguredApiTokens. fold single. fold many. cbn [app].
  assert (Hsingle :
    In t (if JS.truthy_string (Text.trim single)
          then [Text.trim single] else [])
    <-> t <> "" /\ t = Text.trim single).
  { destruct (Text.trim single) as [|c v] eqn:E; cbn.
    - split; [tauto|]. intros [H1 H2]. congruence.
    - split; [intros [<-|[]]; split; [discriminate|reflexivity]|].
      intros [_ ->]. now left. }
  destruct (JS.truthy_string (Text.trim many)) eqn:Em.
  - rewrite tokens_fold, Hsingle. tauto.
  - rewrite Hsingle. split; [tauto|].
    intros [Hne [H|[piece [Hp Ht]]]]; [tauto|]. exfalso.
    assert (Hblank : Text.trim many = "")
      by (destruct (Text.trim many); [reflexivity|discriminate]).
    apply trim_blank in Hblank.
    rewrite (split_sep_free "," many (blank_without_comma many Hblank)) in Hp.
    destruct Hp as [<-|[]]. apply trim_blank in Hblank. congruence.
Qed.

(** X27.  The configured API tokens are exactly the non-empty trimmed
    values of [API_BEARER_TOKEN] and of the comma-separated pieces of
    [API_BEARER_TOKENS]: a blank value or piece yields no token, and
    no token carries leading or trailing whitespace. *)
Theorem configured_tokens_are_trimmed_pieces env :
  let single := Init.or_string (env !! "API_BEARER_TOKEN") "" in
  let many := Init.or_string (env !! "API_BEARER_TOKENS") "" in
  (forall t,
     In t (getConfiguredApiTokens env)
     <-> t <> ""
         /\ (t = Text.trim single
             \/ exists piece, In piece (JS.split "," many) /\ t = Text.trim piece))
  /\ Forall (fun t => t <> "" /\ Text.trim t = t) (getConfiguredApiTokens env).
Proof.
  intros single many. split; [intros t; apply configured_token_spec|].
  apply List.Forall_forall. intros t Ht.
  apply configured_token_spec in Ht as [Hne Ht].
  split; [exact Hne|].
  destruct Ht as [->|[piece [_ ->]]]; apply trim_idempotent.
Qed.

Section Bcrypt.

Variable hashSync : nat -> string -> string.
Variable compareSync : string -> string -> bool.

Local Abbreviation validate env :=
  (validateApiBearerToken env hashSync compareSync).

Lemma accepted_by_hashes token n (tokens : list string) :
  existsb (fun h => compareSync token h)
          (imap (fun i t => hashSync (n + i) t) tokens) = true
  <-> exists i t,
        tokens !! i = Some t
        /\ compareSync token (hashSync (n + i) t) = true.
Proof.
  rewrite existsb_exists. split.
  - intros [h [Hh Hc]]. rewrite <- list_elem_of_In in Hh.
    apply elem_of_lookup_imap in Hh as [i [t [-> Ht]]]. eauto.
  - intros [i [t [Ht Hc]]]. exists (hashSync (n + i) t).
    split; [|exact Hc]. rewrite <- list_elem_of_In.
    apply elem_of_lookup_imap. eauto.
Qed.

Lemma validate_cold env token caches :
  getAllowedTokenHashesFromRedis caches = None ->
  fst (validate env token caches) = true
  <-> exists i t,
        getConfiguredApiTokens env !! i = Some t
        /\ compareSync token (hashSync (hashSyncCalls caches + i) t) = true.
Proof.
  intros Hcold. unfold validateApiBearerToken, getAllowedTokenHashes.
  rewrite Hcold. unfold bcryptHash.
  set (tokens := getConfiguredApiTokens env).
  rewrite length_imap.
  destruct tokens as [|t0 rest].
  - cbn. split; [discriminate|]. intros [i [t [H _]]]. destruct i; discriminate.
  - cbn [length Nat.eqb fst]. apply accepted_by_hashes.
Qed.

Lemma validate_warm env token caches hashes :
  redisHashes caches = Some (Some hashes) ->
  validate env token caches
  = (existsb (fun h => compareSync token h) hashes,
     {| redisHashes := Some (Some hashes);
        cachedAllowedTokenHashes := Some hashes;
        hashSyncCalls := hashSyncCalls caches |}).
Proof.
  intros H. unfold validateApiBearerToken, getAllowedTokenHashes,
    getAllowedTokenHashesFromRedis. rewrite H.
  destruct hashes; reflexivity.
Qed.

Lemma validate_cold_caches env token caches :
  getAllowedTokenHashesFromRedis caches = None ->
  let hashes :=
    imap (fun i t => hashSync (hashSyncCalls caches + i) t)
         (getConfiguredApiTokens env) in
  snd (validate env token caches)
  = {| redisHashes :=
         match redisHashes caches with
         | Some _ => Some (Some hashes)
         | None => None
         end;
       cachedAllowedTokenHashes := Some hashes;
       hashSyncCalls :=
         (hashSyncCalls caches + length (getConfiguredApiTokens env))%nat |}.
Proof.
  intros Hcold hashes. unfold validateApiBearerToken, getAllowedTokenHashes.
  rewrite Hcold. unfold setAllowedTokenHashes, bcryptHash.
  cbn [redisHashes cachedAllowedTokenHashes hashSyncCalls]. fold hashes.
  now destruct (_ =? _)%nat.
Qed.

(** X28.  Who is let in.  A list of hashes found in Redis decides alone:
    the bearer token is accepted exactly when [compareSync] matches it
    against one of them, whatever the environment says, and an empty
    list rejects every token.  When Redis holds no list or is
    unavailable, the configured tokens are hashed, each with a fresh
    salt, and the token is accepted exactly when [compareSync] matches
    it against one of these hashes; with no configured token every
    bearer token is rejected.  After such a validation on an available
    Redis the next validation compares against the hashes computed then,
    whatever the environment says by now; with Redis unavailable the
    next validation hashes the tokens of its own environment again. *)
Theorem token_checked_against_configured_hashes env token caches :
  (forall hashes,
     redisHashes caches = Some (Some hashes) ->
     fst (validate env token caches)
     = existsb (fun h => compareSync token h) hashes)
  /\ (getAllowedTokenHashesFromRedis caches = None ->
      let n := hashSyncCalls caches in
      let tokens := getConfiguredApiTokens env in
      let caches1 := snd (validate env token caches) in
      (fst (validate env token caches) = true
       <-> exists i t,
             tokens !! i = Some t
             /\ compareSync token (hashSync (n + i) t) = true)
      /\ (tokens = [] -> fst (validate env token caches) = false)
      /\ (redisHashes caches = Some None ->
          forall env' token',
            fst (validate env' token' caches1) = true
            <-> exists i t,
                  tokens !! i = Some t
                  /\ compareSync token' (hashSync (n + i) t) = true)
      /\ (redisHashes caches = None ->
          forall env' token',
            fst (validate env' token' caches1) = true
            <-> exists i t,
                  getConfiguredApiTokens env' !! i = Some t
                  /\ compareSync token'
                       (hashSync (n + length tokens + i) t) = true)).
Proof.
  split.
  - intros hashes H. now rewrite (validate_warm env token caches hashes H).
  - intros Hcold n tokens caches1.
    pose proof (validate_cold_caches env token caches Hcold) as Hnext.
    cbv zeta in Hnext. fold tokens in Hnext. fold n in Hnext.
    fold caches1 in Hnext.
    split; [now apply validate_cold|]. split; [|split].
    + intros Hnone.
      destruct (fst (validate env token caches)) eqn:E; [|reflexivity].
      apply (validate_cold env token caches Hcold) in E
        as [i [t [Ht _]]].
      fold tokens in Ht. rewrite Hnone in Ht. destruct i; discriminate.
    + intros Havailable env' token'.
      rewrite Havailable in Hnext.
      rewrite (validate_warm env' token' caches1 _
                 (f_equal redisHashes Hnext)).
      cbn [fst]. apply accepted_by_hashes.
    + intros Hdown env' token'.
      rewrite Hdown in Hnext.
      rewrite (validate_cold env' token' caches1)
        by (unfold getAllowedTokenHashesFromRedis; now rewrite Hnext).
      now rewrite Hnext.
Qed.

End Bcrypt.

Lemma token_checked_against_configured_hashes_witness :
  let env : gmap string string :=
    {["API_BEARER_TOKEN" := MoreSamples.NBSP +:+ "secret";
      "API_BEARER_TOKENS" := " alpha , ,beta "]} in
  let cold :=
    {| redisHashes := Some None; cachedAllowedTokenHashes := None;
       hashSyncCalls := 0 |} in
  let salted (n : nat) (value : string) :=
    String (ascii_of_nat (48 + n)) (":" +:+ value) in
  let matching (token hash : string) := String.eqb token (Text.slice 2 hash) in
  getConfiguredApiTokens env = ["secret"; "alpha"; "beta"]
  /\ fst (validateApiBearerToken env salted matching "secret" cold) = true
  /\ fst (validateApiBearerToken ∅ salted matching "beta"
            (snd (validateApiBearerToken env salted matching "secret" cold)))
     = true.
Proof.
  intros env cold salted matching. split; [reflexivity|].
  destruct (token_checked_against_configured_hashes salted matching env
              "secret" cold) as [_ H].
  destruct (H eq_refl) as [H1 [_ [H3 _]]]. split.
  - apply H1. exists 0%nat, "secret". split; reflexivity.
  - apply (H3 eq_refl ∅ "beta"). exists 2%nat, "beta". split; reflexivity.
Defined.

End ApiTokensProps.

(** ** Application URLs and the installation callback *)

Module WebUrlProps.

Import WebUrl TextFacts.

Lemma createAppUrl_on_site env path :
  exists rest, createAppUrl env path = (getBaseUrl env +:+ "/") +:+ rest.
Proof.
  unfold createAppUrl. destruct (JS.startsWith path "/") eqn:E.
  - apply prefix_split in E. exists (Text.slice (String.length "/") path).
    rewrite append_assoc. now rewrite <- E.
  - exists path. now rewrite append_assoc.
Qed.

(** X29.  Application URLs.  [createAppUrl] always yields the base URL
    followed by a path that starts with a slash, and a leading slash on
    its argument makes no difference.  The base URL is
    [NEXT_PUBLIC_API_URL] without one trailing [/api] or [/api/], so
    that both spellings of the API URL give the same application URLs;
    when the variable is unset or empty the base is
    http://localhost:3000. *)
Theorem createAppUrl_normalises env path origin :
  JS.startsWith (createAppUrl env path) (getBaseUrl env +:+ "/") = true
  /\ (JS.startsWith path "/" = false ->
      createAppUrl env ("/" +:+ path) = createAppUrl env path)
  /\ (env !! "NEXT_PUBLIC_API_URL" = Some (origin +:+ "/api")
      \/ env !! "NEXT_PUBLIC_API_URL" = Some (origin +:+ "/api/") ->
      getBaseUrl env = origin)
  /\ (JS.truthy_opt JS.truthy_string (env !! "NEXT_PUBLIC_API_URL") = false ->
      getBaseUrl env = "http://localhost:3000").
Proof.
  split; [|split; [|split]].
  - destruct (createAppUrl_on_site env path) as [rest ->]. apply prefix_app.
  - intros H. unfold createAppUrl. rewrite H.
    now replace (JS.startsWith ("/" +:+ path) "/") with true
      by (symmetry; apply (prefix_app "/" path)).
  - assert (Htruthy : forall suffix,
      suffix <> "" -> JS.truthy_string (origin +:+ suffix) = true).
    { intros suffix Hs. destruct origin; [|reflexivity].
      rewrite append_nil_l. now destruct suffix. }
    intros [H|H]; unfold getBaseUrl; rewrite H;
      cbn [JS.truthy_opt JS.nullish]; rewrite Htruthy by discriminate.
    + assert (Hno : Text.endsWith (origin +:+ "/api") "/api/" = false).
      { destruct (Text.endsWith (origin +:+ "/api") "/api/") eqn:E;
          [|reflexivity].
        apply endsWith_split in E as [a E].
        apply (f_equal (fun s => Text.endsWith s "i")) in E.
        replace (origin +:+ "/api") with ((origin +:+ "/ap") +:+ "i") in E
          by (now rewrite append_assoc).
        rewrite endsWith_app in E.
        assert (Hslash : forall b, Text.endsWith (b +:+ "/api/") "i" = false).
        { induction b as [|c b IH]; [reflexivity|].
          rewrite append_cons. cbn [Text.endsWith]. rewrite IH.
          rewrite orb_false_r. apply String.eqb_neq. intros Hc.
          injection Hc as _ Hc. destruct b; discriminate. }
        rewrite Hslash in E. discriminate. }
      rewrite Hno, endsWith_app. exact (dropEnd_app origin "/api").
    + rewrite endsWith_app. exact (dropEnd_app origin "/api/").
  - intros H. unfold getBaseUrl. now rewrite H.
Qed.

Lemma afterHost_host host rest :
  JS.includes host "/" = false ->
  afterHost (host +:+ String "/" rest) = String "/" rest.
Proof.
  induction host as [|c host IH]; intros H.
  - reflexivity.
  - apply includes_sep_cons in H as [Hc Hh].
    rewrite append_cons. cbn [afterHost]. rewrite Hc. now apply IH.
Qed.

Lemma afterOrigin_http host rest :
  host <> "" ->
  JS.includes host "/" = false ->
  afterOrigin ("http://" +:+ host +:+ String "/" rest) = Some (String "/" rest)
  /\ afterOrigin ("https://" +:+ host +:+ String "/" rest)
     = Some (String "/" rest).
Proof.
  intros Hne Hh. destruct host as [|c host]; [congruence|].
  apply includes_sep_cons in Hh as [Hc Hh].
  unfold afterOrigin. split.
  - replace (JS.startsWith ("http://" +:+ String c host +:+ String "/" rest)
                           "https://") with false by reflexivity.
    replace (JS.startsWith ("http://" +:+ String c host +:+ String "/" rest)
                           "http://") with true
      by (symmetry; apply prefix_app).
    change (Text.slice 7 ("http://" +:+ String c host +:+ String "/" rest))
      with (String c (host +:+ String "/" rest)).
    cbv iota beta. rewrite Hc. now rewrite afterHost_host.
  - replace (JS.startsWith ("https://" +:+ String c host +:+ String "/" rest)
                           "https://") with true
      by (symmetry; apply prefix_app).
    change (Text.slice 8 ("https://" +:+ String c host +:+ String "/" rest))
      with (String c (host +:+ String "/" rest)).
    cbv iota beta. rewrite Hc. now rewrite afterHost_host.
Qed.

Section Callback.

Variable env : gmap string string.
Variable GITHUB_INSTALLATION_RETURN_TO_COOKIE : string.
Variable GITHUB_INSTALLATION_STATE_COOKIE : string.
Variable GITHUB_INSTALLATION_ID_COOKIE : string.
Variable hrefOf : string -> option string.

Local Abbreviation handle :=
  (GET env GITHUB_INSTALLATION_RETURN_TO_COOKIE
       GITHUB_INSTALLATION_STATE_COOKIE GITHUB_INSTALLATION_ID_COOKIE
       hrefOf).

(** X30.  Where the installation callback redirects (for a base URL
    without [$]).  The URL that the handler hands to
    [NextResponse.redirect] is always the application's base URL
    followed by a path, with one exception: a return cookie that starts
    with "http" but not with [http://host] or [https://host] is handed
    over as it stands.  An absolute return URL [http(s)://host/path] is
    rewritten to the base URL followed by two slashes and the path,
    because the replacement [createAppUrl("")] already ends with a
    slash.  The [Location] header of the response is the framework's
    serialisation of that URL; when the URL does not parse, the
    response redirects to the error page on the base URL and sets no
    cookie. *)
Theorem installation_redirect_target request :
  JS.includes (getBaseUrl env) "$" = false ->
  let path := Init.or_string (returnToCookie request) "/" in
  let target := returnTo env request in
  (JS.startsWith target (getBaseUrl env +:+ "/") = true
   \/ (JS.startsWith path "http" = true
       /\ afterOrigin path = None
       /\ target = path))
  /\ (forall host rest,
        host <> "" ->
        JS.includes host "/" = false ->
        path = "http://" +:+ host +:+ "/" +:+ rest
        \/ path = "https://" +:+ host +:+ "/" +:+ rest ->
        target = getBaseUrl env +:+ "//" +:+ rest)
  /\ (forall href,
        hrefOf target = Some href ->
        exists cookies,
          handle request = Some {| location := href; cookies := cookies |})
  /\ (hrefOf target = None ->
      handle request
      = option_map (fun href => {| location := href; cookies := [] |})
          (hrefOf (createAppUrl env "/?error=installation_callback_failed"))).
Proof.
  intros _ path target. split; [|split; [|split]].
  - subst target. unfold returnTo. fold path.
    destruct (JS.startsWith path "http") eqn:Ehttp.
    + destruct (afterOrigin path) as [rest|] eqn:Eafter.
      * left. destruct (createAppUrl_on_site env "") as [r ->].
        rewrite append_assoc. apply prefix_app.
      * right. auto.
    + left. destruct (createAppUrl_on_site env path) as [r ->].
      apply prefix_app.
  - intros host rest Hne Hh Hpath. subst target. unfold returnTo. fold path.
    destruct (afterOrigin_http host rest Hne Hh) as [H1 H2].
    assert (Hcreate : createAppUrl env "" = getBaseUrl env +:+ "/")
      by reflexivity.
    destruct Hpath as [->| ->].
    + replace (JS.startsWith ("http://" +:+ host +:+ "/" +:+ rest) "http")
        with true by reflexivity.
      change ("http://" +:+ host +:+ "/" +:+ rest)
        with ("http://" +:+ host +:+ String "/" rest).
      rewrite H1, Hcreate, append_assoc. reflexivity.
    + replace (JS.startsWith ("https://" +:+ host +:+ "/" +:+ rest) "http")
        with true by reflexivity.
      change ("https://" +:+ host +:+ "/" +:+ rest)
        with ("https://" +:+ host +:+ String "/" rest).
      rewrite H2, Hcreate, append_assoc. reflexivity.
  - intros href H. unfold GET. fold target. rewrite H. eauto.
  - intros H. unfold GET. fold target. rewrite H.
    now destruct (hrefOf _).
Qed.

End Callback.

Lemma installation_redirect_target_witness :
  let env : gmap string string :=
    {["NEXT_PUBLIC_API_URL" := "https://swe.example/api"]} in
  let request :=
    {| installation_id := Some "42";
       returnToCookie := Some "http://0.0.0.0:3000/chat" |} in
  let hrefOf (url : string) :=
    if String.eqb url "https://swe.example//chat" then Some url else None in
  returnTo env request = "https://swe.example//chat"
  /\ GET env "return_to" "state" "id" hrefOf request
     = Some {| location := "https://swe.example//chat";
               cookies := [("return_to", "", true); ("state", "", true);
                           ("id", "42", false)] |}.
Proof.
  intros env request hrefOf.
  destruct (installation_redirect_target env "return_to" "state" "id"
              hrefOf request eq_refl) as [_ [H _]].
  split; [|reflexivity].
  apply (H "0.0.0.0:3000" "chat"); [discriminate|reflexivity|].
  left. reflexivity.
Defined.

End WebUrlProps.
